(** * workflow-plugin-authz: a shallow embedding of the policy enforcement core

    The development follows the Go sources of the plugin:
    - the relational (gorm) adapter's row bridge ([casbinRule], [lineToRule],
      [ruleToLine]) and its load/save/add/remove operations;
    - the in-memory adapter;
    - the enforcement module [CasbinModule] (Init, Enforce and the four
      mutation operations);
    - the decision steps (check, role assign).

    The matching engine, the line loader and the file adapter belong to the
    casbin library; they are modelled from the specification, and every such
    definition says so.  Functions of the Go standard library whose results
    the statements do not depend on are the fields of the class [GoLibs].

    Go maps that are only looked up are finite maps ([gmap]); a map that is
    ranged over is given as the list of its entries in the order the runtime
    visits them.  Effects (store access, calls into the matching engine) are
    threaded through a [World] by explicit state passing. *)

From Stdlib Require Import String Ascii List Bool Arith Lia.
From stdpp Require Import base option list gmap strings.

Import ListNotations.
Set Warnings "-register-all".
Local Open Scope string_scope.
Local Open Scope list_scope.

(** ** Go standard-library helpers that are plain functions on strings *)

(** [strings.Join(parts, sep)]. *)
Definition Join (parts : list string) (sep : string) : string :=
  String.concat sep parts.

(** Go's [s == ""] / [s != ""] tests. *)
Definition isEmpty (s : string) : bool := String.eqb s "".

(** * The relational adapter's schema bridge *)

Module Gorm.

(** One row of the [casbin_rule] table. *)
Record casbinRule : Type := mkRule {
  ID    : nat;
  Ptype : string;
  V0 : string; V1 : string; V2 : string;
  V3 : string; V4 : string; V5 : string
}.

(** The zero value [casbinRule{Ptype: ptype}]. *)
Definition zeroRule (ptype : string) : casbinRule :=
  mkRule 0 ptype "" "" "" "" "" "".

(** [*vs[i] = v] for [vs = {&r.V0, ..., &r.V5}]; the caller guards
    [i < len(vs)]. *)
Definition setV (i : nat) (v : string) (r : casbinRule) : casbinRule :=
  match i with
  | 0 => mkRule (ID r) (Ptype r) v (V1 r) (V2 r) (V3 r) (V4 r) (V5 r)
  | 1 => mkRule (ID r) (Ptype r) (V0 r) v (V2 r) (V3 r) (V4 r) (V5 r)
  | 2 => mkRule (ID r) (Ptype r) (V0 r) (V1 r) v (V3 r) (V4 r) (V5 r)
  | 3 => mkRule (ID r) (Ptype r) (V0 r) (V1 r) (V2 r) v (V4 r) (V5 r)
  | 4 => mkRule (ID r) (Ptype r) (V0 r) (V1 r) (V2 r) (V3 r) v (V5 r)
  | 5 => mkRule (ID r) (Ptype r) (V0 r) (V1 r) (V2 r) (V3 r) (V4 r) v
  | _ => r
  end.

(** The body of [for i, v := range rule { if i >= len(vs) { break }; *vs[i] = v }]. *)
Fixpoint lineToRule_loop (i : nat) (rule : list string) (r : casbinRule) : casbinRule :=
  match rule with
  | [] => r
  | v :: rest =>
      if (6 <=? i)%nat then r else lineToRule_loop (S i) rest (setV i v r)
  end.

(** [lineToRule] converts a ptype + rule slice to a [casbinRule] row. *)
Definition lineToRule (ptype : string) (rule : list string) : casbinRule :=
  lineToRule_loop 0 rule (zeroRule ptype).

(** The body of [for _, v := range [V0..V5] { if v == "" { break }; parts = append(parts, v) }]. *)
Fixpoint ruleToLine_loop (vs : list string) (parts : list string) : list string :=
  match vs with
  | [] => parts
  | v :: rest =>
      if isEmpty v then parts else ruleToLine_loop rest (parts ++ [v])
  end.

(** The [parts] slice [ruleToLine] joins. *)
Definition ruleParts (rule : casbinRule) : list string :=
  ruleToLine_loop [V0 rule; V1 rule; V2 rule; V3 rule; V4 rule; V5 rule] [Ptype rule].

(** [ruleToLine] converts a [casbinRule] row to a casbin policy line string. *)
Definition ruleToLine (rule : casbinRule) : string :=
  Join (ruleParts rule) ", ".

End Gorm.

(** * Values and errors *)

(** Go's [any] as it occurs in configuration maps, pipeline contexts and
    step outputs. *)
Inductive any : Type :=
| ANil
| AStr (s : string)
| ABool (b : bool)
| AInt (n : nat)
| AStrSlice (l : list string)       (* []string *)
| ASlice (l : list any)             (* []any *)
| ARows (l : list (list string))    (* [][]string *)
| AMap (m : list (string * any)).   (* map[string]any, as its entries *)

(** The Go [error] values the modelled code can return.  A wrapped error
    ([fmt.Errorf("...: %w", err)]) keeps the error it wraps. *)
Inductive Error : Type :=
| ErrNotInitialized (module : string)        (* "enforcer not initialized" *)
| ErrAdapterPathRequired (module : string)
| ErrUnknownAdapterType (module ty : string)
| ErrDSNRequired (module : string)
| ErrUnsupportedDriver (module driver : string)
| ErrParseModel                               (* model.NewModelFromString failed *)
| ErrStoreFault                               (* the database or file system failed *)
| ErrUniqueIndex                              (* unique_index violated *)
| ErrTableExists                              (* CREATE TABLE on a table that exists *)
| ErrMissingWhere                             (* gorm.ErrMissingWhereClause *)
| ErrGroupingShape                            (* a role row shorter than the role definition *)
| ErrNoSuchFile (path : string)
| ErrInvalidRequestSize
| ErrInvalidPolicySize
| ErrPolicyLine (line : string)
| ErrNotImplemented
| ErrTemplate
| ErrModuleNotFound (step module : string)
| ErrObjectRequired (step : string)
| ErrActionRequired (step : string)
| ErrRoleAction (step v : string)             (* action must be "add" or "remove" *)
| ErrAssignmentsRequired (step : string)
| ErrNotStringSlice
| ErrElementNotString (i : nat)
| ErrAssignmentShape (step : string) (i : nat) (row : list string)
| ErrWrap (context : string) (cause : Error).

(** Go's [(bool, error)] result. *)
Definition BoolErr : Type := (bool * option Error)%type.

(** * The policy model and matching engine *)

Module casbin.

(** Modelled from the spec: the matching engine is the external casbin
    library; only its callers are part of this repository.  A model has a
    request shape and a policy shape (field counts) and a matcher, a boolean
    expression over request fields, policy fields, literals, the role
    predicate [g] and named external predicates (path and wildcard matchers,
    given as functions).  The effect expression is the one every model of the
    repository uses: at least one matching row must allow. *)
Inductive operand : Type :=
| RField (i : nat)          (* r.sub, r.obj, r.act, ... by position *)
| PField (i : nat)          (* p.sub, p.obj, p.act, ... by position *)
| Lit (s : string).

(** Modelled from the spec: the matcher expression, a boolean formula over
    request fields, policy fields and role predicates; predicates of the
    external library are referenced by the function they compute. *)
Inductive mexpr : Type :=
| MConst (b : bool)
| MEq (a b : operand)
| MRole (a b : operand)                                  (* g(a, b) *)
| MFunc (f : string -> string -> bool) (a b : operand)   (* keyMatch2(a, b), ... *)
| MAnd (x y : mexpr)
| MOr (x y : mexpr)
| MNot (x : mexpr).

(** Modelled from the spec: the parsed model, as far as enforcement reads
    it: the sizes of the request shape and of the policy shape, and the
    matcher. *)
Record Model : Type := mkModel {
  r_tokens : nat;      (* number of request fields *)
  p_tokens : nat;      (* number of policy fields *)
  matcher  : mexpr
}.

(** Modelled from the spec: the in-memory rule set of the engine, rows of
    the "p" kind and rows of the "g" kind. *)
Record Rules : Type := mkRules {
  pRules : list (list string);
  gRules : list (list string)
}.

(** Modelled from the spec: the rule set before any rule is loaded. *)
Definition noRules : Rules := mkRules [] [].

(** Modelled from the spec: two rows are the same rule when they agree
    element-wise. *)
Definition rowEq (a b : list string) : bool :=
  bool_decide (a = b).

(** Modelled from the spec: whether a rule exists in a row list. *)
Definition hasRule (rows : list (list string)) (rule : list string) : bool :=
  existsb (rowEq rule) rows.

(** Modelled from the spec: a role relation is a pair (member, role), and
    chains compose transitively.  [hasLink n g a b] follows at most [n]
    edges from [a]. *)
Fixpoint hasLink (fuel : nat) (g : list (list string)) (a b : string) : bool :=
  String.eqb a b ||
  match fuel with
  | 0 => false
  | S n =>
      existsb (fun edge =>
                 match edge with
                 | member :: role :: _ => String.eqb member a && hasLink n g role b
                 | _ => false
                 end) g
  end.

(** Modelled from the spec: the role predicate [g(a, b)] over the current
    role rows; a chain without repetition has at most as many edges as there
    are rows. *)
Definition roleLink (g : list (list string)) (a b : string) : bool :=
  hasLink (length g) g a b.

(** Modelled from the spec: the value of a request field, a policy field or
    a literal in a matcher. *)
Definition operandVal (rvals pvals : list string) (o : operand) : string :=
  match o with
  | RField i => nth i rvals ""
  | PField i => nth i pvals ""
  | Lit s => s
  end.

(** Modelled from the spec: the matcher is evaluated per candidate row;
    fields are compared by exact string equality unless the expression
    invokes a predicate. *)
Fixpoint evalMatcher (g : list (list string)) (rvals pvals : list string)
         (e : mexpr) : bool :=
  match e with
  | MConst b => b
  | MEq a b => String.eqb (operandVal rvals pvals a) (operandVal rvals pvals b)
  | MRole a b => roleLink g (operandVal rvals pvals a) (operandVal rvals pvals b)
  | MFunc f a b => f (operandVal rvals pvals a) (operandVal rvals pvals b)
  | MAnd x y => evalMatcher g rvals pvals x && evalMatcher g rvals pvals y
  | MOr x y => evalMatcher g rvals pvals x || evalMatcher g rvals pvals y
  | MNot x => negb (evalMatcher g rvals pvals x)
  end.

(** Modelled from the spec: whether one policy row satisfies the matcher
    for a request, under the role rows of the rule set. *)
Definition rowMatches (md : Model) (rs : Rules) (rvals row : list string) : bool :=
  evalMatcher (gRules rs) rvals row (matcher md).

(** Modelled from the spec: the rows of the "p" kind are visited in order; a
    row whose field count differs from the policy shape is an error; the
    first matching row allows. *)
Fixpoint enforceRows (md : Model) (rs : Rules) (rvals : list string)
         (rows : list (list string)) : BoolErr :=
  match rows with
  | [] => (false, None)
  | row :: rest =>
      if negb (length row =? p_tokens md)%nat then (false, Some ErrInvalidPolicySize)
      else if rowMatches md rs rvals row then (true, None)
      else enforceRows md rs rvals rest
  end.

(** Modelled from the spec: [Enforce(requestFields...)] of the engine. *)
Definition enforce (md : Model) (rs : Rules) (rvals : list string) : BoolErr :=
  if negb (length rvals =? r_tokens md)%nat then (false, Some ErrInvalidRequestSize)
  else enforceRows md rs rvals (pRules rs).

(** Modelled from the spec: the mutation primitives on the in-memory rule
    set.  Adding a row that exists leaves the set unchanged; removing takes
    the row out. *)
Definition addRow (rows : list (list string)) (rule : list string) : list (list string) :=
  if hasRule rows rule then rows else rows ++ [rule].

(** Modelled from the spec: removal takes the rule out of the row list. *)
Definition removeRowAll (rows : list (list string)) (rule : list string) : list (list string) :=
  filter (fun r => r <> rule) rows.

(** Modelled from the spec: the mutation primitives by rule kind, "g" for
    role rows and "p" otherwise. *)
Definition modelAddPolicy (sec : string) (rule : list string) (rs : Rules) : Rules :=
  if String.eqb sec "g" then mkRules (pRules rs) (addRow (gRules rs) rule)
  else mkRules (addRow (pRules rs) rule) (gRules rs).

(** Modelled from the spec: removal by rule kind. *)
Definition modelRemovePolicy (sec : string) (rule : list string) (rs : Rules) : Rules :=
  if String.eqb sec "g" then mkRules (pRules rs) (removeRowAll (gRules rs) rule)
  else mkRules (removeRowAll (pRules rs) rule) (gRules rs).

(** Modelled from the spec: existence by rule kind. *)
Definition modelHasPolicy (sec : string) (rule : list string) (rs : Rules) : bool :=
  if String.eqb sec "g" then hasRule (gRules rs) rule else hasRule (pRules rs) rule.

End casbin.

(** A Go result [(T, error)] in which exactly one side is meaningful. *)
Inductive result (A : Type) : Type :=
| Ok (a : A)
| Fail (e : Error).
Arguments Ok {A} a.
Arguments Fail {A} e.

(** What a call leaves behind when the Go runtime may stop it: a value, or
    a panic (here always an index out of range). *)
Inductive outcome (A : Type) : Type :=
| Returned (a : A)
| Panicked.
Arguments Returned {A} a.
Arguments Panicked {A}.

(** Go's [int] on the 64-bit platforms the plugin is built for: a sum wraps
    around. *)
Definition wrapInt (z : Z) : Z := ((z + 2 ^ 63) mod 2 ^ 64 - 2 ^ 63)%Z.

(** [fieldIndex + i], the position the filter loops of the adapters compute
    for the [i]-th filter value. *)
Definition position (fieldIndex : Z) (i : nat) : Z := wrapInt (fieldIndex + Z.of_nat i).

(** * The outside world: database, files and the trace of calls *)

(** The database a DSN names, as far as the adapter uses it: whether the
    [casbin_rule] table exists, and its rows.  Every statement sent to the
    database consumes one entry of [db_faults]; [true] makes that statement
    fail (connection lost, disk full, ...).  An empty schedule means no
    further fault.  The database outlives a connection, as a file or a
    server database does.  An adapter exists only once [AutoMigrate] has
    succeeded and nothing drops the table, so the statements of an adapter
    find their table and do not consult [db_table]. *)
Record DB : Type := mkDB {
  db_rows   : list Gorm.casbinRule;
  db_faults : list bool;
  db_table  : bool
}.

(** Calls that cross a component boundary, in the order they happen. *)
Inductive Event : Type :=
| EvOpenDB (driver dsn : string)                 (* gorm.Open *)
| EvAutoMigrate                                  (* db.AutoMigrate *)
| EvLoadPolicy                                   (* adapter.LoadPolicy *)
| EvSavePolicy (p g : list (list string))        (* adapter.SavePolicy, with the model's rows *)
| EvAddPolicy (sec : string) (rule : list string)     (* adapter.AddPolicy *)
| EvRemovePolicy (sec : string) (rule : list string)  (* adapter.RemovePolicy *)
| EvGetEnforcer (module : string)                (* registry.GetEnforcer *)
| EvEnforce (module sub obj act : string).       (* enforcer.Enforce *)

Record World : Type := mkWorld {
  w_db    : DB;
  w_files : gmap string (list string);   (* path -> lines of the policy file *)
  w_trace : list Event
}.

(** Effectful code is a function from the world to a value and the next world. *)
Definition M (A : Type) : Type := World -> A * World.

Definition ret {A} (a : A) : M A := fun w => (a, w).
Definition bind {A B} (c : M A) (k : A -> M B) : M B :=
  fun w => let (a, w') := c w in k a w'.

Notation "x <- c ; k" := (bind c (fun x => k))
  (at level 20, c at level 100, k at level 200, only parsing).
Notation "' pat <- c ; k" := (bind c (fun x => match x with pat => k end))
  (at level 20, pat pattern, c at level 100, k at level 200, only parsing).

Definition emit (ev : Event) : M unit :=
  fun w => (tt, mkWorld (w_db w) (w_files w) (w_trace w ++ [ev])).

Definition getDB : M DB := fun w => (w_db w, w).
Definition putDB (db : DB) : M unit :=
  fun w => (tt, mkWorld db (w_files w) (w_trace w)).
Definition readFile (path : string) : M (option (list string)) :=
  fun w => (w_files w !! path, w).
Definition writeFile (path : string) (lines : list string) : M unit :=
  fun w => (tt, mkWorld (w_db w) (<[path := lines]> (w_files w)) (w_trace w)).

(** One statement reaches the database: [true] when it fails. *)
Definition dbStatement : M bool :=
  fun w =>
    match db_faults (w_db w) with
    | [] => (false, w)
    | f :: fs => (f, mkWorld (mkDB (db_rows (w_db w)) fs (db_table (w_db w)))
                             (w_files w) (w_trace w))
    end.

(** * Policy lines *)

Module persist.

(** Modelled from the spec: the blank that may surround a field of a line. *)
Definition isSpace (c : ascii) : bool := Ascii.eqb c " "%char.

(** Modelled from the spec: a field without its leading blanks. *)
Fixpoint trimLeft (s : string) : string :=
  match s with
  | String c rest => if isSpace c then trimLeft rest else s
  | EmptyString => EmptyString
  end.

(** Modelled from the spec: string reversal, to trim the far end. *)
Fixpoint revString (s acc : string) : string :=
  match s with
  | EmptyString => acc
  | String c rest => revString rest (String c acc)
  end.

(** Modelled from the spec: a field without the blanks around it. *)
Definition trim (s : string) : string :=
  revString (trimLeft (revString (trimLeft s) "")) "".

(** Modelled from the spec: the fields of a line, split at its commas. *)
Fixpoint splitComma (s : string) : list string :=
  match s with
  | EmptyString => [""]
  | String c rest =>
      if Ascii.eqb c ","%char then "" :: splitComma rest
      else match splitComma rest with
           | [] => [String c ""]
           | t :: ts => String c t :: ts
           end
  end.

(** Modelled from the spec: the flat line format is
    [ruleKindName, field0, field1, ...]; the loader of the external library
    splits a line at commas, trims the fields, and adds the row to the rule
    set of its kind unless it is there already.  Empty lines and comment
    lines are skipped; a line of another kind than "p" or "g" is refused. *)
Definition LoadPolicyLine (line : string) (rs : casbin.Rules) : option Error * casbin.Rules :=
  if isEmpty line || String.prefix "#" line then (None, rs)
  else match map trim (splitComma line) with
       | key :: rule =>
           if String.eqb key "p" then (None, casbin.modelAddPolicy "p" rule rs)
           else if String.eqb key "g" then (None, casbin.modelAddPolicy "g" rule rs)
           else (Some (ErrPolicyLine line), rs)
       | [] => (Some (ErrPolicyLine line), rs)
       end.

End persist.

(** * The in-memory adapter *)

Module MemAdapter.

(** [inMemoryAdapter]: two ordered sequences of rows.  Its lock is not
    modelled; every operation below runs to completion. *)
Record inMemoryAdapter : Type := mkMem {
  policies        : list (list string);
  roleAssignments : list (list string)
}.

(** The constructor copies both slices, so the configuration is never
    written through the adapter. *)
Definition newInMemoryAdapter (p r : list (list string)) : inMemoryAdapter :=
  mkMem p r.

(** [sliceEqual] reports whether a and b have identical elements. *)
Fixpoint sliceEqual (a b : list string) : bool :=
  match a, b with
  | [], [] => true
  | x :: a', y :: b' => String.eqb x y && sliceEqual a' b'
  | _, _ => false
  end.

(** [removeRow] removes the first row that equals target. *)
Fixpoint removeRow (rows : list (list string)) (target : list string) : list (list string) :=
  match rows with
  | [] => []
  | row :: rest => if sliceEqual row target then rest else row :: removeRow rest target
  end.

(** The loop of [matchesFilter] from the [i]-th filter value on: a position
    at or past the end of the row ends it with false; a non-empty value is
    compared with [row[idx]], which panics at a negative position. *)
Fixpoint matchesFrom (row : list string) (fieldIndex : Z) (i : nat) (values : list string)
  : outcome bool :=
  match values with
  | [] => Returned true
  | v :: vs =>
      let idx := position fieldIndex i in
      if (Z.of_nat (length row) <=? idx)%Z then Returned false
      else if negb (isEmpty v) then
             if (idx <? 0)%Z then Panicked
             else if negb (String.eqb (nth (Z.to_nat idx) row "") v) then Returned false
             else matchesFrom row fieldIndex (S i) vs
           else matchesFrom row fieldIndex (S i) vs
  end.

(** [matchesFilter]: row[fieldIndex : fieldIndex+len(values)] == values,
    empty values being wildcards. *)
Definition matchesFilter (row : list string) (fieldIndex : Z) (values : list string)
  : outcome bool :=
  matchesFrom row fieldIndex 0 values.

(** The loop of [RemoveFilteredPolicy] over one of the two sequences: the
    rows the filter does not match are kept, in order; a panic of
    [matchesFilter] ends the loop. *)
Fixpoint keepUnmatched (rows : list (list string)) (fieldIndex : Z) (values : list string)
  : outcome (list (list string)) :=
  match rows with
  | [] => Returned []
  | row :: rest =>
      match matchesFilter row fieldIndex values with
      | Panicked => Panicked
      | Returned matched =>
          match keepUnmatched rest fieldIndex values with
          | Panicked => Panicked
          | Returned kept => Returned (if (matched : bool) then kept else row :: kept)
          end
      end
  end.

(** The loop of [LoadPolicy] over one of the two sequences: each row is
    rendered as a line and handed to the line loader; the first error stops
    the load. *)
Fixpoint loadLines (kind : string) (rows : list (list string)) (rs : casbin.Rules)
  : option Error * casbin.Rules :=
  match rows with
  | [] => (None, rs)
  | p :: rest =>
      let line := (kind ++ ", " ++ Join p ", ")%string in
      match persist.LoadPolicyLine line rs with
      | (Some err, rs') => (Some err, rs')
      | (None, rs') => loadLines kind rest rs'
      end
  end.

Definition LoadPolicy (a : inMemoryAdapter) (rs : casbin.Rules) : option Error * casbin.Rules :=
  match loadLines "p" (policies a) rs with
  | (Some err, rs') => (Some err, rs')
  | (None, rs') => loadLines "g" (roleAssignments a) rs'
  end.

(** [SavePolicy] replaces both sequences with what the model holds. *)
Definition SavePolicy (a : inMemoryAdapter) (rs : casbin.Rules) : option Error * inMemoryAdapter :=
  (None, mkMem (casbin.pRules rs) (casbin.gRules rs)).

Definition AddPolicy (a : inMemoryAdapter) (sec : string) (rule : list string)
  : option Error * inMemoryAdapter :=
  if String.eqb sec "g" then (None, mkMem (policies a) (roleAssignments a ++ [rule]))
  else (None, mkMem (policies a ++ [rule]) (roleAssignments a)).

Definition RemovePolicy (a : inMemoryAdapter) (sec : string) (rule : list string)
  : option Error * inMemoryAdapter :=
  if String.eqb sec "g" then (None, mkMem (policies a) (removeRow (roleAssignments a) rule))
  else (None, mkMem (removeRow (policies a) rule) (roleAssignments a)).

(** [RemoveFilteredPolicy] removes rows matching the prefix filter; a panic
    leaves the adapter as it was. *)
Definition RemoveFilteredPolicy (a : inMemoryAdapter) (sec : string) (fieldIndex : Z)
           (fieldValues : list string) : outcome (option Error * inMemoryAdapter) :=
  if String.eqb sec "g" then
    match keepUnmatched (roleAssignments a) fieldIndex fieldValues with
    | Panicked => Panicked
    | Returned kept => Returned (None, mkMem (policies a) kept)
    end
  else
    match keepUnmatched (policies a) fieldIndex fieldValues with
    | Panicked => Panicked
    | Returned kept => Returned (None, mkMem kept (roleAssignments a))
    end.

End MemAdapter.

(** * The relational adapter over the database *)

Module GormAdapter.
Import Gorm.

Record gormAdapter : Type := mkGorm { tableName : string }.

(** The dialectors [buildGORMAdapter] opens a connection with: the
    postgres and mysql drivers of gorm, and the repository's own
    [sqliteDialector]. *)
Inductive Dialector : Type :=
| Postgres
| MySQL
| SQLite.

(** The unique composite index over (ptype, v0..v5). *)
Definition sameKey (a b : casbinRule) : bool :=
  String.eqb (Ptype a) (Ptype b) && String.eqb (V0 a) (V0 b) && String.eqb (V1 a) (V1 b)
  && String.eqb (V2 a) (V2 b) && String.eqb (V3 a) (V3 b) && String.eqb (V4 a) (V4 b)
  && String.eqb (V5 a) (V5 b).

Fixpoint uniqueKeys (rows : list casbinRule) : bool :=
  match rows with
  | [] => true
  | r :: rest => negb (existsb (sameKey r) rest) && uniqueKeys rest
  end.

(** [db.Where(&r)]: a struct condition constrains the non-zero fields only. *)
Definition whereField (cond actual : string) : bool :=
  isEmpty cond || String.eqb cond actual.

Definition whereMatches (r row : casbinRule) : bool :=
  whereField (Ptype r) (Ptype row) && whereField (V0 r) (V0 row) && whereField (V1 r) (V1 row)
  && whereField (V2 r) (V2 row) && whereField (V3 r) (V3 row) && whereField (V4 r) (V4 row)
  && whereField (V5 r) (V5 row).

(** [db.Find(&rules)]. *)
Definition dbFind : M (result (list casbinRule)) :=
  failed <- dbStatement ;
  if (failed : bool) then ret (Fail ErrStoreFault)
  else (db <- getDB ; ret (Ok (db_rows db))).

(** [db.Session(AllowGlobalUpdate).Delete(&casbinRule{})]: delete every row. *)
Definition dbDeleteAll : M (option Error) :=
  failed <- dbStatement ;
  if (failed : bool) then ret (Some ErrStoreFault)
  else (db <- getDB ; _ <- putDB (mkDB [] (db_faults db) (db_table db)) ; ret None).

(** [db.Create] / [db.CreateInBatches]: the insert is refused as a whole when
    it would break the unique index. *)
Definition dbInsert (rules : list casbinRule) : M (option Error) :=
  failed <- dbStatement ;
  if (failed : bool) then ret (Some ErrStoreFault)
  else (db <- getDB ;
        if uniqueKeys (db_rows db ++ rules)
        then (_ <- putDB (mkDB (db_rows db ++ rules) (db_faults db) (db_table db)) ; ret None)
        else ret (Some ErrUniqueIndex)).

(** A struct condition whose columns are all zero values adds no condition
    to the query. *)
Definition noCondition (r : casbinRule) : bool :=
  isEmpty (Ptype r) && isEmpty (V0 r) && isEmpty (V1 r) && isEmpty (V2 r)
  && isEmpty (V3 r) && isEmpty (V4 r) && isEmpty (V5 r).

(** [db.Where(&r).Delete(&casbinRule{})].  A delete without any condition
    is refused by gorm before a statement is sent. *)
Definition dbDeleteWhere (r : casbinRule) : M (option Error) :=
  if noCondition r then ret (Some ErrMissingWhere)
  else
    (failed <- dbStatement ;
     if (failed : bool) then ret (Some ErrStoreFault)
     else (db <- getDB ;
           _ <- putDB (mkDB (filter (fun row => whereMatches r row = false) (db_rows db))
                            (db_faults db) (db_table db)) ;
           ret None)).

(** [db.AutoMigrate(&casbinRule{})] creates the table when the migrator
    does not find it and adjusts it otherwise.  [sqliteDialector.Migrator]
    returns gorm's generic migrator, which looks a table up in
    [information_schema]; SQLite has none, so the look-up finds nothing and
    the table is created again, which the database refuses when it
    exists. *)
Definition AutoMigrate (db : Dialector) : M (option Error) :=
  _ <- emit EvAutoMigrate ;
  failed <- dbStatement ;
  if (failed : bool) then ret (Some ErrStoreFault)
  else (d <- getDB ;
        if db_table d then
          match db with
          | SQLite => ret (Some ErrTableExists)
          | _ => ret None
          end
        else (_ <- putDB (mkDB (db_rows d) (db_faults d) true) ; ret None)).

(** [newGORMAdapter] auto-migrates the table and returns an adapter. *)
Definition newGORMAdapter (db : Dialector) (table : string) : M (result gormAdapter) :=
  let table := if isEmpty table then "casbin_rule" else table in
  migrated <- AutoMigrate db ;
  match migrated with
  | Some err => ret (Fail (ErrWrap "gorm casbin adapter: migrate" err))
  | None => ret (Ok (mkGorm table))
  end.

(** The loop of [LoadPolicy]: the line loader's error is dropped. *)
Definition loadRows (rows : list casbinRule) (rs : casbin.Rules) : casbin.Rules :=
  fold_left (fun acc rule => snd (persist.LoadPolicyLine (ruleToLine rule) acc)) rows rs.

Definition LoadPolicy (a : gormAdapter) (rs : casbin.Rules) : M (option Error * casbin.Rules) :=
  found <- dbFind ;
  match found with
  | Fail err => ret (Some err, rs)
  | Ok rows => ret (None, loadRows rows rs)
  end.

(** [SavePolicy]: delete everything, then insert the model's rows. *)
Definition SavePolicy (a : gormAdapter) (rs : casbin.Rules) : M (option Error) :=
  deleted <- dbDeleteAll ;
  match deleted with
  | Some err => ret (Some err)
  | None =>
      let rules := map (lineToRule "p") (casbin.pRules rs)
                   ++ map (lineToRule "g") (casbin.gRules rs) in
      if (0 <? length rules)%nat then dbInsert rules else ret None
  end.

Definition AddPolicy (a : gormAdapter) (sec ptype : string) (rule : list string) : M (option Error) :=
  dbInsert [lineToRule ptype rule].

Definition RemovePolicy (a : gormAdapter) (sec ptype : string) (rule : list string) : M (option Error) :=
  dbDeleteWhere (lineToRule ptype rule).

End GormAdapter.

(** * The file adapter *)

Module FileAdapter.

(** Modelled from the spec: the file variant belongs to the external
    library.  It is keyed by a path, reads the lines of the file through the
    line loader, writes the rule set back as lines
    [ruleKindName, field0, field1, ...], and has no incremental add or
    remove. *)
Fixpoint loadFileLines (lines : list string) (rs : casbin.Rules) : option Error * casbin.Rules :=
  match lines with
  | [] => (None, rs)
  | line :: rest =>
      match persist.LoadPolicyLine (persist.trim line) rs with
      | (Some err, rs') => (Some err, rs')
      | (None, rs') => loadFileLines rest rs'
      end
  end.

Definition LoadPolicy (path : string) (rs : casbin.Rules) : M (option Error * casbin.Rules) :=
  content <- readFile path ;
  match content with
  | None => ret (Some (ErrNoSuchFile path), rs)
  | Some lines => ret (loadFileLines lines rs)
  end.

Definition ruleLine (kind : string) (rule : list string) : string :=
  Join (kind :: rule) ", ".

Definition SavePolicy (path : string) (rs : casbin.Rules) : M (option Error) :=
  _ <- writeFile path (map (ruleLine "p") (casbin.pRules rs)
                       ++ map (ruleLine "g") (casbin.gRules rs)) ;
  ret None.

End FileAdapter.

(** * Library functions taken as given *)

(** A compiled [*template.Template], by what executing it yields. *)
Definition Template : Type := gmap string any -> result string.

(** Functions of the Go standard library and of casbin that the modelled
    code calls and whose results are not constrained here. *)
Class GoLibs : Type := {
  NewModelFromString : string -> option casbin.Model;  (* model.NewModelFromString *)
  ToLower            : string -> string;               (* strings.ToLower *)
  ParseTemplate      : string -> option Template;      (* template.New(..).Parse *)
  Quote              : string -> string                (* the %q verb of fmt *)
}.

(** * The enforcer: model, rule set and adapter *)

(** The three implementations of [persist.Adapter] the module can build. *)
Inductive persistAdapter : Type :=
| AMem (a : MemAdapter.inMemoryAdapter)
| AFile (path : string)
| AGorm (a : GormAdapter.gormAdapter).

Definition adapterLoadPolicy (ad : persistAdapter) (rs : casbin.Rules)
  : M (option Error * casbin.Rules) :=
  _ <- emit EvLoadPolicy ;
  match ad with
  | AMem a => ret (MemAdapter.LoadPolicy a rs)
  | AFile path => FileAdapter.LoadPolicy path rs
  | AGorm a => GormAdapter.LoadPolicy a rs
  end.

Definition adapterSavePolicy (ad : persistAdapter) (rs : casbin.Rules)
  : M (option Error * persistAdapter) :=
  _ <- emit (EvSavePolicy (casbin.pRules rs) (casbin.gRules rs)) ;
  match ad with
  | AMem a => let (err, a') := MemAdapter.SavePolicy a rs in ret (err, AMem a')
  | AFile path => err <- FileAdapter.SavePolicy path rs ; ret (err, ad)
  | AGorm a => err <- GormAdapter.SavePolicy a rs ; ret (err, ad)
  end.

Definition adapterAddPolicy (ad : persistAdapter) (sec ptype : string) (rule : list string)
  : M (option Error * persistAdapter) :=
  _ <- emit (EvAddPolicy sec rule) ;
  match ad with
  | AMem a => let (err, a') := MemAdapter.AddPolicy a sec rule in ret (err, AMem a')
  | AFile path => ret (Some ErrNotImplemented, ad)
  | AGorm a => err <- GormAdapter.AddPolicy a sec ptype rule ; ret (err, ad)
  end.

Definition adapterRemovePolicy (ad : persistAdapter) (sec ptype : string) (rule : list string)
  : M (option Error * persistAdapter) :=
  _ <- emit (EvRemovePolicy sec rule) ;
  match ad with
  | AMem a => let (err, a') := MemAdapter.RemovePolicy a sec rule in ret (err, AMem a')
  | AFile path => ret (Some ErrNotImplemented, ad)
  | AGorm a => err <- GormAdapter.RemovePolicy a sec ptype rule ; ret (err, ad)
  end.

Module enforcer.

Record Enforcer : Type := mkEnforcer {
  e_model   : casbin.Model;
  e_rules   : casbin.Rules;
  e_adapter : persistAdapter
}.

(** Modelled from the spec: constructing the engine loads the existing
    rules from the store into an empty rule set; a failed load fails the
    construction. *)
Definition NewEnforcer (md : casbin.Model) (ad : persistAdapter) : M (result Enforcer) :=
  ' (err, rs) <- adapterLoadPolicy ad casbin.noRules ;
  match err with
  | Some e => ret (Fail e)
  | None => ret (Ok (mkEnforcer md rs ad))
  end.

Definition Enforce (e : Enforcer) (rvals : list string) : BoolErr :=
  casbin.enforce (e_model e) (e_rules e) rvals.

(** An adapter without incremental operations answers "not implemented",
    which the engine does not treat as a failure. *)
Definition ignorable (err : option Error) : option Error :=
  match err with
  | Some ErrNotImplemented => None
  | other => other
  end.

(** Modelled from the spec: a role row relates a member to a role.  The
    library rebuilds its role links from a row of the "g" kind right after
    the row has been added or removed, and refuses a row with fewer fields
    than the role definition [g = _, _] has; the change to the rule set has
    happened by then. *)
Definition roleLinksError (sec : string) (rule : list string) : option Error :=
  if String.eqb sec "g" && (length rule <? 2)%nat then Some ErrGroupingShape else None.

(** Modelled from the spec: adding a rule reports whether the in-memory set
    changed.  A rule that exists is left alone; otherwise the adapter's
    [AddPolicy] is called first (the in-memory adapter documents this call)
    and the row joins the rule set only when the adapter accepted it.  A
    role row the role links refuse is reported with their error, beside
    [true]. *)
Definition addPolicy (sec : string) (e : Enforcer) (rule : list string) : M (BoolErr * Enforcer) :=
  if casbin.modelHasPolicy sec rule (e_rules e) then ret ((false, None), e)
  else
    ' (err, ad) <- adapterAddPolicy (e_adapter e) sec sec rule ;
    match ignorable err with
    | Some x => ret ((false, Some x), mkEnforcer (e_model e) (e_rules e) ad)
    | None => ret ((true, roleLinksError sec rule),
                   mkEnforcer (e_model e) (casbin.modelAddPolicy sec rule (e_rules e)) ad)
    end.

(** Modelled from the spec: removing a rule calls the adapter's
    [RemovePolicy], then takes the row out of the rule set and reports
    whether it was there; a role row that was there and that the role links
    refuse is reported with their error. *)
Definition removePolicy (sec : string) (e : Enforcer) (rule : list string) : M (BoolErr * Enforcer) :=
  ' (err, ad) <- adapterRemovePolicy (e_adapter e) sec sec rule ;
  match ignorable err with
  | Some x => ret ((false, Some x), mkEnforcer (e_model e) (e_rules e) ad)
  | None => ret ((casbin.modelHasPolicy sec rule (e_rules e),
                  if casbin.modelHasPolicy sec rule (e_rules e) then roleLinksError sec rule
                  else None),
                 mkEnforcer (e_model e) (casbin.modelRemovePolicy sec rule (e_rules e)) ad)
  end.

Definition AddPolicy := addPolicy "p".
Definition RemovePolicy := removePolicy "p".
Definition AddGroupingPolicy := addPolicy "g".
Definition RemoveGroupingPolicy := removePolicy "g".

(** [SavePolicy] hands the whole current rule set to the adapter. *)
Definition SavePolicy (e : Enforcer) : M (option Error * Enforcer) :=
  ' (err, ad) <- adapterSavePolicy (e_adapter e) (e_rules e) ;
  ret (err, mkEnforcer (e_model e) (e_rules e) ad).

End enforcer.

(** * The enforcement module *)

Module Authz.
Import enforcer.

(** [adapterConfig] describes the storage backend for policies. *)
Record adapterConfig : Type := mkAdapterConfig {
  Type_     : string;   (* "memory" (default), "file", or "gorm" *)
  Path      : string;
  Driver    : string;
  DSN       : string;
  TableName : string
}.

(** [casbinConfig]; the watcher section drives a background goroutine and
    is left out. *)
Record casbinConfig : Type := mkConfig {
  Model           : string;
  Policies        : list (list string);
  RoleAssignments : list (list string);
  Adapter         : adapterConfig
}.

(** [CasbinModule]: the enforcer is [nil] until [Init] succeeds. *)
Record CasbinModule : Type := mkModule {
  name      : string;
  config    : casbinConfig;
  enforcer_ : option Enforcer
}.

Section WithLibs.
Context `{GoLibs}.

(** [gorm.Open(dialector, cfg)]: connects to the database the DSN names,
    which is the database of the world.  A DSN that names a private
    in-memory database, new at every open, has no such database and is not
    covered. *)
Definition gormOpen (driver dsn : string) : M (option Error) :=
  _ <- emit (EvOpenDB driver dsn) ;
  failed <- dbStatement ;
  if (failed : bool) then ret (Some ErrStoreFault) else ret None.

(** The dialector the driver switch of [buildGORMAdapter] picks for a
    lower-cased driver name it has a case for. *)
Definition dialectorOf (driver : string) : GormAdapter.Dialector :=
  if String.eqb driver "postgres" || String.eqb driver "postgresql" then GormAdapter.Postgres
  else if String.eqb driver "mysql" then GormAdapter.MySQL
  else GormAdapter.SQLite.

(** [buildGORMAdapter] opens a GORM connection and returns the adapter. *)
Definition buildGORMAdapter (m : CasbinModule) : M (result persistAdapter) :=
  let cfg := Adapter (config m) in
  if isEmpty (DSN cfg) then ret (Fail (ErrDSNRequired (name m)))
  else
    let driver := ToLower (Driver cfg) in
    if String.eqb driver "postgres" || String.eqb driver "postgresql"
       || String.eqb driver "mysql"
       || String.eqb driver "sqlite3" || String.eqb driver "sqlite"
    then
      opened <- gormOpen driver (DSN cfg) ;
      match opened with
      | Some err => ret (Fail (ErrWrap "open gorm db" err))
      | None =>
          made <- GormAdapter.newGORMAdapter (dialectorOf driver) (TableName cfg) ;
          match made with
          | Fail err => ret (Fail (ErrWrap "create gorm adapter" err))
          | Ok a => ret (Ok (AGorm a))
          end
      end
    else ret (Fail (ErrUnsupportedDriver (name m) (Driver cfg))).

(** [buildAdapter] returns a [persist.Adapter] for the configured backend. *)
Definition buildAdapter (m : CasbinModule) : M (result persistAdapter) :=
  let ty := ToLower (Type_ (Adapter (config m))) in
  if String.eqb ty "" || String.eqb ty "memory" then
    ret (Ok (AMem (MemAdapter.newInMemoryAdapter (Policies (config m))
                                                  (RoleAssignments (config m)))))
  else if String.eqb ty "file" then
    if isEmpty (Path (Adapter (config m))) then ret (Fail (ErrAdapterPathRequired (name m)))
    else ret (Ok (AFile (Path (Adapter (config m)))))
  else if String.eqb ty "gorm" then buildGORMAdapter m
  else ret (Fail (ErrUnknownAdapterType (name m) (Type_ (Adapter (config m))))).

(** [Init] builds the Casbin enforcer from the configured adapter.  The
    module is returned as it is left: with the new enforcer on success,
    untouched on failure. *)
Definition Init (m : CasbinModule) : M (option Error * CasbinModule) :=
  match NewModelFromString (Model (config m)) with
  | None => ret (Some (ErrWrap "parse model" ErrParseModel), m)
  | Some md =>
      built <- buildAdapter m ;
      match built with
      | Fail err => ret (Some (ErrWrap "build adapter" err), m)
      | Ok adapter =>
          made <- NewEnforcer md adapter ;
          match made with
          | Fail err => ret (Some (ErrWrap "create enforcer" err), m)
          | Ok e => ret (None, mkModule (name m) (config m) (Some e))
          end
      end
  end.

End WithLibs.

(** [Enforce] checks whether sub can perform act on obj. *)
Definition Enforce (m : CasbinModule) (sub obj act : string) : M BoolErr :=
  match enforcer_ m with
  | None => ret (false, Some (ErrNotInitialized (name m)))
  | Some e =>
      _ <- emit (EvEnforce (name m) sub obj act) ;
      ret (enforcer.Enforce e [sub; obj; act])
  end.

(** The shared body of the four mutation methods, which differ in the
    engine call only: mutate, and save when the mutation reports a change. *)
Definition mutate (op : Enforcer -> list string -> M (BoolErr * Enforcer))
           (m : CasbinModule) (rule : list string) : M (BoolErr * CasbinModule) :=
  match enforcer_ m with
  | None => ret ((false, Some (ErrNotInitialized (name m))), m)
  | Some e =>
      ' (res, e1) <- op e rule ;
      match res with
      | (_, Some err) => ret ((false, Some err), mkModule (name m) (config m) (Some e1))
      | (ok, None) =>
          if (ok : bool) then
            ' (saved, e2) <- SavePolicy e1 ;
            match saved with
            | Some err => ret ((false, Some err), mkModule (name m) (config m) (Some e2))
            | None => ret ((ok, None), mkModule (name m) (config m) (Some e2))
            end
          else ret ((ok, None), mkModule (name m) (config m) (Some e1))
      end
  end.

(** [AddPolicy] adds a policy rule and saves it to the adapter. *)
Definition AddPolicy := mutate enforcer.AddPolicy.
(** [RemovePolicy] removes a policy rule and saves the adapter. *)
Definition RemovePolicy := mutate enforcer.RemovePolicy.
(** [AddGroupingPolicy] adds a role mapping and saves the adapter. *)
Definition AddGroupingPolicy := mutate enforcer.AddGroupingPolicy.
(** [RemoveGroupingPolicy] removes a role mapping and saves the adapter. *)
Definition RemoveGroupingPolicy := mutate enforcer.RemoveGroupingPolicy.

End Authz.

(** * Decision steps *)

(** [sdk.StepResult]. *)
Record StepResult : Type := mkStepResult {
  StopPipeline : bool;
  Output       : gmap string any
}.

(** [moduleRegistry.GetEnforcer]: module name to module. *)
Definition moduleRegistry : Type := string -> option Authz.CasbinModule.

(** [v, _ := config[key].(string)]: the zero value unless a string is there. *)
Definition stringAt (m : gmap string any) (key : string) : string :=
  match m !! key with
  | Some (AStr v) => v
  | _ => ""
  end.

(** [strings.Contains(s, sub)] for a non-empty [sub]. *)
Definition Contains (s sub : string) : bool :=
  match String.index 0 sub s with
  | Some _ => true
  | None => false
  end.

(** [isTemplate] reports whether s contains a Go template expression. *)
Definition isTemplate (s : string) : bool :=
  Contains s "{{" && Contains s "}}".

(** [buildTemplateData] merges all context maps; later sources overwrite
    earlier ones: triggerData < stepOutputs < current. *)
Definition buildTemplateData (triggerData : gmap string any)
           (stepOutputs : list (string * gmap string any))
           (current : gmap string any) : gmap string any :=
  current ∪ fold_left (fun data out => snd out ∪ data) stepOutputs triggerData.

(** [resolve] returns staticVal when no template is set; otherwise it
    executes the template against data. *)
Definition resolve (staticVal : string) (tmpl : option Template) (data : gmap string any)
  : result string :=
  match tmpl with
  | None => Ok staticVal
  | Some t => t data
  end.

(** [toStringSlice] converts an []any (from YAML/JSON) to []string. *)
Fixpoint stringsOf (i : nat) (items : list any) : result (list string) :=
  match items with
  | [] => Ok []
  | AStr str :: rest =>
      match stringsOf (S i) rest with
      | Ok s => Ok (str :: s)
      | Fail err => Fail err
      end
  | _ :: _ => Fail (ErrElementNotString i)
  end.

Definition toStringSlice (v : any) : result (list string) :=
  match v with
  | ASlice t => stringsOf 0 t
  | AStrSlice t => Ok t
  | _ => Fail ErrNotStringSlice
  end.

Section Steps.
Context `{GoLibs}.

(** [compileRuleTemplates] returns parallel slices: static strings and
    compiled templates; a template that does not parse stays a static
    string. *)
Fixpoint compileRuleTemplates (rule : list string) : list string * list (option Template) :=
  match rule with
  | [] => ([], [])
  | elem :: rest =>
      let (static, tmpls) := compileRuleTemplates rest in
      if isTemplate elem then
        match ParseTemplate elem with
        | Some t => ("" :: static, Some t :: tmpls)
        | None => (elem :: static, None :: tmpls)
        end
      else (elem :: static, None :: tmpls)
  end.

End Steps.

Module CheckStep.

Record authzCheckStep : Type := mkCheckStep {
  name       : string;
  moduleName : string;
  subjectKey : string;
  object     : string;
  action     : string;
  objectTmpl : option Template;
  actionTmpl : option Template;
  registry   : moduleRegistry
}.

(** The double-quote character, for the literal parts of the JSON body. *)
Definition dquote : string := String (ascii_of_nat 34) EmptyString.

Section WithLibs.
Context `{GoLibs}.

(** Either field of the step that may be a template: the static string or
    the compiled template. *)
Definition compileField (label : string) (value : string) : result (string * option Template) :=
  if isTemplate value then
    match ParseTemplate value with
    | Some t => Ok (EmptyString, Some t)
    | None => Fail (ErrWrap label ErrTemplate)
    end
  else Ok (value, None).

(** [newAuthzCheckStep] parses step config and returns an authzCheckStep;
    [globalRegistry] is the package-level registry. *)
Definition newAuthzCheckStep (globalRegistry : moduleRegistry)
           (stepName : string) (config : gmap string any) : result authzCheckStep :=
  let moduleName := if isEmpty (stringAt config "module") then "authz"
                    else stringAt config "module" in
  let subjectKey := if isEmpty (stringAt config "subject_key") then "auth_user_id"
                    else stringAt config "subject_key" in
  let object := stringAt config "object" in
  let action := stringAt config "action" in
  if isEmpty object then Fail (ErrObjectRequired stepName)
  else if isEmpty action then Fail (ErrActionRequired stepName)
  else
    match compileField "parse object template" object with
    | Fail err => Fail err
    | Ok (obj, objT) =>
        match compileField "parse action template" action with
        | Fail err => Fail err
        | Ok (act, actT) =>
            Ok (mkCheckStep stepName moduleName subjectKey obj act objT actT globalRegistry)
        end
    end.

(** [forbiddenResult] returns a StepResult that stops the pipeline with a
    403 body. *)
Definition forbiddenResult (msg : string) : StepResult :=
  mkStepResult true
    (<["response_status" := AInt 403]>
     (<["response_body" := AStr ("{" ++ dquote ++ "error" ++ dquote ++ ":" ++ Quote msg ++ "}")]>
      (<["response_headers" := AMap [("Content-Type", AStr "application/json")]]>
       (<["authz_allowed" := ABool false]> ∅)))).

End WithLibs.

(** The loop of [resolveSubject] over the prior steps' outputs, in the
    order the runtime visits them. *)
Fixpoint firstSubject (key : string) (stepOutputs : list (string * gmap string any)) : string :=
  match stepOutputs with
  | [] => ""
  | (_, out) :: rest =>
      if negb (isEmpty (stringAt out key)) then stringAt out key
      else firstSubject key rest
  end.

(** [resolveSubject] searches each prior step's output map, then current,
    then triggerData. *)
Definition resolveSubject (key : string) (stepOutputs : list (string * gmap string any))
           (current triggerData : gmap string any) : string :=
  if negb (isEmpty (firstSubject key stepOutputs)) then firstSubject key stepOutputs
  else if negb (isEmpty (stringAt current key)) then stringAt current key
  else if negb (isEmpty (stringAt triggerData key)) then stringAt triggerData key
  else "".

(** [fmt.Sprintf("forbidden: %s is not permitted to %s %s", subject, action, object)]. *)
Definition forbiddenMessage (subject action object : string) : string :=
  "forbidden: " ++ subject ++ " is not permitted to " ++ action ++ " " ++ object.

Section Execute.
Context `{GoLibs}.

(** [Execute] checks whether the authenticated user has the required
    permission. *)
Definition Execute (s : authzCheckStep) (triggerData : gmap string any)
           (stepOutputs : list (string * gmap string any))
           (current : gmap string any) : M (result StepResult) :=
  let subject := resolveSubject (subjectKey s) stepOutputs current triggerData in
  if isEmpty subject then
    ret (Ok (forbiddenResult
               "missing authentication subject; ensure step.auth_required runs first"))
  else
    let tmplData := buildTemplateData triggerData stepOutputs current in
    match resolve (object s) (objectTmpl s) tmplData with
    | Fail err => ret (Fail (ErrWrap "resolve object" err))
    | Ok object =>
        match resolve (action s) (actionTmpl s) tmplData with
        | Fail err => ret (Fail (ErrWrap "resolve action" err))
        | Ok action =>
            _ <- emit (EvGetEnforcer (moduleName s)) ;
            match registry s (moduleName s) with
            | None => ret (Fail (ErrModuleNotFound (name s) (moduleName s)))
            | Some mod_ =>
                ' (allowed, err) <- Authz.Enforce mod_ subject object action ;
                match err with
                | Some e => ret (Fail (ErrWrap "enforce" e))
                | None =>
                    if (allowed : bool) then
                      ret (Ok (mkStepResult false
                                 (<["authz_subject" := AStr subject]>
                                  (<["authz_object" := AStr object]>
                                   (<["authz_action" := AStr action]>
                                    (<["authz_allowed" := ABool true]> ∅))))))
                    else
                      ret (Ok (forbiddenResult (forbiddenMessage subject action object)))
                end
            end
        end
    end.

End Execute.
End CheckStep.

Module RoleAssignStep.

(** [roleAssignment] holds the compiled template data for one [user, role] pair. *)
Record roleAssignment : Type := mkAssignment {
  static : list string;
  tmpls  : list (option Template)
}.

Record authzRoleAssignStep : Type := mkRoleStep {
  name        : string;
  moduleName  : string;
  action      : string;    (* "add" or "remove" *)
  assignments : list roleAssignment;
  registry    : moduleRegistry
}.

Section WithLibs.
Context `{GoLibs}.

(** The loop of the constructor over the raw assignments. *)
Fixpoint compileAssignments (stepName : string) (i : nat) (raw : list any)
  : result (list roleAssignment) :=
  match raw with
  | [] => Ok []
  | a :: rest =>
      match toStringSlice a with
      | Fail err => Fail (ErrWrap "assignments" err)
      | Ok row =>
          if (length row <? 2)%nat then Fail (ErrAssignmentShape stepName i row)
          else
            let (st, ts) := compileRuleTemplates row in
            match compileAssignments stepName (S i) rest with
            | Fail err => Fail err
            | Ok more => Ok (mkAssignment st ts :: more)
            end
      end
  end.

(** The [action] key: kept when it is "add" or "remove", defaulted to "add"
    when it is absent, not a string, or empty, refused otherwise. *)
Definition parseAction (stepName : string) (config : gmap string any) : result string :=
  let v := stringAt config "action" in
  if negb (isEmpty v) then
    if String.eqb v "add" || String.eqb v "remove" then Ok v
    else Fail (ErrRoleAction stepName v)
  else Ok "add".

Definition newAuthzRoleAssignStep (globalRegistry : moduleRegistry)
           (stepName : string) (config : gmap string any) : result authzRoleAssignStep :=
  let moduleName := if isEmpty (stringAt config "module") then "authz"
                    else stringAt config "module" in
  match parseAction stepName config with
  | Fail err => Fail err
  | Ok action =>
      match config !! "assignments" with
      | Some (ASlice (a :: rest)) =>
          match compileAssignments stepName 0 (a :: rest) with
          | Fail err => Fail err
          | Ok assignments => Ok (mkRoleStep stepName moduleName action assignments globalRegistry)
          end
      | _ => Fail (ErrAssignmentsRequired stepName)
      end
  end.

End WithLibs.
End RoleAssignStep.

(** * Vocabulary of the statements *)

(** The fields of a rule that survive the trip through a table row: the
    first six, up to the first empty one. *)
Fixpoint untilEmpty (vs : list string) : list string :=
  match vs with
  | [] => []
  | v :: rest => if isEmpty v then [] else v :: untilEmpty rest
  end.

Definition keptFields (rule : list string) : list string :=
  untilEmpty (firstn 6 rule).

(** A rule the row bridge can carry: at most six fields, none empty. *)
Definition bridgeable (rule : list string) : Prop :=
  length rule <= 6 /\ Forall (fun v => v <> "") rule.

(** An enforcer the three-argument [Enforce] of the module can query: the
    request shape has three fields and every policy row fits the policy
    shape. *)
Definition wellSized (md : casbin.Model) (rows : list (list string)) : bool :=
  forallb (fun row => (length row =? casbin.p_tokens md)%nat) rows.

Definition validEnforcer (e : enforcer.Enforcer) : bool :=
  (casbin.r_tokens (enforcer.e_model e) =? 3)%nat
  && wellSized (enforcer.e_model e) (casbin.pRules (enforcer.e_rules e)).

(** No policy row, under the current role relation, satisfies the matcher. *)
Definition noRowMatches (e : enforcer.Enforcer) (rvals : list string) : bool :=
  forallb (fun row => negb (casbin.rowMatches (enforcer.e_model e) (enforcer.e_rules e) rvals row))
          (casbin.pRules (enforcer.e_rules e)).

(** Some policy row other than [rule] satisfies the matcher. *)
Definition otherRowMatches (e : enforcer.Enforcer) (rule rvals : list string) : bool :=
  existsb (fun row => negb (casbin.rowEq row rule)
                      && casbin.rowMatches (enforcer.e_model e) (enforcer.e_rules e) rvals row)
          (casbin.pRules (enforcer.e_rules e)).

(** The events a computation adds to the trace. *)
Definition isSave (ev : Event) : bool :=
  match ev with
  | EvSavePolicy _ _ => true
  | _ => false
  end.

Definition savesIn (evs : list Event) : list Event :=
  List.filter isSave evs.

(** Two worlds that hold the same table rows and the same files. *)
Definition sameStore (w w' : World) : Prop :=
  db_rows (w_db w) = db_rows (w_db w') /\ w_files w = w_files w'.

(** The events a computation from [w] to [w'] added to the trace. *)
Definition newEvents (w w' : World) : list Event :=
  skipn (length (w_trace w)) (w_trace w').

(** The four mutation methods of the module, and the engine call of each. *)
Inductive Mutation : Type :=
| MAddPolicy
| MRemovePolicy
| MAddGroupingPolicy
| MRemoveGroupingPolicy.

Definition engineMutation (k : Mutation)
  : enforcer.Enforcer -> list string -> M (BoolErr * enforcer.Enforcer) :=
  match k with
  | MAddPolicy => enforcer.AddPolicy
  | MRemovePolicy => enforcer.RemovePolicy
  | MAddGroupingPolicy => enforcer.AddGroupingPolicy
  | MRemoveGroupingPolicy => enforcer.RemoveGroupingPolicy
  end.

Definition moduleMutation (k : Mutation)
  : Authz.CasbinModule -> list string -> M (BoolErr * Authz.CasbinModule) :=
  match k with
  | MAddPolicy => Authz.AddPolicy
  | MRemovePolicy => Authz.RemovePolicy
  | MAddGroupingPolicy => Authz.AddGroupingPolicy
  | MRemoveGroupingPolicy => Authz.RemoveGroupingPolicy
  end.

(** The rows [SavePolicy] of the relational adapter inserts for a rule set. *)
Definition rowsOf (rs : casbin.Rules) : list Gorm.casbinRule :=
  map (Gorm.lineToRule "p") (casbin.pRules rs) ++ map (Gorm.lineToRule "g") (casbin.gRules rs).






(** An engine call adds no save to the trace. *)
Definition quiet
           (op : enforcer.Enforcer -> list string -> M (BoolErr * enforcer.Enforcer)) : Prop :=
  forall e rule w,
    exists evs, w_trace (snd (op e rule w)) = w_trace w ++ evs /\ savesIn evs = [].

(** The driver names [buildGORMAdapter] has a case for, after lower-casing. *)
Definition supportedDriver (lowered : string) : bool :=
  String.eqb lowered "postgres" || String.eqb lowered "postgresql"
  || String.eqb lowered "mysql"
  || String.eqb lowered "sqlite3" || String.eqb lowered "sqlite".

(** The database answers its next three statements; [Init] of a relational
    module sends three (open, migrate, find). *)
Definition calm (w : World) : bool :=
  forallb negb (firstn 3 (db_faults (w_db w))).

Section ModuleVocabulary.
Context `{GoLibs}.

(** The module is configured with the relational adapter. *)
Definition relational (m : Authz.CasbinModule) : bool :=
  String.eqb (ToLower (Authz.Type_ (Authz.Adapter (Authz.config m)))) "gorm".

(** The module's driver name selects the repository's sqlite dialector. *)
Definition sqliteBacked (m : Authz.CasbinModule) : bool :=
  String.eqb (ToLower (Authz.Driver (Authz.Adapter (Authz.config m)))) "sqlite3"
  || String.eqb (ToLower (Authz.Driver (Authz.Adapter (Authz.config m)))) "sqlite".

(** What [Init] of a relational module needs of the world to get through
    open, migrate and find: the database answers, and the migrate of the
    sqlite dialector does not meet an existing table. *)
Definition migratable (m : Authz.CasbinModule) (w : World) : Prop :=
  calm w = true /\ (sqliteBacked m = true -> db_table (w_db w) = false).

End ModuleVocabulary.

(** ** Data of the worked examples *)

(** [strings.ToLower] on ASCII letters. *)
Definition lowerChar (c : ascii) : ascii :=
  let n := nat_of_ascii c in
  if (65 <=? n)%nat && (n <=? 90)%nat then ascii_of_nat (n + 32) else c.

Fixpoint lowerASCII (s : string) : string :=
  match s with
  | EmptyString => EmptyString
  | String c rest => String (lowerChar c) (lowerASCII rest)
  end.

(** The model text of the module tests. *)
Definition testModel : string :=
  "[request_definition]
r = sub, obj, act

[policy_definition]
p = sub, obj, act

[role_definition]
g = _, _

[policy_effect]
e = some(where (p.eft == allow))

[matchers]
m = g(r.sub, p.sub) && r.obj == p.obj && r.act == p.act".

(** That text, parsed. *)
Definition rbacModel : casbin.Model :=
  casbin.mkModel 3 3
    (casbin.MAnd (casbin.MRole (casbin.RField 0) (casbin.PField 0))
       (casbin.MAnd (casbin.MEq (casbin.RField 1) (casbin.PField 1))
                    (casbin.MEq (casbin.RField 2) (casbin.PField 2)))).

(** Library functions for the examples: the model parser knows the test
    model only, no template parses, and quoting wraps plain text in double
    quotes. *)
Definition exampleLibs : GoLibs := {|
  NewModelFromString := fun s => if String.eqb s testModel then Some rbacModel else None;
  ToLower := lowerASCII;
  ParseTemplate := fun _ => None;
  Quote := fun s => (CheckStep.dquote ++ s ++ CheckStep.dquote)%string
|}.

(** A world with a database that has no table yet, no file, no pending
    fault and no event. *)
Definition emptyWorld : World := mkWorld (mkDB [] [] false) ∅ [].

Definition memoryConfig (policies roles : list (list string)) : Authz.casbinConfig :=
  Authz.mkConfig testModel policies roles (Authz.mkAdapterConfig "" "" "" "" "").

Definition gormConfig (driver dsn : string) : Authz.casbinConfig :=
  Authz.mkConfig testModel [] [] (Authz.mkAdapterConfig "gorm" "" driver dsn "").

(** The module of most module tests, before and after [Init]. *)
Definition adminModule0 : Authz.CasbinModule :=
  Authz.mkModule "authz" (memoryConfig [["admin"; "/api"; "GET"]] [["alice"; "admin"]]) None.

Definition adminEnforcer : enforcer.Enforcer :=
  enforcer.mkEnforcer rbacModel
    (casbin.mkRules [["admin"; "/api"; "GET"]] [["alice"; "admin"]])
    (AMem (MemAdapter.mkMem [["admin"; "/api"; "GET"]] [["alice"; "admin"]])).

Definition adminModule : Authz.CasbinModule :=
  Authz.mkModule "authz" (memoryConfig [["admin"; "/api"; "GET"]] [["alice"; "admin"]])
                 (Some adminEnforcer).

(** An initialized module over an empty relational store. *)
Definition gormModule : Authz.CasbinModule :=
  Authz.mkModule "authz" (gormConfig "sqlite3" ":memory:")
    (Some (enforcer.mkEnforcer rbacModel casbin.noRules
             (AGorm (GormAdapter.mkGorm "casbin_rule")))).

(** A module over a SQLite database file, and the same module over a
    postgres server, neither initialized yet. *)
Definition sqliteFileModule : Authz.CasbinModule :=
  Authz.mkModule "authz" (gormConfig "sqlite3" "authz.db") None.

Definition postgresModule : Authz.CasbinModule :=
  Authz.mkModule "authz" (gormConfig "postgres" "host=db dbname=authz") None.




(** The error of an [Init] whose migrate meets the table it was to create. *)
Definition migrateRefused : Error :=
  ErrWrap "build adapter"
    (ErrWrap "create gorm adapter" (ErrWrap "gorm casbin adapter: migrate" ErrTableExists)).

(** A world whose database answers one statement and fails the next. *)
Definition failingSaveWorld : World := mkWorld (mkDB [] [false; true] true) ∅ [].

(** A registry that knows the one module [adminModule] under its name. *)
Definition adminRegistry : moduleRegistry :=
  fun n => if String.eqb n "authz" then Some adminModule else None.

(** The module of the audit test, with exact matching: admin may DELETE
    /api/posts, and alice is an admin. *)
Definition postsModule : Authz.CasbinModule :=
  Authz.mkModule "authz"
    (memoryConfig [["admin"; "/api/posts"; "DELETE"]] [["alice"; "admin"]])
    (Some (enforcer.mkEnforcer rbacModel
             (casbin.mkRules [["admin"; "/api/posts"; "DELETE"]] [["alice"; "admin"]])
             (AMem (MemAdapter.mkMem [["admin"; "/api/posts"; "DELETE"]] [["alice"; "admin"]])))).

Definition postsRegistry : moduleRegistry :=
  fun n => if String.eqb n "authz" then Some postsModule else None.

(** The step configuration and the context of the audit test. *)
Definition auditConfig : gmap string any :=
  <["module" := AStr "authz"]>
  (<["object" := AStr "/api/posts"]>
   (<["action" := AStr "DELETE"]>
    (<["audit" := ABool true]> ∅))).

Definition aliceContext : gmap string any := <["auth_user_id" := AStr "alice"]> ∅.

(** A check step for DELETE on /api, and a context naming carol. *)
Definition deleteApiConfig : gmap string any :=
  <["object" := AStr "/api"]> (<["action" := AStr "DELETE"]> ∅).

Definition carolContext : gmap string any := <["auth_user_id" := AStr "carol"]> ∅.

Definition deleteApiStep : CheckStep.authzCheckStep :=
  CheckStep.mkCheckStep "check" "authz" "auth_user_id" "/api" "DELETE" None None adminRegistry.

(** A role-assign configuration whose action is the empty string. *)
Definition emptyActionConfig : gmap string any :=
  <["action" := AStr ""]>
  (<["assignments" := ASlice [ASlice [AStr "dave"; AStr "admin"]]]> ∅).

(** The message of the check step when no subject is found. *)
Definition missingSubject : string :=
  "missing authentication subject; ensure step.auth_required runs first".

(** The body of a 403 outcome for a message. *)
Definition errorBody `{GoLibs} (msg : string) : string :=
  "{" ++ CheckStep.dquote ++ "error" ++ CheckStep.dquote ++ ":" ++ Quote msg ++ "}".

(** The [action] key as the role-assign constructor accepts it: absent, not
    a string or empty (all read as the empty string), "add" or "remove". *)
Definition actionAccepted (config : gmap string any) : Prop :=
  stringAt config "action" = "" \/ stringAt config "action" = "add"
  \/ stringAt config "action" = "remove".

(** Every raw assignment converts to a row of at least two fields. *)
Definition pairsWellFormed (raw : list any) : Prop :=
  Forall (fun a => exists row, toStringSlice a = Ok row /\ 2 <= length row) raw.

(** * Filtered removal in the relational adapter *)

Module GormFilter.
Import Gorm.

(** The value column a name of [fields = {"v0", ..., "v5"}] selects, by the
    position of the name. *)
Definition column (i : nat) (row : casbinRule) : string :=
  nth i [V0 row; V1 row; V2 row; V3 row; V4 row; V5 row] "".

(** The loop of [RemoveFilteredPolicy] from the [i]-th filter value on:
    every non-empty value adds the condition [fields[fieldIndex+i] = v] to
    the query; [fields] has six entries, and indexing it before the first or
    past the last panics. *)
Fixpoint conditionsFrom (fieldIndex : Z) (i : nat) (fieldValues : list string)
  : outcome (list (nat * string)) :=
  match fieldValues with
  | [] => Returned []
  | v :: rest =>
      if negb (isEmpty v) then
        let idx := position fieldIndex i in
        if (idx <? 0)%Z || (6 <=? idx)%Z then Panicked
        else match conditionsFrom fieldIndex (S i) rest with
             | Returned conds => Returned ((Z.to_nat idx, v) :: conds)
             | Panicked => Panicked
             end
      else conditionsFrom fieldIndex (S i) rest
  end.

Definition conditions (fieldIndex : Z) (fieldValues : list string)
  : outcome (list (nat * string)) :=
  conditionsFrom fieldIndex 0 fieldValues.

(** The rows the finished query selects: [ptype = ?] and every added
    condition. *)
Definition selects (ptype : string) (conds : list (nat * string)) (row : casbinRule) : bool :=
  String.eqb (Ptype row) ptype
  && forallb (fun cond => String.eqb (column (fst cond) row) (snd cond)) conds.

(** [RemoveFilteredPolicy] removes policy rules matching the given filter. *)
Definition RemoveFilteredPolicy (a : GormAdapter.gormAdapter) (sec ptype : string)
           (fieldIndex : Z) (fieldValues : list string) : M (outcome (option Error)) :=
  match conditions fieldIndex fieldValues with
  | Panicked => ret Panicked
  | Returned conds =>
      failed <- dbStatement ;
      if (failed : bool) then ret (Returned (Some ErrStoreFault))
      else (db <- getDB ;
            _ <- putDB (mkDB (List.filter (fun row => negb (selects ptype conds row)) (db_rows db))
                             (db_faults db) (db_table db)) ;
            ret (Returned None))
  end.

End GormFilter.

(** * Module configuration *)

(** Library functions the configuration parser calls. *)
Class ConfigLibs : Type := {
  TrimSpace     : string -> string;       (* strings.TrimSpace *)
  ParseDuration : string -> option Z      (* time.ParseDuration, in nanoseconds *)
}.

Module Config.

(** The errors of the configuration parser. *)
Inductive ConfigError : Type :=
| ModelRequired                                               (* config.model is required *)
| RowNotStrings (field : string) (i : nat) (cause : Error)    (* config.<field>[i]: <cause> *)
| RowTooShort (field : string) (i : nat) (row : list string). (* expected [...], got <row> *)

(** [watcherConfig] describes the optional polling reload behaviour. *)
Record watcherConfig : Type := mkWatcher {
  Type_    : string;   (* "none" (default) or "polling" *)
  Interval : Z         (* nanoseconds; 0 when not given *)
}.

(** [raw[key].(map[string]any)]: the sub-map, when the key holds one. *)
Definition mapAt (raw : gmap string any) (key : string) : option (gmap string any) :=
  match raw !! key with
  | Some (AMap entries) => Some (list_to_map entries)
  | _ => None
  end.

(** The loop over [policies] or [roleAssignments]: every row must convert
    to strings and have at least [minLen] fields. *)
Fixpoint parseRows (field : string) (minLen : nat) (i : nat) (items : list any)
  : ConfigError + list (list string) :=
  match items with
  | [] => inr []
  | p :: rest =>
      match toStringSlice p with
      | Fail err => inl (RowNotStrings field i err)
      | Ok row =>
          if (length row <? minLen)%nat then inl (RowTooShort field i row)
          else match parseRows field minLen (S i) rest with
               | inl err => inl err
               | inr rows => inr (row :: rows)
               end
      end
  end.

(** [if items, ok := raw[key].([]any); ok { ... }]: a key that is absent or
    holds another type contributes no row. *)
Definition rowsAt (raw : gmap string any) (key : string) (minLen : nat)
  : ConfigError + list (list string) :=
  match raw !! key with
  | Some (ASlice items) => parseRows key minLen 0 items
  | _ => inr []
  end.

(** [parseAdapterConfig] parses the adapter sub-map. *)
Definition parseAdapterConfig (raw : gmap string any) : Authz.adapterConfig :=
  Authz.mkAdapterConfig (stringAt raw "type") (stringAt raw "path") (stringAt raw "driver")
                        (stringAt raw "dsn") (stringAt raw "table_name").

Section WithLibs.
Context `{ConfigLibs}.

(** [parseWatcherConfig] parses the watcher sub-map. *)
Definition parseWatcherConfig (raw : gmap string any) : watcherConfig :=
  mkWatcher (stringAt raw "type")
            (if negb (isEmpty (stringAt raw "interval")) then
               match ParseDuration (stringAt raw "interval") with
               | Some d => d
               | None => 0%Z
               end
             else 0%Z).

(** [parseCasbinConfig] converts a raw config map to the configuration; the
    watcher section is returned beside the record, which leaves it out. *)
Definition parseCasbinConfig (raw : gmap string any)
  : ConfigError + (Authz.casbinConfig * watcherConfig) :=
  let model := TrimSpace (stringAt raw "model") in
  if isEmpty model then inl ModelRequired
  else
    match rowsAt raw "policies" 3 with
    | inl err => inl err
    | inr policies =>
        match rowsAt raw "roleAssignments" 2 with
        | inl err => inl err
        | inr assignments =>
            let adapter := match mapAt raw "adapter" with
                           | Some sub => parseAdapterConfig sub
                           | None => Authz.mkAdapterConfig "" "" "" "" ""
                           end in
            let watcher := match mapAt raw "watcher" with
                           | Some sub => parseWatcherConfig sub
                           | None => mkWatcher "" 0%Z
                           end in
            inr (Authz.mkConfig model policies assignments adapter, watcher)
        end
    end.

(** [Start] begins the polling watcher goroutine if watcher.type is
    "polling".  The result is the interval handed to the loop it launches,
    and [None] when it launches none; the loop itself runs concurrently and
    is not modelled. *)
Definition Start `{GoLibs} (watcher : watcherConfig) : option Z :=
  if negb (String.eqb (ToLower (Type_ watcher)) "polling") then None
  else Some (if (Interval watcher <=? 0)%Z then (30 * 1000000000)%Z else Interval watcher).

(** [newCasbinModule] parses the config map and returns a module that is
    not yet initialized. *)
Definition newCasbinModule (name : string) (config : gmap string any)
  : ConfigError + Authz.CasbinModule :=
  match parseCasbinConfig config with
  | inl err => inl err
  | inr (cfg, _) => inr (Authz.mkModule name cfg None)
  end.

End WithLibs.
End Config.

(** * The plugin and its registry *)

Module Plugin.

(** [defaultRegistry]: a map from module name to module. *)
Record defaultRegistry : Type := mkRegistry {
  modules : gmap string Authz.CasbinModule
}.

(** [set] stores a module under a name. *)
Definition set (r : defaultRegistry) (name : string) (m : Authz.CasbinModule) : defaultRegistry :=
  mkRegistry (<[name := m]> (modules r)).

(** [GetEnforcer] returns the module for the given name. *)
Definition GetEnforcer (r : defaultRegistry) : moduleRegistry :=
  fun name => modules r !! name.

(** [RegisterModule] adds a module to the registry under its own name. *)
Definition RegisterModule (r : defaultRegistry) (m : Authz.CasbinModule) : defaultRegistry :=
  set r (Authz.name m) m.

(** The errors of the plugin's factory methods. *)
Inductive PluginError : Type :=
| UnknownModuleType (typeName : string)
| UnknownStepType (typeName : string)
| ModuleConfig (name : string) (cause : Config.ConfigError)
| StepConfig (cause : Error).

Section WithLibs.
Context `{ConfigLibs} `{GoLibs}.

(** [CreateModule] creates a module of the given type and registers it in
    the global registry, which is returned as the call leaves it. *)
Definition CreateModule (globalRegistry : defaultRegistry) (typeName name : string)
           (config : gmap string any)
  : (PluginError + Authz.CasbinModule) * defaultRegistry :=
  if String.eqb typeName "authz.casbin" then
    match Config.newCasbinModule name config with
    | inl err => (inl (ModuleConfig name err), globalRegistry)
    | inr m => (inr m, RegisterModule globalRegistry m)
    end
  else (inl (UnknownModuleType typeName), globalRegistry).

(** [CreateStep] creates a step instance of the given type. *)
Definition CreateStep (globalRegistry : defaultRegistry) (typeName name : string)
           (config : gmap string any) : PluginError + CheckStep.authzCheckStep :=
  if String.eqb typeName "step.authz_check" then
    match CheckStep.newAuthzCheckStep (GetEnforcer globalRegistry) name config with
    | Fail err => inl (StepConfig err)
    | Ok s => inr s
    end
  else inl (UnknownStepType typeName).

End WithLibs.
End Plugin.

(** * The policy and role steps at run time *)

(** The errors of [parseRuleConfig]. *)
Inductive RuleError : Type :=
| RuleRequired                      (* config.rule is required *)
| RuleNotStrings (cause : Error)    (* config.rule: <cause> *)
| RuleEmpty.                        (* config.rule must not be empty *)

(** [parseRuleConfig] extracts the "rule" field from config as []string. *)
Definition parseRuleConfig (config : gmap string any) : RuleError + list string :=
  match config !! "rule" with
  | None => inl RuleRequired
  | Some ruleAny =>
      match toStringSlice ruleAny with
      | Fail err => inl (RuleNotStrings err)
      | Ok [] => inl RuleEmpty
      | Ok rule => inr rule
      end
  end.

(** [resolveRule] evaluates templates against data and returns the resolved
    rule: position [i] is the rendering of [tmpls[i]] when there is one and
    [static[i]] otherwise; the first template that fails ends the loop with
    its error, and a [tmpls] shorter than [static] panics at the missing
    index. *)
Fixpoint resolveRule (static : list string) (tmpls : list (option Template))
         (data : gmap string any) : outcome (result (list string)) :=
  match static with
  | [] => Returned (Ok [])
  | st :: static' =>
      match tmpls with
      | [] => Panicked
      | t :: tmpls' =>
          match (match t with
                 | Some tm => tm data
                 | None => Ok st
                 end) with
          | Fail err => Returned (Fail (ErrWrap "rule" err))
          | Ok v =>
              match resolveRule static' tmpls' data with
              | Returned (Ok out) => Returned (Ok (v :: out))
              | other => other
              end
          end
      end
  end.

(** The module a step found in its registry, as the step leaves it;
    [None] when the step did not get that far. *)
Definition touched : Type := option Authz.CasbinModule.

Module PolicyStep.

(** [authzAddPolicyStep] and [authzRemovePolicyStep] have the same fields. *)
Record authzPolicyStep : Type := mkPolicyStep {
  name       : string;
  moduleName : string;
  ruleTmpls  : list (option Template);
  ruleStatic : list string;
  registry   : moduleRegistry
}.

Section WithLibs.
Context `{GoLibs}.

(** [newAuthzAddPolicyStep] and [newAuthzRemovePolicyStep]: the module name
    defaults to "authz", the rule is parsed and its templates compiled. *)
Definition newAuthzPolicyStep (globalRegistry : moduleRegistry) (stepName : string)
           (config : gmap string any) : RuleError + authzPolicyStep :=
  let moduleName := if isEmpty (stringAt config "module") then "authz"
                    else stringAt config "module" in
  match parseRuleConfig config with
  | inl err => inl err
  | inr rule =>
      let (static, tmpls) := compileRuleTemplates rule in
      inr (mkPolicyStep stepName moduleName tmpls static globalRegistry)
  end.

Definition newAuthzAddPolicyStep := newAuthzPolicyStep.
Definition newAuthzRemovePolicyStep := newAuthzPolicyStep.

End WithLibs.

(** The body the two [Execute] methods share: resolve the rule, look the
    module up, call its method, and report the flag under [flagKey]. *)
Definition execute (method : Authz.CasbinModule -> list string -> M (BoolErr * Authz.CasbinModule))
           (flagKey errContext : string) (s : authzPolicyStep)
           (triggerData : gmap string any) (stepOutputs : list (string * gmap string any))
           (current : gmap string any) : M (outcome (result StepResult) * touched) :=
  let tmplData := buildTemplateData triggerData stepOutputs current in
  match resolveRule (ruleStatic s) (ruleTmpls s) tmplData with
  | Panicked => ret (Panicked, None)
  | Returned (Fail err) => ret (Returned (Fail (ErrWrap "resolve rule" err)), None)
  | Returned (Ok rule) =>
      _ <- emit (EvGetEnforcer (moduleName s)) ;
      match registry s (moduleName s) with
      | None => ret (Returned (Fail (ErrModuleNotFound (name s) (moduleName s))), None)
      | Some mod_ =>
          ' (res, mod') <- method mod_ rule ;
          match res with
          | (_, Some err) => ret (Returned (Fail (ErrWrap errContext err)), Some mod')
          | (flag, None) =>
              ret (Returned (Ok (mkStepResult false
                                   (<[flagKey := ABool flag]>
                                    (<["authz_rule" := AStrSlice rule]> ∅)))),
                   Some mod')
          end
      end
  end.

(** [authzAddPolicyStep.Execute] adds the policy rule to the enforcer. *)
Definition ExecuteAdd := execute Authz.AddPolicy "authz_policy_added" "add policy".

(** [authzRemovePolicyStep.Execute] removes the policy rule from the enforcer. *)
Definition ExecuteRemove := execute Authz.RemovePolicy "authz_policy_removed" "remove policy".

End PolicyStep.

Module RoleAssignExec.
Import RoleAssignStep.

(** [switch s.action]: "add" and "remove" call the module; any other action
    calls nothing and reports no error. *)
Definition applyAction (action : string) (mod_ : Authz.CasbinModule) (rule : list string)
  : M (option Error * Authz.CasbinModule) :=
  if String.eqb action "add" then
    ' (res, mod') <- Authz.AddGroupingPolicy mod_ rule ; ret (snd res, mod')
  else if String.eqb action "remove" then
    ' (res, mod') <- Authz.RemoveGroupingPolicy mod_ rule ; ret (snd res, mod')
  else ret (None, mod_).

(** The loop of [Execute] over the assignments: each is resolved and
    applied in turn; the first failure ends the loop, with the module as the
    assignments before it left it. *)
Fixpoint applyAssignments (action : string) (assignments : list roleAssignment)
         (data : gmap string any) (mod_ : Authz.CasbinModule)
  : M (outcome (result (list (list string))) * Authz.CasbinModule) :=
  match assignments with
  | [] => ret (Returned (Ok []), mod_)
  | a :: rest =>
      match resolveRule (static a) (tmpls a) data with
      | Panicked => ret (Panicked, mod_)
      | Returned (Fail err) => ret (Returned (Fail (ErrWrap "resolve assignments" err)), mod_)
      | Returned (Ok rule) =>
          ' (opErr, mod') <- applyAction action mod_ rule ;
          match opErr with
          | Some err => ret (Returned (Fail (ErrWrap action err)), mod')
          | None =>
              ' (more, mod'') <- applyAssignments action rest data mod' ;
              match more with
              | Returned (Ok processed) => ret (Returned (Ok (rule :: processed)), mod'')
              | other => ret (other, mod'')
              end
          end
      end
  end.

(** [authzRoleAssignStep.Execute] adds or removes role mappings in the
    enforcer. *)
Definition Execute (s : authzRoleAssignStep) (triggerData : gmap string any)
           (stepOutputs : list (string * gmap string any))
           (current : gmap string any) : M (outcome (result StepResult) * touched) :=
  let tmplData := buildTemplateData triggerData stepOutputs current in
  _ <- emit (EvGetEnforcer (moduleName s)) ;
  match registry s (moduleName s) with
  | None => ret (Returned (Fail (ErrModuleNotFound (name s) (moduleName s))), None)
  | Some mod_ =>
      ' (res, mod') <- applyAssignments (action s) (assignments s) tmplData mod_ ;
      match res with
      | Panicked => ret (Panicked, Some mod')
      | Returned (Fail err) => ret (Returned (Fail err), Some mod')
      | Returned (Ok processed) =>
          ret (Returned (Ok (mkStepResult false
                               (<["authz_role_action" := AStr (action s)]>
                                (<["authz_role_assignments" := ARows processed]> ∅)))),
               Some mod')
      end
  end.

End RoleAssignExec.

(** * Vocabulary of the adapter, configuration and step statements *)

(** The database answers its next statement. *)
Definition answers (w : World) : Prop := hd false (db_faults (w_db w)) = false.

(** The [j]-th filter value lets a row through: its position is within the
    row, and the value is a wildcard or the field at the position. *)
Definition fieldPasses (row : list string) (fieldIndex : Z) (j : nat) (v : string) : Prop :=
  (position fieldIndex j < Z.of_nat (length row))%Z
  /\ (v = ""
      \/ ((0 <= position fieldIndex j)%Z
          /\ row !! Z.to_nat (position fieldIndex j) = Some v)).

(** The filter matches the row. *)
Definition matched (fieldIndex : Z) (values : list string) (row : list string) : bool :=
  match MemAdapter.matchesFilter row fieldIndex values with
  | Returned true => true
  | _ => false
  end.

(** Library functions for the configuration examples: trimming as the
    policy-line parser does it, and the one duration "5s" parses. *)
Definition exampleConfigLibs : ConfigLibs := {|
  TrimSpace := persist.trim;
  ParseDuration := fun s => if String.eqb s "5s" then Some 5000000000%Z else None
|}.

(** A module configuration as the host decodes it from YAML, with the
    policies given in a typed slice the parser does not read. *)
Definition typedPoliciesConfig : gmap string any :=
  <["model" := AStr testModel]>
  (<["policies" := ARows [["admin"; "/api"; "GET"]]]>
   (<["roleAssignments" := ASlice [ASlice [AStr "alice"; AStr "admin"]]]> ∅)).

(** The configuration of the module tests as a raw map. *)
Definition adminRawConfig : gmap string any :=
  <["model" := AStr testModel]>
  (<["policies" := ASlice [ASlice [AStr "admin"; AStr "/api"; AStr "GET"]]]>
   (<["roleAssignments" := ASlice [ASlice [AStr "alice"; AStr "admin"]]]> ∅)).

(** A watcher section that asks for polling at an interval that does not
    parse, and one that asks for polling every five seconds. *)
Definition pollingConfig : gmap string any :=
  <["type" := AStr "Polling"]> (<["interval" := AStr "soon"]> ∅).

Definition fiveSecondsConfig : gmap string any :=
  <["type" := AStr "polling"]> (<["interval" := AStr "5s"]> ∅).

(** A module whose model text does not parse. *)
Definition brokenModule : Authz.CasbinModule :=
  Authz.mkModule "authz"
    (Authz.mkConfig "no model" [["admin"; "/api"; "GET"]] [] (Authz.mkAdapterConfig "" "" "" "" ""))
    (Some adminEnforcer).

(** The adapter of a module is the in-memory one and holds exactly the rows
    of the module's rule set. *)
Definition mirrors (m : Authz.CasbinModule) : Prop :=
  exists e : enforcer.Enforcer,
    Authz.enforcer_ m = Some e
    /\ enforcer.e_adapter e
       = AMem (MemAdapter.mkMem (casbin.pRules (enforcer.e_rules e))
                                (casbin.gRules (enforcer.e_rules e))).

(** The module keeps its policies in memory. *)
Definition inMemory (m : Authz.CasbinModule) : Prop :=
  exists (e : enforcer.Enforcer) (a : MemAdapter.inMemoryAdapter),
    Authz.enforcer_ m = Some e /\ enforcer.e_adapter e = AMem a.

(** The registry once [CreateModule] has registered the module of the
    module tests, and the check step [CreateStep] then makes for DELETE on
    /api. *)
Definition createdRegistry : Plugin.defaultRegistry :=
  Plugin.RegisterModule (Plugin.mkRegistry ∅) adminModule0.

Definition createdStep : CheckStep.authzCheckStep :=
  CheckStep.mkCheckStep "check" "authz" "auth_user_id" "/api" "DELETE" None None
                        (Plugin.GetEnforcer createdRegistry).

(** The value the step outputs give a key: the one of the last output, in
    the order the runtime visits them, that has the key. *)
Fixpoint lastOutput (key : string) (stepOutputs : list (string * gmap string any))
  : option any :=
  match stepOutputs with
  | [] => None
  | out :: rest =>
      match lastOutput key rest with
      | Some v => Some v
      | None => snd out !! key
      end
  end.

(** No step output carries a non-empty string under the key. *)
Definition silent (key : string) (stepOutputs : list (string * gmap string any)) : Prop :=
  Forall (fun out => stringAt (snd out) key = "") stepOutputs.

(** A policy-step configuration with a rule of three plain strings, and the
    step the constructors make of it. *)
Definition bobRuleConfig : gmap string any :=
  <["rule" := ASlice [AStr "bob"; AStr "/api"; AStr "GET"]]> ∅.

Definition bobRuleStep : PolicyStep.authzPolicyStep :=
  PolicyStep.mkPolicyStep "grant" "authz" [None; None; None] ["bob"; "/api"; "GET"]
                          adminRegistry.

(** The element stays a static string in [compileRuleTemplates]: it has no
    template syntax, or it has but does not parse. *)
Definition staysStatic `{GoLibs} (elem : string) : Prop :=
  isTemplate elem = false \/ ParseTemplate elem = None.

(** What a policy step reports for the answer of the module method. *)
Definition policyOutcome (flagKey errContext : string) (rule : list string) (res : BoolErr)
  : outcome (result StepResult) :=
  match res with
  | (_, Some err) => Returned (Fail (ErrWrap errContext err))
  | (flag, None) =>
      Returned (Ok (mkStepResult false
                      (<[flagKey := ABool flag]> (<["authz_rule" := AStrSlice rule]> ∅))))
  end.

(** * The schema bridge: facts *)

Section GormRows.
Import Gorm.

Lemma isEmpty_true (s : string) : isEmpty s = true <-> s = "".
Proof. unfold isEmpty. apply String.eqb_eq. Qed.

Lemma isEmpty_false (s : string) : isEmpty s = false <-> s <> "".
Proof. unfold isEmpty. apply String.eqb_neq. Qed.

Lemma lineToRule_fields (ptype : string) (rule : list string) :
  lineToRule ptype rule =
  mkRule 0 ptype (nth 0 rule "") (nth 1 rule "") (nth 2 rule "")
         (nth 3 rule "") (nth 4 rule "") (nth 5 rule "").
Proof.
  destruct rule as [|a [|b [|c [|d [|e [|f [|g rest]]]]]]]; reflexivity.
Qed.

Lemma ruleToLine_loop_spec (vs parts : list string) :
  ruleToLine_loop vs parts = parts ++ untilEmpty vs.
Proof.
  revert parts; induction vs as [|v vs IH]; intros parts; simpl.
  - now rewrite app_nil_r.
  - destruct (isEmpty v).
    + now rewrite app_nil_r.
    + rewrite IH, <- app_assoc. reflexivity.
Qed.

Lemma padded_untilEmpty (rule : list string) :
  untilEmpty [nth 0 rule ""; nth 1 rule ""; nth 2 rule "";
              nth 3 rule ""; nth 4 rule ""; nth 5 rule ""] = keptFields rule.
Proof.
  unfold keptFields.
  do 6 (destruct rule as [|? rule]; [simpl; repeat case_match; reflexivity|];
        simpl; destruct (isEmpty _); [reflexivity|]; f_equal).
Qed.

(** What comes back from the table for any rule. *)
Lemma ruleParts_lineToRule (ptype : string) (rule : list string) :
  ruleParts (lineToRule ptype rule) = ptype :: keptFields rule.
Proof.
  rewrite lineToRule_fields. unfold ruleParts.
  cbn [Ptype V0 V1 V2 V3 V4 V5].
  rewrite ruleToLine_loop_spec, padded_untilEmpty. reflexivity.
Qed.

Lemma untilEmpty_prefix (vs : list string) :
  exists rest, vs = untilEmpty vs ++ rest.
Proof.
  induction vs as [|v vs [rest IH]]; simpl.
  - now exists [].
  - destruct (isEmpty v).
    + now exists (v :: vs).
    + exists rest. simpl. congruence.
Qed.

Lemma keptFields_prefix (rule : list string) :
  exists rest, rule = keptFields rule ++ rest.
Proof.
  unfold keptFields.
  destruct (untilEmpty_prefix (firstn 6 rule)) as [rest Hrest].
  exists (rest ++ skipn 6 rule).
  rewrite app_assoc, <- Hrest. symmetry. apply firstn_skipn.
Qed.

Lemma untilEmpty_id (vs : list string) :
  untilEmpty vs = vs <-> Forall (fun v => v <> "") vs.
Proof.
  induction vs as [|v vs IH]; simpl.
  - split; auto.
  - destruct (isEmpty v) eqn:E.
    + split; [discriminate|]. intros HF. inversion HF; subst.
      apply isEmpty_true in E. contradiction.
    + apply isEmpty_false in E. split.
      * intros Heq. injection Heq as Heq. constructor; [assumption | now apply IH].
      * intros HF. inversion HF; subst. f_equal. now apply IH.
Qed.

Lemma keptFields_id (rule : list string) :
  keptFields rule = rule <-> bridgeable rule.
Proof.
  unfold keptFields, bridgeable. split.
  - intros Heq.
    assert (Hlen : length rule <= 6).
    { destruct (untilEmpty_prefix (firstn 6 rule)) as [rest Hrest].
      rewrite Heq in Hrest.
      assert (Hl : length (firstn 6 rule) = length rule + length rest)
        by (rewrite Hrest at 1; apply length_app).
      rewrite length_firstn in Hl. lia. }
    split; [exact Hlen|].
    rewrite firstn_all2 in Heq by exact Hlen. now apply untilEmpty_id.
  - intros [Hlen HF]. rewrite firstn_all2 by exact Hlen. now apply untilEmpty_id.
Qed.

Lemma append_length (s1 s2 : string) :
  String.length (s1 ++ s2) = String.length s1 + String.length s2.
Proof. induction s1 as [|c s1 IH]; simpl; [reflexivity | now rewrite IH]. Qed.

(** [strings.Join] grows with every further part. *)
Lemma Join_cons_length (sep x : string) (l : list string) :
  String.length (Join (x :: l) sep) =
  String.length x + list_sum (map (fun y => String.length sep + String.length y) l).
Proof.
  unfold Join. revert x; induction l as [|y l IH]; intros x.
  - simpl. lia.
  - change (String.concat sep (x :: y :: l))
      with (x ++ sep ++ String.concat sep (y :: l))%string.
    rewrite !append_length, IH. simpl. lia.
Qed.

Lemma Join_strict_prefix (x : string) (l rest : list string) :
  rest <> [] -> Join (x :: l) ", " <> Join (x :: l ++ rest) ", ".
Proof.
  intros Hrest Heq.
  apply (f_equal String.length) in Heq.
  rewrite !Join_cons_length, map_app, list_sum_app in Heq.
  destruct rest as [|r rest]; [contradiction|]. simpl in Heq. lia.
Qed.

(** C10: the row bridge gives back the ptype and the fields of a rule
    exactly when the rule has at most six fields, none of them empty.  For any
    rule, what comes back is the ptype followed by the first six fields cut at
    the first empty one, and fields beyond the sixth never reach the row. *)
Theorem ruleToLine_lineToRule_roundtrip (ptype : string) (rule : list string) :
  (ruleToLine (lineToRule ptype rule) = Join (ptype :: rule) ", " <-> bridgeable rule)
  /\ ruleParts (lineToRule ptype rule) = ptype :: keptFields rule
  /\ lineToRule ptype rule = lineToRule ptype (firstn 6 rule).
Proof.
  split; [|split].
  - unfold ruleToLine. rewrite ruleParts_lineToRule. split.
    + intros Heq. apply keptFields_id.
      destruct (keptFields_prefix rule) as [rest Hrest].
      destruct rest as [|r rest].
      * rewrite app_nil_r in Hrest. congruence.
      * exfalso. rewrite Hrest in Heq at 2.
        revert Heq. apply Join_strict_prefix. discriminate.
    + intros Hb. apply keptFields_id in Hb. now rewrite Hb.
  - apply ruleParts_lineToRule.
  - rewrite !lineToRule_fields.
    destruct rule as [|a [|b [|c [|d [|e [|f [|g rest]]]]]]]; reflexivity.
Qed.

(** A seventh field is dropped, and an empty field hides the ones after it. *)
Example ruleToLine_drops_seventh :
  ruleToLine (lineToRule "p" ["a"; "b"; "c"; "d"; "e"; "f"; "g"]) = "p, a, b, c, d, e, f".
Proof. reflexivity. Qed.

Example ruleToLine_stops_at_empty :
  ruleToLine (lineToRule "p" ["a"; ""; "c"]) = "p, a".
Proof. reflexivity. Qed.

(** Saving a rule set to the table and loading it back: the rule with an
    empty second field comes back as its first field alone, the rule of seven
    fields as its first six. *)
Example gorm_save_then_load :
  let a := GormAdapter.mkGorm "casbin_rule" in
  let saved := casbin.mkRules [["a"; ""; "c"]; ["1"; "2"; "3"; "4"; "5"; "6"; "7"]] [] in
  fst (GormAdapter.LoadPolicy a casbin.noRules
         (snd (GormAdapter.SavePolicy a saved (mkWorld (mkDB [] [] true) ∅ []))))
  = (None, casbin.mkRules [["a"]; ["1"; "2"; "3"; "4"; "5"; "6"]] []).
Proof. vm_compute. reflexivity. Qed.

End GormRows.

(** * The matching engine: facts *)

Section Engine.
Import casbin enforcer.

Lemma enforceRows_spec (md : Model) (rs : Rules) (rvals : list string)
      (rows : list (list string)) :
  wellSized md rows = true ->
  enforceRows md rs rvals rows = (existsb (rowMatches md rs rvals) rows, None).
Proof.
  induction rows as [|row rows IH]; simpl; intros Hws.
  - reflexivity.
  - apply andb_true_iff in Hws as [Hrow Hrest].
    rewrite Hrow; simpl.
    destruct (rowMatches md rs rvals row); simpl; [reflexivity | now apply IH].
Qed.

(** On a valid enforcer a three-field query is answered without error, by
    whether some row matches. *)
Lemma Enforce_valid (e : Enforcer) (sub obj act : string) :
  validEnforcer e = true ->
  Enforce e [sub; obj; act] =
  (existsb (rowMatches (e_model e) (e_rules e) [sub; obj; act]) (pRules (e_rules e)), None).
Proof.
  unfold validEnforcer, Enforce, enforce. intros Hv.
  apply andb_true_iff in Hv as [Hr Hp].
  simpl length. rewrite Nat.eqb_sym, Hr. simpl.
  now apply enforceRows_spec.
Qed.

Lemma existsb_none {A} (f : A -> bool) (l : list A) :
  forallb (fun x => negb (f x)) l = true -> existsb f l = false.
Proof.
  induction l as [|x l IH]; simpl; [reflexivity|].
  intros Hall. apply andb_true_iff in Hall as [Hx Hl].
  apply negb_true_iff in Hx. rewrite Hx. now apply IH.
Qed.

(** The matcher looks at the rule set through its role rows only. *)
Lemma rowMatches_roles (md : Model) (rs rs' : Rules) (rvals row : list string) :
  gRules rs = gRules rs' -> rowMatches md rs rvals row = rowMatches md rs' rvals row.
Proof. unfold rowMatches. now intros ->. Qed.

Lemma rowEq_true (a b : list string) : rowEq a b = true <-> a = b.
Proof. unfold rowEq. apply bool_decide_eq_true. Qed.

Lemma hasRule_In (rows : list (list string)) (rule : list string) :
  hasRule rows rule = true <-> In rule rows.
Proof.
  unfold hasRule. rewrite existsb_exists. split.
  - intros [x [Hin Heq]]. apply rowEq_true in Heq. now subst.
  - intros Hin. exists rule. split; [assumption | now apply rowEq_true].
Qed.

Lemma addRow_In (rows : list (list string)) (rule : list string) :
  In rule (addRow rows rule).
Proof.
  unfold addRow. destruct (hasRule rows rule) eqn:E.
  - now apply hasRule_In.
  - apply in_or_app. right. now left.
Qed.

Lemma existsb_filter_ne (f : list string -> bool) (rows : list (list string))
      (rule : list string) :
  existsb f (removeRowAll rows rule) =
  existsb (fun row => negb (rowEq row rule) && f row) rows.
Proof.
  unfold removeRowAll, rowEq.
  induction rows as [|row rows IH]; [reflexivity|].
  rewrite filter_cons. simpl. case_decide as Hd.
  - rewrite bool_decide_eq_false_2 by assumption. simpl. now rewrite IH.
  - rewrite bool_decide_eq_true_2 by (destruct (decide (row = rule)); tauto).
    simpl. apply IH.
Qed.

Lemma removeRowAll_addRow (rows : list (list string)) (rule : list string) :
  removeRowAll (addRow rows rule) rule = removeRowAll rows rule.
Proof.
  unfold addRow, removeRowAll. destruct (hasRule rows rule); [reflexivity|].
  rewrite filter_app. simpl. rewrite filter_cons, decide_False by tauto.
  rewrite filter_nil. apply app_nil_r.
Qed.

Lemma wellSized_addRow (md : Model) (rows : list (list string)) (rule : list string) :
  wellSized md rows = true -> length rule = p_tokens md ->
  wellSized md (addRow rows rule) = true.
Proof.
  unfold wellSized, addRow. intros Hws Hlen.
  destruct (hasRule rows rule); [assumption|].
  rewrite forallb_app, Hws. simpl. rewrite Hlen, Nat.eqb_refl. reflexivity.
Qed.

Lemma wellSized_removeRowAll (md : Model) (rows : list (list string)) (rule : list string) :
  wellSized md rows = true -> wellSized md (removeRowAll rows rule) = true.
Proof.
  unfold wellSized, removeRowAll. intros Hws.
  apply forallb_forall. intros row Hin.
  apply list_elem_of_In, list_elem_of_filter in Hin as [_ Hin].
  apply list_elem_of_In in Hin.
  now apply (proj1 (forallb_forall _ _) Hws).
Qed.

(** Adding a row that is absent and removing one that is present change the
    row list; the other cases leave it as it is. *)
Lemma addRow_changed (rows : list (list string)) (rule : list string) :
  addRow rows rule <> rows <-> hasRule rows rule = false.
Proof.
  unfold addRow. destruct (hasRule rows rule); split; try congruence.
  intros _ Heq. apply (f_equal (@length _)) in Heq.
  rewrite length_app in Heq. simpl in Heq. lia.
Qed.

Lemma removeRowAll_changed (rows : list (list string)) (rule : list string) :
  removeRowAll rows rule <> rows <-> hasRule rows rule = true.
Proof.
  unfold removeRowAll. rewrite hasRule_In. split.
  - intros Hne. destruct (decide (rule ∈ rows)) as [Hin|Hnin];
      [now apply list_elem_of_In|].
    exfalso. apply Hne. clear Hne.
    induction rows as [|row rows IH]; [reflexivity|].
    rewrite filter_cons. case_decide as Hd.
    + f_equal. apply IH. intros Hin. apply Hnin. now right.
    + exfalso. apply Hnin. destruct (decide (row = rule)); [subst; left | tauto].
  - intros Hin Heq.
    assert (Hin' : rule ∈ filter (fun r => r <> rule) rows)
      by (rewrite Heq; now apply list_elem_of_In).
    apply list_elem_of_filter in Hin' as [Hne _]. now apply Hne.
Qed.

End Engine.

(** * Adapters and the trace: facts *)

(** Unfolds the plumbing of the state monad. *)
Ltac mrun :=
  unfold bind, ret, emit, getDB, putDB, readFile, writeFile, dbStatement in *;
  simpl in *.

Section Adapters.
Import casbin enforcer.

Lemma dbFind_trace (w : World) : w_trace (snd (GormAdapter.dbFind w)) = w_trace w.
Proof. unfold GormAdapter.dbFind. mrun. repeat case_match; simplify_eq; reflexivity. Qed.

Lemma dbDeleteAll_trace (w : World) : w_trace (snd (GormAdapter.dbDeleteAll w)) = w_trace w.
Proof. unfold GormAdapter.dbDeleteAll. mrun. repeat case_match; simplify_eq; reflexivity. Qed.

Lemma dbInsert_trace (rules : list Gorm.casbinRule) (w : World) :
  w_trace (snd (GormAdapter.dbInsert rules w)) = w_trace w.
Proof. unfold GormAdapter.dbInsert. mrun. repeat case_match; simplify_eq; reflexivity. Qed.

Lemma dbDeleteWhere_trace (r : Gorm.casbinRule) (w : World) :
  w_trace (snd (GormAdapter.dbDeleteWhere r w)) = w_trace w.
Proof. unfold GormAdapter.dbDeleteWhere. mrun. repeat case_match; simplify_eq; reflexivity. Qed.

Lemma gorm_SavePolicy_trace (a : GormAdapter.gormAdapter) (rs : Rules) (w : World) :
  w_trace (snd (GormAdapter.SavePolicy a rs w)) = w_trace w.
Proof.
  unfold GormAdapter.SavePolicy, bind.
  pose proof (dbDeleteAll_trace w) as Hd.
  destruct (GormAdapter.dbDeleteAll w) as [[err|] w1]; simpl in *; [assumption|].
  case_match; [|assumption].
  rewrite dbInsert_trace. assumption.
Qed.

Lemma adapterSavePolicy_trace (ad : persistAdapter) (rs : Rules) (w : World) :
  w_trace (snd (adapterSavePolicy ad rs w)) = w_trace w ++ [EvSavePolicy (pRules rs) (gRules rs)].
Proof.
  unfold adapterSavePolicy, bind, emit. destruct ad as [a|path|a]; simpl.
  - reflexivity.
  - reflexivity.
  - pose proof (gorm_SavePolicy_trace a rs
       (mkWorld (w_db w) (w_files w) (w_trace w ++ [EvSavePolicy (pRules rs) (gRules rs)]))) as Hs.
    destruct (GormAdapter.SavePolicy _ _ _) as [err w1]. simpl in *. assumption.
Qed.

Lemma adapterAddPolicy_trace (ad : persistAdapter) (sec ptype : string) (rule : list string)
      (w : World) :
  w_trace (snd (adapterAddPolicy ad sec ptype rule w)) = w_trace w ++ [EvAddPolicy sec rule].
Proof.
  unfold adapterAddPolicy, bind, emit. destruct ad as [a|path|a]; simpl.
  - unfold MemAdapter.AddPolicy. case_match; reflexivity.
  - reflexivity.
  - unfold GormAdapter.AddPolicy.
    pose proof (dbInsert_trace [Gorm.lineToRule ptype rule]
       (mkWorld (w_db w) (w_files w) (w_trace w ++ [EvAddPolicy sec rule]))) as Hs.
    destruct (GormAdapter.dbInsert _ _) as [err w1]. simpl in *. assumption.
Qed.

Lemma adapterRemovePolicy_trace (ad : persistAdapter) (sec ptype : string) (rule : list string)
      (w : World) :
  w_trace (snd (adapterRemovePolicy ad sec ptype rule w)) = w_trace w ++ [EvRemovePolicy sec rule].
Proof.
  unfold adapterRemovePolicy, bind, emit. destruct ad as [a|path|a]; simpl.
  - unfold MemAdapter.RemovePolicy. case_match; reflexivity.
  - reflexivity.
  - unfold GormAdapter.RemovePolicy.
    pose proof (dbDeleteWhere_trace (Gorm.lineToRule ptype rule)
       (mkWorld (w_db w) (w_files w) (w_trace w ++ [EvRemovePolicy sec rule]))) as Hs.
    destruct (GormAdapter.dbDeleteWhere _ _) as [err w1]. simpl in *. assumption.
Qed.

(** The events from position [length (w_trace w)] on are the new ones. *)
Lemma drop_trace (old new : list Event) : skipn (length old) (old ++ new) = new.
Proof. induction old; simpl; auto. Qed.

Lemma addPolicy_quiet (sec : string) : quiet (addPolicy sec).
Proof.
  intros e rule w. unfold addPolicy.
  destruct (modelHasPolicy sec rule (e_rules e)).
  - exists []. simpl. now rewrite app_nil_r.
  - unfold bind.
    pose proof (adapterAddPolicy_trace (e_adapter e) sec sec rule w) as Ht.
    destruct (adapterAddPolicy (e_adapter e) sec sec rule w) as [[err ad] w1].
    simpl in Ht. exists [EvAddPolicy sec rule].
    destruct (ignorable err); simpl; now split.
Qed.

Lemma removePolicy_quiet (sec : string) : quiet (removePolicy sec).
Proof.
  intros e rule w. unfold removePolicy, bind.
  pose proof (adapterRemovePolicy_trace (e_adapter e) sec sec rule w) as Ht.
  destruct (adapterRemovePolicy (e_adapter e) sec sec rule w) as [[err ad] w1].
  simpl in Ht. exists [EvRemovePolicy sec rule].
  destruct (ignorable err); simpl; now split.
Qed.


Lemma SavePolicy_spec (e : Enforcer) (w : World) :
  let '((err, e2), w2) := SavePolicy e w in
  e_model e2 = e_model e /\ e_rules e2 = e_rules e
  /\ w_trace w2 = w_trace w ++ [EvSavePolicy (pRules (e_rules e)) (gRules (e_rules e))].
Proof.
  unfold SavePolicy, bind.
  pose proof (adapterSavePolicy_trace (e_adapter e) (e_rules e) w) as Ht.
  destruct (adapterSavePolicy (e_adapter e) (e_rules e) w) as [[err ad] w2].
  simpl in *. now repeat split.
Qed.


End Adapters.

(** * The enforcement module: mutations *)

Section Mutations.
Import casbin enforcer.

Lemma modelAddPolicy_changed (sec : string) (rule : list string) (rs : Rules) :
  modelAddPolicy sec rule rs <> rs <-> modelHasPolicy sec rule rs = false.
Proof.
  unfold modelAddPolicy, modelHasPolicy. destruct rs as [p g]; simpl.
  destruct (String.eqb sec "g"); rewrite <- addRow_changed; split; intros Hne Heq;
    apply Hne; congruence.
Qed.

Lemma modelRemovePolicy_changed (sec : string) (rule : list string) (rs : Rules) :
  modelRemovePolicy sec rule rs <> rs <-> modelHasPolicy sec rule rs = true.
Proof.
  unfold modelRemovePolicy, modelHasPolicy. destruct rs as [p g]; simpl.
  destruct (String.eqb sec "g"); rewrite <- removeRowAll_changed; split; intros Hne Heq;
    apply Hne; congruence.
Qed.

Lemma modelRemovePolicy_same (sec : string) (rule : list string) (rs : Rules) :
  modelHasPolicy sec rule rs = false -> modelRemovePolicy sec rule rs = rs.
Proof.
  unfold modelRemovePolicy, modelHasPolicy. destruct rs as [p g]; simpl.
  destruct (String.eqb sec "g"); intros Hhas; f_equal.
  - destruct (decide (removeRowAll g rule = g)) as [|Hne]; [assumption|].
    apply removeRowAll_changed in Hne. congruence.
  - destruct (decide (removeRowAll p rule = p)) as [|Hne]; [assumption|].
    apply removeRowAll_changed in Hne. congruence.
Qed.

Lemma savesIn_app (a b : list Event) : savesIn (a ++ b) = savesIn a ++ savesIn b.
Proof. unfold savesIn. apply List.filter_app. Qed.

(** Each method of the module is the shared body over the engine call of
    its name, and none of the four engine calls saves. *)
Lemma moduleMutation_mutate (k : Mutation) :
  moduleMutation k = Authz.mutate (engineMutation k).
Proof. destruct k; reflexivity. Qed.

Lemma engineMutation_quiet (k : Mutation) : quiet (engineMutation k).
Proof.
  destruct k; simpl;
    [apply (addPolicy_quiet "p") | apply (removePolicy_quiet "p")
     | apply (addPolicy_quiet "g") | apply (removePolicy_quiet "g")].
Qed.


(** The four methods, whose engine calls do not save: the save after a
    reported change is the only save of the method, and a method that does
    not save adds no save at all. *)
Lemma methods_save_once (k : Mutation) (m : Authz.CasbinModule) (e : Enforcer)
      (rule : list string) (w : World) :
  Authz.enforcer_ m = Some e ->
  let '((res1, e1), w1) := engineMutation k e rule w in
  let '((res, m'), w') := moduleMutation k m rule w in
  (res1 = (true, None) ->
     savesIn (newEvents w w')
     = [EvSavePolicy (pRules (e_rules e1)) (gRules (e_rules e1))])
  /\ (res1 <> (true, None) -> savesIn (newEvents w w') = []).
Proof.
  intros Hinit. rewrite moduleMutation_mutate. unfold Authz.mutate. rewrite Hinit.
  unfold bind.
  pose proof (engineMutation_quiet k e rule w) as (evs & Htr & Hns).
  destruct (engineMutation k e rule w) as [[res1 e1] w1]. simpl in Htr.
  assert (Hev : savesIn (newEvents w w1) = []).
  { unfold newEvents. now rewrite Htr, drop_trace. }
  destruct res1 as [ok [x|]]; [|destruct ok].
  - simpl. split; [discriminate | intros _; assumption].
  - pose proof (SavePolicy_spec e1 w1) as Hspec.
    destruct (SavePolicy e1 w1) as [[saved e2] w2].
    destruct Hspec as (_ & _ & Htr2).
    assert (Hev2 : savesIn (newEvents w w2)
                   = [EvSavePolicy (pRules (e_rules e1)) (gRules (e_rules e1))]).
    { unfold newEvents. rewrite Htr2, Htr, <- app_assoc, drop_trace, savesIn_app, Hns.
      reflexivity. }
    destruct saved as [x|]; simpl;
      (split; [intros _; assumption | intros Hne; now destruct Hne]).
  - simpl. split; [discriminate | intros _; assumption].
Qed.

(** A save that fails: the insert of the new row is answered, the delete
    that opens [SavePolicy] is not; the method returns the store's error and
    not [true], while the rule stays in memory. *)
Example AddPolicy_save_fails :
  exists m',
    Authz.AddPolicy gormModule ["alice"; "/api"; "GET"] failingSaveWorld
    = (((false, Some ErrStoreFault), m'),
       mkWorld (mkDB [Gorm.lineToRule "p" ["alice"; "/api"; "GET"]] [] true) ∅
               [EvAddPolicy "p" ["alice"; "/api"; "GET"];
                EvSavePolicy [["alice"; "/api"; "GET"]] []])
    /\ fst (Authz.Enforce m' "alice" "/api" "GET" failingSaveWorld) = (true, None).
Proof. eexists. split; [vm_compute; reflexivity | reflexivity]. Qed.



End Mutations.

(** * The enforcement module: queries *)

Section Queries.
Import casbin enforcer.

(** The answer of [Enforce] does not depend on the world it runs in. *)
Lemma Enforce_answer (m : Authz.CasbinModule) (sub obj act : string) (w : World) :
  fst (Authz.Enforce m sub obj act w) =
  match Authz.enforcer_ m with
  | None => (false, Some (ErrNotInitialized (Authz.name m)))
  | Some e => Enforce e [sub; obj; act]
  end.
Proof. unfold Authz.Enforce. destruct (Authz.enforcer_ m); reflexivity. Qed.

(** C1: on a valid, initialized module, a query that no policy row satisfies
    under the current role relation is answered [false] with a nil error. *)
Theorem Enforce_no_match_is_deny (m : Authz.CasbinModule) (e : Enforcer)
        (sub obj act : string) (w : World) :
  Authz.enforcer_ m = Some e ->
  validEnforcer e = true ->
  noRowMatches e [sub; obj; act] = true ->
  fst (Authz.Enforce m sub obj act w) = (false, None).
Proof.
  intros Hinit Hvalid Hnone.
  rewrite Enforce_answer, Hinit, Enforce_valid by assumption.
  unfold noRowMatches in Hnone. now rewrite existsb_none.
Qed.

Lemma Enforce_no_match_is_deny_witness :
  fst (Authz.Enforce adminModule "alice" "/api" "DELETE" emptyWorld) = (false, None).
Proof.
  apply (Enforce_no_match_is_deny adminModule adminEnforcer "alice" "/api" "DELETE" emptyWorld);
    reflexivity.
Defined.

Lemma modelAddPolicy_same (sec : string) (rule : list string) (rs : Rules) :
  modelHasPolicy sec rule rs = true -> modelAddPolicy sec rule rs = rs.
Proof.
  unfold modelAddPolicy, modelHasPolicy, addRow. destruct rs as [p g]; simpl.
  destruct (String.eqb sec "g"); intros ->; reflexivity.
Qed.

Lemma addPolicy_noerr (sec : string) (e e1 : Enforcer) (rule : list string)
      (w w1 : World) (res : BoolErr) :
  addPolicy sec e rule w = ((res, e1), w1) -> snd res = None ->
  e_model e1 = e_model e /\ e_rules e1 = modelAddPolicy sec rule (e_rules e).
Proof.
  unfold addPolicy. destruct (modelHasPolicy sec rule (e_rules e)) eqn:Hhas.
  - intros Heq _. injection Heq as <- <- <-.
    split; [reflexivity | now rewrite modelAddPolicy_same].
  - unfold bind. destruct (adapterAddPolicy _ _ _ _ _) as [[err ad] w2].
    destruct (ignorable err); intros Heq Herr; injection Heq as <- <- <-;
      [discriminate | now split].
Qed.

Lemma removePolicy_noerr (sec : string) (e e1 : Enforcer) (rule : list string)
      (w w1 : World) (res : BoolErr) :
  removePolicy sec e rule w = ((res, e1), w1) -> snd res = None ->
  e_model e1 = e_model e /\ e_rules e1 = modelRemovePolicy sec rule (e_rules e).
Proof.
  unfold removePolicy, bind. destruct (adapterRemovePolicy _ _ _ _ _) as [[err ad] w2].
  destruct (ignorable err); intros Heq Herr; injection Heq as <- <- <-;
    [discriminate | now split].
Qed.

(** A mutation method that returns no error leaves the module with the
    enforcer the engine call produced, up to its adapter. *)
Lemma mutate_noerr (op : Enforcer -> list string -> M (BoolErr * Enforcer))
      (m m' : Authz.CasbinModule) (e : Enforcer) (rule : list string)
      (w w' : World) (ok : bool) :
  Authz.enforcer_ m = Some e ->
  Authz.mutate op m rule w = (((ok, None), m'), w') ->
  exists res1 e1 w1 e',
    op e rule w = ((res1, e1), w1) /\ snd res1 = None
    /\ Authz.enforcer_ m' = Some e'
    /\ e_model e' = e_model e1 /\ e_rules e' = e_rules e1.
Proof.
  intros Hinit. unfold Authz.mutate. rewrite Hinit. unfold bind.
  destruct (op e rule w) as [[[ok1 [x|]] e1] w1]; simpl.
  - intros Heq. discriminate.
  - destruct ok1.
    + pose proof (SavePolicy_spec e1 w1) as Hsave.
      destruct (SavePolicy e1 w1) as [[saved e2] w2].
      destruct Hsave as (Hmd & Hrs & _).
      destruct saved; simpl; intros Heq; [discriminate|].
      injection Heq as <- <- <-.
      exists (true, None), e1, w1, e2. now repeat split.
    + intros Heq. injection Heq as <- <- <-.
      exists (false, None), e1, w1, e1. now repeat split.
Qed.

Lemma existsb_pointwise {A} (f g : A -> bool) (l : list A) :
  (forall x, f x = g x) -> existsb f l = existsb g l.
Proof. intros Hfg. induction l as [|x l IH]; simpl; [reflexivity | now rewrite Hfg, IH]. Qed.

Lemma validEnforcer_rules (e e' : Enforcer) :
  validEnforcer e = true -> e_model e' = e_model e ->
  wellSized (e_model e) (pRules (e_rules e')) = true ->
  validEnforcer e' = true.
Proof.
  unfold validEnforcer. intros Hv Hmd Hws. rewrite Hmd.
  apply andb_true_iff in Hv as [Hr _]. now rewrite Hr, Hws.
Qed.

(** C2, amended: after a successful [AddPolicy(row)], a query that satisfies
    the matcher against that row is allowed; after a subsequent successful
    [RemovePolicy(row)], the same query is allowed exactly when another
    policy row still satisfies the matcher, so it is denied when [row] was
    the only matching row. *)
Theorem AddPolicy_then_RemovePolicy (m m1 : Authz.CasbinModule) (e : Enforcer)
        (row : list string) (sub obj act : string) (w w1 : World) (ok1 : bool) :
  Authz.enforcer_ m = Some e ->
  validEnforcer e = true ->
  length row = p_tokens (e_model e) ->
  Authz.AddPolicy m row w = (((ok1, None), m1), w1) ->
  rowMatches (e_model e) (e_rules e) [sub; obj; act] row = true ->
  fst (Authz.Enforce m1 sub obj act w1) = (true, None)
  /\ forall (ok2 : bool) (m2 : Authz.CasbinModule) (w2 w3 : World),
      Authz.RemovePolicy m1 row w1 = (((ok2, None), m2), w2) ->
      fst (Authz.Enforce m2 sub obj act w3)
      = (otherRowMatches e row [sub; obj; act], None).
Proof.
  intros Hinit Hvalid Hlen Hadd Hrow.
  destruct (mutate_noerr _ _ _ _ _ _ _ _ Hinit Hadd)
    as (res1 & e1 & wa & e' & Hop & Hnoerr & Hinit1 & Hmd' & Hrs').
  destruct (addPolicy_noerr _ _ _ _ _ _ _ Hop Hnoerr) as [Hmd1 Hrs1].
  assert (Hmodel : e_model e' = e_model e) by congruence.
  assert (Hrules : e_rules e' = mkRules (addRow (pRules (e_rules e)) row) (gRules (e_rules e))).
  { rewrite Hrs', Hrs1. reflexivity. }
  assert (Hv' : validEnforcer e' = true).
  { apply (validEnforcer_rules e); [assumption | assumption |].
    rewrite Hrules. simpl. apply wellSized_addRow; [|assumption].
    unfold validEnforcer in Hvalid. now apply andb_true_iff in Hvalid as [_ ?]. }
  split.
  - rewrite Enforce_answer, Hinit1, Enforce_valid by assumption.
    f_equal. apply existsb_exists. exists row. split.
    + rewrite Hrules. simpl. apply addRow_In.
    + rewrite Hmodel, <- Hrow. apply rowMatches_roles. now rewrite Hrules.
  - intros ok2 m2 w2 w3 Hrem.
    destruct (mutate_noerr _ _ _ _ _ _ _ _ Hinit1 Hrem)
      as (res2 & e2 & wb & e'' & Hop2 & Hnoerr2 & Hinit2 & Hmd'' & Hrs'').
    destruct (removePolicy_noerr _ _ _ _ _ _ _ Hop2 Hnoerr2) as [Hmd2 Hrs2].
    assert (Hrules2 : e_rules e''
                      = mkRules (removeRowAll (pRules (e_rules e)) row) (gRules (e_rules e))).
    { rewrite Hrs'', Hrs2, Hrules. unfold modelRemovePolicy. simpl.
      now rewrite removeRowAll_addRow. }
    assert (Hv'' : validEnforcer e'' = true).
    { apply (validEnforcer_rules e); [assumption | congruence |].
      rewrite Hrules2. simpl. apply wellSized_removeRowAll.
      unfold validEnforcer in Hvalid. now apply andb_true_iff in Hvalid as [_ ?]. }
    rewrite Enforce_answer, Hinit2, Enforce_valid by assumption.
    f_equal. rewrite Hrules2. simpl. rewrite existsb_filter_ne.
    unfold otherRowMatches.
    replace (e_model e'') with (e_model e) by congruence.
    apply existsb_pointwise. intros r.
    now rewrite (rowMatches_roles _ _ (e_rules e)).
Qed.

Lemma AddPolicy_then_RemovePolicy_witness :
  fst (Authz.Enforce (snd (fst (Authz.AddPolicy adminModule ["editor"; "/api/posts"; "POST"]
                                                emptyWorld)))
                     "editor" "/api/posts" "POST"
                     (snd (Authz.AddPolicy adminModule ["editor"; "/api/posts"; "POST"]
                                           emptyWorld))) = (true, None)
  /\ forall (ok2 : bool) (m2 : Authz.CasbinModule) (w2 w3 : World),
      Authz.RemovePolicy (snd (fst (Authz.AddPolicy adminModule ["editor"; "/api/posts"; "POST"]
                                                    emptyWorld)))
                         ["editor"; "/api/posts"; "POST"]
                         (snd (Authz.AddPolicy adminModule ["editor"; "/api/posts"; "POST"]
                                               emptyWorld))
      = (((ok2, None), m2), w2) ->
      fst (Authz.Enforce m2 "editor" "/api/posts" "POST" w3) = (false, None).
Proof.
  apply (AddPolicy_then_RemovePolicy adminModule _ adminEnforcer
           ["editor"; "/api/posts"; "POST"] "editor" "/api/posts" "POST"
           emptyWorld _ true); reflexivity.
Defined.

(** C2 as stated fails: with the policy row (admin, /api, GET) and alice in
    role admin, adding and then removing the row (alice, /api, GET) leaves
    alice allowed, through the role. *)
Lemma AddPolicy_then_RemovePolicy_counterexample :
  ~ (forall (m m1 m2 : Authz.CasbinModule) (e : Enforcer) (row : list string)
            (sub obj act : string) (w w1 w2 : World) (ok1 ok2 : bool),
        Authz.enforcer_ m = Some e ->
        validEnforcer e = true ->
        length row = p_tokens (e_model e) ->
        Authz.AddPolicy m row w = (((ok1, None), m1), w1) ->
        rowMatches (e_model e) (e_rules e) [sub; obj; act] row = true ->
        Authz.RemovePolicy m1 row w1 = (((ok2, None), m2), w2) ->
        fst (Authz.Enforce m2 sub obj act w2) = (false, None)).
Proof.
  intros Hclaim.
  specialize (Hclaim adminModule _ _ adminEnforcer ["alice"; "/api"; "GET"]
                     "alice" "/api" "GET" emptyWorld _ _ true true
                     eq_refl eq_refl eq_refl eq_refl eq_refl eq_refl).
  discriminate Hclaim.
Qed.

End Queries.

(** * The enforcement module: initialization *)

Section Initialization.
Context `{GoLibs}.
Import casbin enforcer.

(** [buildAdapter] reads the name and the configuration of the module only. *)
Lemma buildAdapter_config (m m' : Authz.CasbinModule) (w : World) :
  Authz.name m' = Authz.name m -> Authz.config m' = Authz.config m ->
  Authz.buildAdapter m' w = Authz.buildAdapter m w.
Proof.
  intros Hn Hc. unfold Authz.buildAdapter, Authz.buildGORMAdapter.
  now rewrite Hn, Hc.
Qed.

(** [Init] does not read the enforcer the module holds: it fails or succeeds
    alike, and on success installs the same new enforcer. *)
Lemma Init_ignores_enforcer (m : Authz.CasbinModule) (held : option Enforcer) (w : World) :
  Authz.Init (Authz.mkModule (Authz.name m) (Authz.config m) held) w =
  let '((err, m1), w1) := Authz.Init m w in
  ((err, match err with
         | None => m1
         | Some _ => Authz.mkModule (Authz.name m) (Authz.config m) held
         end), w1).
Proof.
  unfold Authz.Init. simpl Authz.config. simpl Authz.name.
  destruct (NewModelFromString _) as [md|]; [|reflexivity].
  unfold bind.
  rewrite (buildAdapter_config m (Authz.mkModule (Authz.name m) (Authz.config m) held))
    by reflexivity.
  destruct (Authz.buildAdapter m w) as [[ad|err] w1]; [|reflexivity].
  destruct (NewEnforcer md ad w1) as [[e|err] w2]; reflexivity.
Qed.

Lemma supportedDriver_cases (d : string) :
  supportedDriver d =
  (String.eqb d "postgres" || String.eqb d "postgresql" || String.eqb d "mysql"
   || String.eqb d "sqlite3" || String.eqb d "sqlite").
Proof. reflexivity. Qed.

(** C9, amended: a module configured with the relational adapter whose
    driver name, lower-cased, is none of postgres, postgresql, mysql, sqlite3
    and sqlite fails to initialize before any store access: the world is
    untouched and the module keeps the enforcer it had, so a module that was
    never initialized stays so and its [Enforce] fails with the
    not-initialized error.  When the model text parses and a DSN is given,
    the failure is the unsupported-driver configuration error. *)
Theorem Init_unsupported_driver (m : Authz.CasbinModule) (w : World) :
  relational m = true ->
  supportedDriver (ToLower (Authz.Driver (Authz.Adapter (Authz.config m)))) = false ->
  exists err,
    Authz.Init m w = ((Some err, m), w)
    /\ (NewModelFromString (Authz.Model (Authz.config m)) <> None ->
        Authz.DSN (Authz.Adapter (Authz.config m)) <> "" ->
        err = ErrWrap "build adapter"
                (ErrUnsupportedDriver (Authz.name m)
                   (Authz.Driver (Authz.Adapter (Authz.config m)))))
    /\ (Authz.enforcer_ m = None ->
        forall (sub obj act : string) (w' : World),
          Authz.Enforce m sub obj act w' = ((false, Some (ErrNotInitialized (Authz.name m))), w')).
Proof.
  unfold relational. intros Hrel Hdrv. apply String.eqb_eq in Hrel.
  assert (Hbuild : exists cause,
             Authz.buildAdapter m w = (Fail cause, w)
             /\ (Authz.DSN (Authz.Adapter (Authz.config m)) <> "" ->
                 cause = ErrUnsupportedDriver (Authz.name m)
                           (Authz.Driver (Authz.Adapter (Authz.config m))))).
  { unfold Authz.buildAdapter, Authz.buildGORMAdapter. rewrite Hrel. simpl.
    destruct (isEmpty (Authz.DSN (Authz.Adapter (Authz.config m)))) eqn:Hdsn.
    - eexists. split; [reflexivity|]. apply isEmpty_true in Hdsn. intros; contradiction.
    - rewrite supportedDriver_cases in Hdrv. rewrite Hdrv.
      eexists. split; reflexivity. }
  destruct Hbuild as (cause & Hbuild & Hcause).
  unfold Authz.Init.
  destruct (NewModelFromString (Authz.Model (Authz.config m))) as [md|] eqn:Hparse.
  - unfold bind. rewrite Hbuild. eexists. split; [reflexivity|]. split.
    + intros _ Hdsn. now rewrite Hcause.
    + intros Hnil sub obj act w'. unfold Authz.Enforce. now rewrite Hnil.
  - eexists. split; [reflexivity|]. split.
    + intros Hne. contradiction.
    + intros Hnil sub obj act w'. unfold Authz.Enforce. now rewrite Hnil.
Qed.

Lemma dialectorOf_SQLite (d : string) :
  supportedDriver d = true ->
  Authz.dialectorOf d = GormAdapter.SQLite ->
  String.eqb d "sqlite3" || String.eqb d "sqlite" = true.
Proof.
  unfold supportedDriver, Authz.dialectorOf.
  destruct (String.eqb d "postgres"), (String.eqb d "postgresql"), (String.eqb d "mysql");
    simpl; try discriminate. auto.
Qed.

(** [Init] reaches the store to read it only: table rows and files stay as
    they are; and a second run over the same rows and files, answered by the
    database, installs the same enforcer. *)
Lemma Init_again (m m1 : Authz.CasbinModule) (w w1 w' : World) :
  Authz.Init m w = ((None, m1), w1) ->
  sameStore w w' ->
  (relational m = true -> migratable m w') ->
  sameStore w w1
  /\ exists w2, Authz.Init m w' = ((None, m1), w2) /\ sameStore w' w2.
Proof.
  unfold Authz.Init, relational, migratable, sqliteBacked, sameStore, calm.
  destruct (NewModelFromString _) as [md|]; [|discriminate].
  unfold bind, Authz.buildAdapter.
  destruct w as [[rows faults table] files trace], w' as [[rows' faults' table'] files' trace'].
  simpl. intros Hinit [<- <-] Hcalm.
  destruct (String.eqb (ToLower _) "" || String.eqb (ToLower _) "memory").
  { (* in-memory adapter *)
    revert Hinit. unfold NewEnforcer, adapterLoadPolicy. mrun.
    destruct (MemAdapter.LoadPolicy _ _) as [[err|] rs]; intros Hinit;
      inversion Hinit; subst; simpl.
    split; [now split|]. eexists. split; [reflexivity | now split]. }
  destruct (String.eqb (ToLower _) "file").
  { (* file adapter *)
    revert Hinit. destruct (isEmpty _); [discriminate|].
    unfold NewEnforcer, adapterLoadPolicy, FileAdapter.LoadPolicy. mrun.
    destruct (files !! _) as [lines|]; simpl; [|discriminate].
    destruct (FileAdapter.loadFileLines _ _) as [[err|] rs]; intros Hinit;
      inversion Hinit; subst; simpl.
    split; [now split|]. eexists. split; [reflexivity | now split]. }
  destruct (String.eqb (ToLower _) "gorm"); [|discriminate].
  destruct (Hcalm eq_refl) as [Hcalm' Hsqlite].
  revert Hinit. unfold Authz.buildGORMAdapter.
  destruct (isEmpty _); [discriminate|].
  rewrite <- supportedDriver_cases.
  destruct (supportedDriver _) eqn:Hsup; [|discriminate].
  pose proof (dialectorOf_SQLite _ Hsup) as Hdial.
  unfold Authz.gormOpen, GormAdapter.newGORMAdapter, GormAdapter.AutoMigrate, NewEnforcer,
    adapterLoadPolicy, GormAdapter.LoadPolicy, GormAdapter.dbFind.
  mrun.
  destruct (Authz.dialectorOf _);
    try (specialize (Hsqlite (Hdial eq_refl)); subst table');
    destruct faults as [|[] [|[] [|[] faults]]]; simpl; try discriminate;
    destruct faults' as [|[] [|[] [|[] faults']]]; simpl in Hcalm'; try discriminate;
    destruct table; try destruct table'; simpl; try discriminate;
    intros Hinit; inversion Hinit; subst; simpl;
    (split; [now split|]); eexists; (split; [reflexivity | now split]).
Qed.

Lemma Init_sameStore (m m1 : Authz.CasbinModule) (w w1 : World) :
  Authz.Init m w = ((None, m1), w1) -> sameStore w w1.
Proof.
  intros Hinit.
  apply (Init_again m m1 w w1 (mkWorld (mkDB (db_rows (w_db w)) [] false) (w_files w) []) Hinit).
  - now split.
  - intros _. split; reflexivity.
Qed.

Lemma Init_success_shape (m m1 : Authz.CasbinModule) (w w1 : World) :
  Authz.Init m w = ((None, m1), w1) ->
  exists e, m1 = Authz.mkModule (Authz.name m) (Authz.config m) (Some e).
Proof.
  unfold Authz.Init. destruct (NewModelFromString _) as [md|]; [|discriminate].
  unfold bind. destruct (Authz.buildAdapter m w) as [[ad|err] wa]; [|discriminate].
  destruct (NewEnforcer md ad wa) as [[e|err] wb]; [|discriminate].
  intros Heq. inversion Heq. now exists e.
Qed.

(** Where the second migrate goes through (the in-memory and the file
    adapter, and the relational adapter over postgres or mysql with the
    database answering), calling [Init] again after it has succeeded is not
    an error; it installs an enforcer equal to the first one whatever
    enforcer the module held in between, so every query is answered as after
    the first call; and the stored rows are left as they were. *)
Lemma Init_twice (m m1 : Authz.CasbinModule) (w w1 : World) :
  Authz.Init m w = ((None, m1), w1) ->
  (relational m = true -> calm w1 = true /\ sqliteBacked m = false) ->
  exists w2,
    Authz.Init m1 w1 = ((None, m1), w2)
    /\ sameStore w1 w2
    /\ (forall held : option Enforcer,
          fst (Authz.Init (Authz.mkModule (Authz.name m) (Authz.config m) held) w1)
          = (None, m1))
    /\ (forall (sub obj act : string) (w3 : World),
          fst (Authz.Enforce (snd (fst (Authz.Init m1 w1))) sub obj act w3)
          = fst (Authz.Enforce m1 sub obj act w3)).
Proof.
  intros Hinit Hcalm.
  pose proof (Init_sameStore _ _ _ _ Hinit) as Hstore.
  assert (Hmig : relational m = true -> migratable m w1).
  { intros Hrel. destruct (Hcalm Hrel) as [Hc Hs]. split; [assumption|].
    rewrite Hs. discriminate. }
  destruct (Init_again m m1 w w1 w1 Hinit Hstore Hmig) as [_ (w2 & Hagain & Hstore2)].
  destruct (Init_success_shape _ _ _ _ Hinit) as [e ->].
  assert (Hheld : forall held : option Enforcer,
             Authz.Init (Authz.mkModule (Authz.name m) (Authz.config m) held) w1
             = ((None, Authz.mkModule (Authz.name m) (Authz.config m) (Some e)), w2)).
  { intros held. now rewrite Init_ignores_enforcer, Hagain. }
  exists w2. split; [apply Hheld|]. split; [exact Hstore2|]. split.
  - intros held. now rewrite Hheld.
  - intros sub obj act w3. now rewrite Hheld.
Qed.

(** A relational module on the sqlite dialector whose database already has
    the table (and answers) does not get through [Init]: the migrate is
    refused, the error is returned wrapped, and the module keeps what it
    had. *)
Lemma Init_sqlite_existing_table (m : Authz.CasbinModule) (w : World) :
  relational m = true ->
  sqliteBacked m = true ->
  NewModelFromString (Authz.Model (Authz.config m)) <> None ->
  Authz.DSN (Authz.Adapter (Authz.config m)) <> "" ->
  db_table (w_db w) = true ->
  calm w = true ->
  fst (Authz.Init m w)
  = (Some migrateRefused, m).
Proof.
  unfold relational, sqliteBacked, calm, Authz.Init.
  intros Hrel Hsq Hmodel Hdsn Htable Hcalm.
  destruct (NewModelFromString _) as [md|]; [|contradiction].
  apply String.eqb_eq in Hrel. apply isEmpty_false in Hdsn.
  unfold bind, Authz.buildAdapter, Authz.buildGORMAdapter. rewrite Hrel, Hdsn. simpl.
  assert (Hsup : supportedDriver (ToLower (Authz.Driver (Authz.Adapter (Authz.config m))))
                 = true).
  { unfold supportedDriver. apply orb_true_iff in Hsq as [-> | ->];
      rewrite ?orb_true_r; reflexivity. }
  rewrite supportedDriver_cases in Hsup. rewrite Hsup.
  assert (Hdial : Authz.dialectorOf (ToLower (Authz.Driver (Authz.Adapter (Authz.config m))))
                  = GormAdapter.SQLite).
  { unfold Authz.dialectorOf.
    apply orb_true_iff in Hsq as [Heq | Heq]; apply String.eqb_eq in Heq; now rewrite Heq. }
  rewrite Hdial.
  unfold Authz.gormOpen, GormAdapter.newGORMAdapter, GormAdapter.AutoMigrate. mrun.
  destruct w as [[rows faults table] files trace]; simpl in *. subst table.
  destruct faults as [|[] [|[] faults]]; simpl in *; try discriminate; reflexivity.
Qed.

End Initialization.

(** The module of the examples is what [Init] makes of its configuration. *)
Example Init_adminModule :
  @Authz.Init exampleLibs adminModule0 emptyWorld
  = ((None, adminModule), mkWorld (mkDB [] [] false) ∅ [EvLoadPolicy]).
Proof. vm_compute. reflexivity. Qed.

(** After a mutation, [Init] puts the configured policy set back. *)
Example Init_replaces_mutated_rules :
  fst (@Authz.Init exampleLibs
         (snd (fst (Authz.AddPolicy adminModule ["editor"; "/api/posts"; "POST"] emptyWorld)))
         emptyWorld)
  = (None, adminModule).
Proof. vm_compute. reflexivity. Qed.

Example Init_twice_in_memory :
  exists w2,
    @Authz.Init exampleLibs adminModule
                (snd (@Authz.Init exampleLibs adminModule0 emptyWorld))
    = ((None, adminModule), w2).
Proof.
  destruct (@Init_twice exampleLibs adminModule0 adminModule emptyWorld
              (snd (@Authz.Init exampleLibs adminModule0 emptyWorld))
              eq_refl (fun Hrel => conj eq_refl eq_refl)) as (w2 & Hagain & _).
  exists w2. exact Hagain.
Qed.

(** Over postgres the second [Init] goes through and installs the same
    enforcer. *)
Example Init_twice_postgres :
  exists m1 w1 w2,
    @Authz.Init exampleLibs postgresModule emptyWorld = ((None, m1), w1)
    /\ @Authz.Init exampleLibs m1 w1 = ((None, m1), w2).
Proof. do 3 eexists. split; vm_compute; reflexivity. Qed.

(** C3: the second [Init] of a module over a SQLite database file is an
    error.  The first call creates the table and installs an enforcer; the
    second call, with the same configuration and a database that answers
    every statement, is refused at the migrate, returns that error and
    leaves the first enforcer in place. *)
Theorem Init_twice_sqlite_file :
  exists (m1 : Authz.CasbinModule) (w1 w2 : World),
    @Authz.Init exampleLibs sqliteFileModule emptyWorld = ((None, m1), w1)
    /\ Authz.enforcer_ m1 <> None
    /\ db_faults (w_db w1) = []
    /\ @Authz.Init exampleLibs m1 w1 = ((Some migrateRefused, m1), w2)
    /\ sameStore w1 w2.
Proof.
  do 3 eexists. split; [vm_compute; reflexivity|].
  split; [discriminate|]. split; [reflexivity|].
  split; [vm_compute; reflexivity | split; reflexivity].
Qed.

Lemma Init_unsupported_driver_witness :
  exists err,
    @Authz.Init exampleLibs (Authz.mkModule "authz" (gormConfig "oracle" "whatever") None)
                emptyWorld
    = ((Some err, Authz.mkModule "authz" (gormConfig "oracle" "whatever") None), emptyWorld).
Proof.
  destruct (@Init_unsupported_driver exampleLibs
              (Authz.mkModule "authz" (gormConfig "oracle" "whatever") None) emptyWorld
              eq_refl eq_refl) as (err & Hinit & _).
  exists err. exact Hinit.
Defined.

(** With the driver "sqlite" the module initializes, and the database is
    opened, migrated and read. *)
Example Init_sqlite_alias :
  exists m1,
    @Authz.Init exampleLibs (Authz.mkModule "authz" (gormConfig "sqlite" ":memory:") None)
                emptyWorld
    = ((None, m1),
       mkWorld (mkDB [] [] true) ∅ [EvOpenDB "sqlite" ":memory:"; EvAutoMigrate; EvLoadPolicy])
    /\ Authz.enforcer_ m1 <> None.
Proof. eexists. split; [vm_compute; reflexivity | discriminate]. Qed.

(** C9 as stated fails: "sqlite" is outside (postgres, mysql, sqlite3), yet
    the module initializes, and the store is reached. *)
Lemma Init_unsupported_driver_counterexample :
  ~ (forall (L : GoLibs) (m : Authz.CasbinModule) (w : World),
        @relational L m = true ->
        ~ In (Authz.Driver (Authz.Adapter (Authz.config m))) ["postgres"; "mysql"; "sqlite3"] ->
        exists err, fst (fst (@Authz.Init L m w)) = Some err).
Proof.
  intros Hclaim.
  destruct (Hclaim exampleLibs (Authz.mkModule "authz" (gormConfig "sqlite" ":memory:") None)
                   emptyWorld eq_refl) as (err & Herr).
  - simpl. intros [Heq | [Heq | [Heq | []]]]; discriminate Heq.
  - vm_compute in Herr. discriminate Herr.
Qed.

(** * The check step: facts *)

Section CheckStepFacts.
Context `{GoLibs}.
Import CheckStep.

(** [stringAt] is empty exactly when the key holds no non-empty string:
    the key is absent, or holds another kind of value, or the empty string. *)
Lemma stringAt_empty (m : gmap string any) (key : string) :
  stringAt m key = "" <-> (forall v, m !! key = Some (AStr v) -> v = "").
Proof.
  unfold stringAt. split.
  - intros Hs v Hv. now rewrite Hv in Hs.
  - intros Hv. destruct (m !! key) as [[]|]; try reflexivity. now apply Hv.
Qed.

Lemma firstSubject_none (key : string) (stepOutputs : list (string * gmap string any)) :
  Forall (fun out => stringAt (snd out) key = "") stepOutputs ->
  firstSubject key stepOutputs = "".
Proof.
  induction 1 as [|[n out] rest Hout _ IH]; simpl; [reflexivity|].
  simpl in Hout. now rewrite Hout.
Qed.

Lemma resolveSubject_none (key : string) (stepOutputs : list (string * gmap string any))
      (current triggerData : gmap string any) :
  Forall (fun out => stringAt (snd out) key = "") stepOutputs ->
  stringAt current key = "" ->
  stringAt triggerData key = "" ->
  resolveSubject key stepOutputs current triggerData = "".
Proof.
  intros Hout Hcur Htrig. unfold resolveSubject.
  now rewrite (firstSubject_none _ _ Hout), Hcur, Htrig.
Qed.

(** What every 403 outcome carries. *)
Lemma forbiddenResult_fields (msg : string) :
  StopPipeline (forbiddenResult msg) = true
  /\ Output (forbiddenResult msg) !! "response_status" = Some (AInt 403)
  /\ Output (forbiddenResult msg) !! "response_body" = Some (AStr (errorBody msg))
  /\ Output (forbiddenResult msg) !! "authz_allowed" = Some (ABool false)
  /\ Output (forbiddenResult msg) !! "audit_event" = None.
Proof. repeat split; reflexivity. Qed.

(** C5: when no prior step output, nor the current context, nor the trigger
    data holds a non-empty string under the subject key, the check step
    returns the 403 outcome with the stop flag and leaves the world as it
    found it: no registry lookup and no call of the engine is recorded. *)
Theorem Execute_missing_subject (s : authzCheckStep) (triggerData : gmap string any)
        (stepOutputs : list (string * gmap string any)) (current : gmap string any)
        (w : World) :
  Forall (fun out => stringAt (snd out) (subjectKey s) = "") stepOutputs ->
  stringAt current (subjectKey s) = "" ->
  stringAt triggerData (subjectKey s) = "" ->
  Execute s triggerData stepOutputs current w = (Ok (forbiddenResult missingSubject), w)
  /\ StopPipeline (forbiddenResult missingSubject) = true
  /\ Output (forbiddenResult missingSubject) !! "authz_allowed" = Some (ABool false)
  /\ Output (forbiddenResult missingSubject) !! "response_status" = Some (AInt 403).
Proof.
  intros Hout Hcur Htrig. split.
  - unfold Execute. now rewrite (resolveSubject_none _ _ _ _ Hout Hcur Htrig).
  - pose proof (forbiddenResult_fields missingSubject) as (? & ? & ? & ? & ?).
    now repeat split.
Qed.

(** C6: when the subject is found, object and action resolve, the module is
    registered and its [Enforce] answers [false] without error, the step
    returns (with a nil error) the outcome that stops the pipeline, with
    status 403, the allowed flag [false], and an error body that quotes the
    message naming subject, action and object. *)
Theorem Execute_denied (s : authzCheckStep) (triggerData : gmap string any)
        (stepOutputs : list (string * gmap string any)) (current : gmap string any)
        (w : World) (mod_ : Authz.CasbinModule) (subject object action : string) :
  resolveSubject (subjectKey s) stepOutputs current triggerData = subject ->
  subject <> "" ->
  resolve (CheckStep.object s) (objectTmpl s)
          (buildTemplateData triggerData stepOutputs current) = Ok object ->
  resolve (CheckStep.action s) (actionTmpl s)
          (buildTemplateData triggerData stepOutputs current) = Ok action ->
  registry s (moduleName s) = Some mod_ ->
  fst (Authz.Enforce mod_ subject object action w) = (false, None) ->
  exists (r : StepResult) (w' : World),
    Execute s triggerData stepOutputs current w = (Ok r, w')
    /\ StopPipeline r = true
    /\ Output r !! "response_status" = Some (AInt 403)
    /\ Output r !! "response_body"
       = Some (AStr (errorBody ("forbidden: " ++ subject ++ " is not permitted to "
                                ++ action ++ " " ++ object)))
    /\ Output r !! "authz_allowed" = Some (ABool false).
Proof.
  intros Hsub Hne Hobj Hact Hreg Henf.
  unfold Execute. rewrite Hsub.
  apply isEmpty_false in Hne. rewrite Hne, Hobj, Hact.
  unfold bind, emit. rewrite Hreg.
  rewrite Enforce_answer in Henf.
  pose proof (Enforce_answer mod_ subject object action
                (mkWorld (w_db w) (w_files w) (w_trace w ++ [EvGetEnforcer (moduleName s)])))
    as Hans.
  rewrite Henf in Hans.
  destruct (Authz.Enforce mod_ subject object action _) as [[allowed err] w'].
  simpl in Hans. injection Hans as -> ->.
  pose proof (forbiddenResult_fields (forbiddenMessage subject action object))
    as (? & ? & ? & ? & ?).
  eexists. eexists. split; [reflexivity|]. now repeat split.
Qed.

(** No outcome of the check step carries an audit record, and the
    constructor does not read the audit key. *)
Lemma Execute_no_audit_event (s : authzCheckStep) (triggerData : gmap string any)
      (stepOutputs : list (string * gmap string any)) (current : gmap string any)
      (w w' : World) (r : StepResult) :
  Execute s triggerData stepOutputs current w = (Ok r, w') ->
  Output r !! "audit_event" = None.
Proof.
  unfold Execute.
  destruct (isEmpty _).
  { intros Heq. inversion Heq. reflexivity. }
  destruct (resolve (CheckStep.object s) _ _) as [object|]; [|discriminate].
  destruct (resolve (CheckStep.action s) _ _) as [action|]; [|discriminate].
  unfold bind, emit. destruct (registry s (moduleName s)) as [mod_|]; [|discriminate].
  destruct (Authz.Enforce _ _ _ _ _) as [[allowed [err|]] w1]; [discriminate|].
  destruct allowed; intros Heq; inversion Heq; reflexivity.
Qed.

Lemma newAuthzCheckStep_ignores_audit (reg : moduleRegistry) (stepName : string)
      (config : gmap string any) (v : any) :
  newAuthzCheckStep reg stepName (<["audit" := v]> config)
  = newAuthzCheckStep reg stepName config.
Proof.
  unfold newAuthzCheckStep, stringAt.
  now rewrite !lookup_insert_ne by discriminate.
Qed.

End CheckStepFacts.

(** The constructor builds the step of the examples from its configuration. *)
Example newAuthzCheckStep_deleteApi :
  @CheckStep.newAuthzCheckStep exampleLibs adminRegistry "check" deleteApiConfig
  = Ok deleteApiStep.
Proof. vm_compute. reflexivity. Qed.

Lemma Execute_missing_subject_witness :
  @CheckStep.Execute exampleLibs deleteApiStep ∅ [("step0", ∅)] ∅ emptyWorld
  = (Ok (@CheckStep.forbiddenResult exampleLibs missingSubject), emptyWorld)
  /\ StopPipeline (@CheckStep.forbiddenResult exampleLibs missingSubject) = true
  /\ Output (@CheckStep.forbiddenResult exampleLibs missingSubject) !! "authz_allowed"
     = Some (ABool false)
  /\ Output (@CheckStep.forbiddenResult exampleLibs missingSubject) !! "response_status"
     = Some (AInt 403).
Proof.
  apply (@Execute_missing_subject exampleLibs deleteApiStep ∅ [("step0", ∅)] ∅ emptyWorld).
  - repeat constructor.
  - reflexivity.
  - reflexivity.
Defined.

Lemma Execute_denied_witness :
  exists (r : StepResult) (w' : World),
    @CheckStep.Execute exampleLibs deleteApiStep ∅ [] carolContext emptyWorld = (Ok r, w')
    /\ StopPipeline r = true
    /\ Output r !! "response_status" = Some (AInt 403)
    /\ Output r !! "response_body"
       = Some (AStr (@errorBody exampleLibs
                       ("forbidden: " ++ "carol" ++ " is not permitted to "
                        ++ "DELETE" ++ " " ++ "/api")))
    /\ Output r !! "authz_allowed" = Some (ABool false).
Proof.
  apply (@Execute_denied exampleLibs deleteApiStep ∅ [] carolContext emptyWorld
           adminModule "carol" "/api" "DELETE").
  - reflexivity.
  - discriminate.
  - reflexivity.
  - reflexivity.
  - reflexivity.
  - reflexivity.
Defined.

(** C7 at the input of the audit test: with [audit: true] configured and
    alice allowed, the step is built, runs, allows, and its output has no
    audit record. *)
Theorem audit_flag_is_ignored :
  exists (s : CheckStep.authzCheckStep) (r : StepResult) (w' : World),
    @CheckStep.newAuthzCheckStep exampleLibs postsRegistry "test-step" auditConfig = Ok s
    /\ @CheckStep.Execute exampleLibs s ∅ [] aliceContext emptyWorld = (Ok r, w')
    /\ StopPipeline r = false
    /\ Output r !! "authz_allowed" = Some (ABool true)
    /\ Output r !! "audit_event" = None.
Proof.
  eexists. eexists. eexists.
  split; [vm_compute; reflexivity|].
  split; [vm_compute; reflexivity|].
  repeat split; reflexivity.
Qed.

(** * The role-assign step: facts *)

Section RoleAssignFacts.
Context `{GoLibs}.
Import RoleAssignStep.

Lemma parseAction_accepts (stepName : string) (config : gmap string any) :
  actionAccepted config ->
  parseAction stepName config
  = Ok (if isEmpty (stringAt config "action") then "add" else stringAt config "action").
Proof.
  unfold actionAccepted, parseAction.
  intros [-> | [-> | ->]]; reflexivity.
Qed.

Lemma parseAction_refuses (stepName : string) (config : gmap string any) (v : string) :
  config !! "action" = Some (AStr v) ->
  v <> "" -> v <> "add" -> v <> "remove" ->
  parseAction stepName config = Fail (ErrRoleAction stepName v).
Proof.
  intros Hv Hne Hadd Hrem. unfold parseAction, stringAt. rewrite Hv.
  apply isEmpty_false in Hne. rewrite Hne. simpl.
  apply String.eqb_neq in Hadd, Hrem. now rewrite Hadd, Hrem.
Qed.

(** The loop over the assignments succeeds on well-formed pairs, one compiled
    assignment per pair. *)
Lemma compileAssignments_ok (stepName : string) (raw : list any) (i : nat) :
  pairsWellFormed raw ->
  exists assignments,
    compileAssignments stepName i raw = Ok assignments
    /\ length assignments = length raw.
Proof.
  unfold pairsWellFormed. intros Hall. revert i.
  induction Hall as [|a rest (row & Hrow & Hlen) _ IH]; intros i; simpl.
  - now exists [].
  - rewrite Hrow.
    destruct (length row <? 2)%nat eqn:Hlt; [apply Nat.ltb_lt in Hlt; lia|].
    destruct (compileRuleTemplates row) as [st ts].
    destruct (IH (S i)) as (more & -> & Hmore).
    eexists. split; [reflexivity|]. simpl. now rewrite Hmore.
Qed.

(** and fails as soon as one pair has fewer than two fields. *)
Lemma compileAssignments_short (stepName : string) (raw : list any) (i j : nat)
      (a : any) (row : list string) :
  raw !! j = Some a -> toStringSlice a = Ok row -> length row < 2 ->
  exists err, compileAssignments stepName i raw = Fail err.
Proof.
  revert i j. induction raw as [|b rest IH]; intros i j Hj Hrow Hlen; [discriminate|].
  simpl. destruct j as [|j]; simpl in Hj.
  - injection Hj as ->. rewrite Hrow.
    apply Nat.ltb_lt in Hlen. rewrite Hlen. now eexists.
  - destruct (toStringSlice b) as [rowb|err]; [|now eexists].
    destruct (length rowb <? 2)%nat; [now eexists|].
    destruct (compileRuleTemplates rowb) as [st ts].
    destruct (IH (S i) j Hj Hrow Hlen) as (err & ->). now eexists.
Qed.

Lemma parseAction_inv (stepName : string) (config : gmap string any) (act : string) :
  parseAction stepName config = Ok act -> actionAccepted config.
Proof.
  unfold parseAction, actionAccepted.
  destruct (isEmpty (stringAt config "action")) eqn:Hempty; simpl.
  - intros _. left. now apply isEmpty_true.
  - destruct (String.eqb (stringAt config "action") "add") eqn:Hadd; simpl.
    + intros _. right. left. now apply String.eqb_eq.
    + destruct (String.eqb (stringAt config "action") "remove") eqn:Hrem; [|discriminate].
      intros _. right. right. now apply String.eqb_eq.
Qed.

Lemma compileAssignments_inv (stepName : string) (raw : list any) (i : nat)
      (assignments : list roleAssignment) :
  compileAssignments stepName i raw = Ok assignments -> pairsWellFormed raw.
Proof.
  unfold pairsWellFormed. revert i assignments.
  induction raw as [|a rest IH]; intros i assignments; simpl; [constructor|].
  destruct (toStringSlice a) as [row|err] eqn:Hrow; [|discriminate].
  destruct (length row <? 2)%nat eqn:Hlt; [discriminate|].
  destruct (compileRuleTemplates row) as [st ts].
  destruct (compileAssignments stepName (S i) rest) as [more|err] eqn:Hmore; [|discriminate].
  intros _. constructor.
  - exists row. split; [exact Hrow|]. apply Nat.ltb_ge in Hlt. exact Hlt.
  - exact (IH _ _ Hmore).
Qed.

(** C8, amended: the role-assign constructor succeeds exactly when the
    action is accepted (absent, not a string, empty, "add" or "remove") and the
    assignments are a non-empty list of pairs of at least two string fields.
    So it fails, at construction, when the action is a non-empty string other
    than "add" and "remove" and when some assignment pair has fewer than two
    fields; an empty action is read as "add". *)
Theorem newAuthzRoleAssignStep_validation (reg : moduleRegistry) (stepName : string)
        (config : gmap string any) :
  ((exists s, newAuthzRoleAssignStep reg stepName config = Ok s)
   <-> (actionAccepted config
        /\ exists raw, config !! "assignments" = Some (ASlice raw)
                       /\ raw <> [] /\ pairsWellFormed raw))
  /\
  (forall v : string,
      config !! "action" = Some (AStr v) -> v <> "" -> v <> "add" -> v <> "remove" ->
      newAuthzRoleAssignStep reg stepName config = Fail (ErrRoleAction stepName v))
  /\ (forall (raw : list any) (j : nat) (a : any) (row : list string),
        config !! "assignments" = Some (ASlice raw) ->
        raw !! j = Some a -> toStringSlice a = Ok row -> length row < 2 ->
        exists err, newAuthzRoleAssignStep reg stepName config = Fail err)
  /\ (forall raw : list any,
        actionAccepted config ->
        config !! "assignments" = Some (ASlice raw) -> raw <> [] ->
        pairsWellFormed raw ->
        exists s,
          newAuthzRoleAssignStep reg stepName config = Ok s
          /\ action s = (if isEmpty (stringAt config "action") then "add"
                         else stringAt config "action")
          /\ length (assignments s) = length raw).
Proof.
  split; [|split; [|split]].
  - split.
    + intros [s Hs]. revert Hs. unfold newAuthzRoleAssignStep.
      destruct (parseAction stepName config) as [act|err] eqn:Hact; [|discriminate].
      destruct (config !! "assignments") as [[| | | | |[|a rest]| |]|]; try discriminate.
      destruct (compileAssignments stepName 0 (a :: rest)) as [asg|err] eqn:Hasg;
        [|discriminate].
      intros _. split; [exact (parseAction_inv _ _ _ Hact)|].
      exists (a :: rest). split; [reflexivity|]. split; [discriminate|].
      exact (compileAssignments_inv _ _ _ _ Hasg).
    + intros (Hact & raw & Hraw & Hne & Hpairs). unfold newAuthzRoleAssignStep.
      rewrite (parseAction_accepts stepName config Hact), Hraw.
      destruct raw as [|b rest]; [contradiction|].
      destruct (compileAssignments_ok stepName (b :: rest) 0 Hpairs) as (asg & -> & _).
      now eexists.
  - intros v Hv Hne Hadd Hrem. unfold newAuthzRoleAssignStep.
    now rewrite (parseAction_refuses stepName config v).
  - intros raw j a row Hraw Hj Hrow Hlen. unfold newAuthzRoleAssignStep.
    destruct (parseAction stepName config) as [act|err]; [|now eexists].
    rewrite Hraw. destruct raw as [|b rest]; [discriminate|].
    destruct (compileAssignments_short stepName (b :: rest) 0 j a row Hj Hrow Hlen)
      as (err & ->).
    now eexists.
  - intros raw Hact Hraw Hne Hpairs. unfold newAuthzRoleAssignStep.
    rewrite (parseAction_accepts stepName config Hact), Hraw.
    destruct raw as [|b rest]; [contradiction|].
    destruct (compileAssignments_ok stepName (b :: rest) 0 Hpairs) as (asg & -> & Hlen).
    eexists. split; [reflexivity|]. now split.
Qed.

End RoleAssignFacts.

(** The constructor on the configurations of the repository's tests: an
    action "grant" and a pair of one field are refused, a pair of two fields
    with action "remove" is accepted. *)
Example newAuthzRoleAssignStep_invalid_action :
  @RoleAssignStep.newAuthzRoleAssignStep exampleLibs adminRegistry "bad-action"
    (<["action" := AStr "grant"]>
     (<["assignments" := ASlice [ASlice [AStr "user"; AStr "role"]]]> ∅))
  = Fail (ErrRoleAction "bad-action" "grant").
Proof. vm_compute. reflexivity. Qed.

Example newAuthzRoleAssignStep_short_pair :
  @RoleAssignStep.newAuthzRoleAssignStep exampleLibs adminRegistry "short-assign"
    (<["action" := AStr "add"]>
     (<["assignments" := ASlice [ASlice [AStr "only-one"]]]> ∅))
  = Fail (ErrAssignmentShape "short-assign" 0 ["only-one"]).
Proof. vm_compute. reflexivity. Qed.

Example newAuthzRoleAssignStep_remove :
  @RoleAssignStep.newAuthzRoleAssignStep exampleLibs adminRegistry "assign-remove"
    (<["action" := AStr "remove"]>
     (<["assignments" := ASlice [ASlice [AStr "dave"; AStr "admin"]]]> ∅))
  = Ok (RoleAssignStep.mkRoleStep "assign-remove" "authz" "remove"
          [RoleAssignStep.mkAssignment ["dave"; "admin"] [None; None]] adminRegistry).
Proof. vm_compute. reflexivity. Qed.

Example isTemplate_examples :
  isTemplate "{{.request_path}}" = true /\ isTemplate "/api/v1/tenants" = false.
Proof. split; reflexivity. Qed.

(** C8 as stated fails: an action configured as the empty string is outside
    {add, remove}, yet the step is constructed, with action "add". *)
Lemma newAuthzRoleAssignStep_counterexample :
  ~ (forall (L : GoLibs) (reg : moduleRegistry) (stepName : string)
            (config : gmap string any) (v : any),
        config !! "action" = Some v -> v <> AStr "add" -> v <> AStr "remove" ->
        exists err, @RoleAssignStep.newAuthzRoleAssignStep L reg stepName config = Fail err).
Proof.
  intros Hclaim.
  destruct (Hclaim exampleLibs adminRegistry "assign" emptyActionConfig (AStr ""))
    as (err & Herr).
  - reflexivity.
  - discriminate.
  - discriminate.
  - vm_compute in Herr. discriminate Herr.
Qed.

(** * The in-memory adapter: facts *)

Section MemAdapterFacts.
Import MemAdapter.

Lemma sliceEqual_eq (a b : list string) : sliceEqual a b = true <-> a = b.
Proof.
  revert b; induction a as [|x a IH]; intros [|y b]; simpl; split; try easy.
  - intros Hab. apply andb_true_iff in Hab as [Hxy Hrest].
    apply String.eqb_eq in Hxy. apply IH in Hrest. congruence.
  - intros Heq. injection Heq as -> ->. rewrite String.eqb_refl. now apply IH.
Qed.

Lemma sliceEqual_neq (a b : list string) : sliceEqual a b = false <-> a <> b.
Proof.
  destruct (sliceEqual a b) eqn:E.
  - apply sliceEqual_eq in E. split; [discriminate | contradiction].
  - split; [|reflexivity]. intros _ Heq. apply sliceEqual_eq in Heq. congruence.
Qed.

Lemma removeRow_absent (rows : list (list string)) (target : list string) :
  ~ In target rows -> removeRow rows target = rows.
Proof.
  induction rows as [|row rows IH]; simpl; intros Hnin; [reflexivity|].
  destruct (sliceEqual row target) eqn:E.
  - apply sliceEqual_eq in E. exfalso. apply Hnin. now left.
  - f_equal. apply IH. intros Hin. apply Hnin. now right.
Qed.

Lemma removeRow_split (before after : list (list string)) (target : list string) :
  ~ In target before -> removeRow (before ++ target :: after) target = before ++ after.
Proof.
  induction before as [|b before IH]; intros Hnin; simpl.
  - now rewrite (proj2 (sliceEqual_eq target target) eq_refl).
  - destruct (sliceEqual b target) eqn:E.
    + apply sliceEqual_eq in E. exfalso. apply Hnin. now left.
    + f_equal. apply IH. intros Hin. apply Hnin. now right.
Qed.

(** X1: [removeRow] takes out the first row equal to the target and nothing
    else: a row list without the target comes back as it is, and otherwise
    the rows before and after the first occurrence keep their order. *)
Theorem removeRow_first_occurrence (rows : list (list string)) (target : list string) :
  (~ In target rows -> removeRow rows target = rows)
  /\ (forall before after : list (list string),
         rows = before ++ target :: after -> ~ In target before ->
         removeRow rows target = before ++ after).
Proof.
  split.
  - apply removeRow_absent.
  - intros before after -> Hnin. now apply removeRow_split.
Qed.

Lemma removeRow_perm (rows : list (list string)) (target : list string) :
  In target rows -> Permutation (target :: removeRow rows target) rows.
Proof.
  induction rows as [|row rows IH]; simpl; intros Hin; [contradiction|].
  destruct (sliceEqual row target) eqn:E.
  - apply sliceEqual_eq in E. now subst.
  - destruct Hin as [Heq | Hin].
    + apply sliceEqual_neq in E. congruence.
    + rewrite perm_swap. constructor. now apply IH.
Qed.

(** X2: on the in-memory adapter, [RemovePolicy] after [AddPolicy] of the
    same rule gives back the rows of both sequences up to their order, and
    gives back the adapter itself when the rule was not stored before; neither
    call returns an error. *)
Theorem mem_AddPolicy_then_RemovePolicy (a : inMemoryAdapter) (sec : string)
        (rule : list string) :
  let added := AddPolicy a sec rule in
  let removed := RemovePolicy (snd added) sec rule in
  fst added = None /\ fst removed = None
  /\ Permutation (policies (snd removed)) (policies a)
  /\ Permutation (roleAssignments (snd removed)) (roleAssignments a)
  /\ (~ In rule (if String.eqb sec "g" then roleAssignments a else policies a) ->
      snd removed = a).
Proof.
  assert (Hperm : forall rows, Permutation (removeRow (rows ++ [rule]) rule) rows).
  { intros rows. apply (Permutation_cons_inv (a := rule)).
    rewrite removeRow_perm by (apply in_or_app; right; now left).
    symmetry. apply Permutation_cons_append. }
  assert (Hid : forall rows, ~ In rule rows -> removeRow (rows ++ [rule]) rule = rows).
  { intros rows Hnin.
    rewrite (removeRow_split rows [] rule Hnin). apply app_nil_r. }
  unfold AddPolicy, RemovePolicy. destruct a as [p r].
  destruct (String.eqb sec "g") eqn:Hsec; simpl; rewrite ?Hsec; simpl;
    repeat split; auto; intros Hnin; now rewrite Hid.
Qed.

Lemma wrapInt_small (z : Z) : (- 2 ^ 63 <= z < 2 ^ 63)%Z -> wrapInt z = z.
Proof.
  intros Hz. unfold wrapInt. rewrite Z.mod_small by lia. lia.
Qed.

Lemma position_small (fieldIndex : Z) (j n : nat) :
  (0 <= fieldIndex)%Z -> (fieldIndex + Z.of_nat n <= 2 ^ 63)%Z -> j < n ->
  position fieldIndex j = (fieldIndex + Z.of_nat j)%Z.
Proof.
  intros Hlo Hhi Hj. unfold position. apply wrapInt_small. lia.
Qed.

Lemma nth_is_lookup (row : list string) (n : nat) (v : string) :
  n < length row -> (nth n row "" = v <-> row !! n = Some v).
Proof.
  intros Hn. destruct (row !! n) as [x|] eqn:Hx.
  - rewrite (nth_lookup_Some _ _ "" _ Hx). split; congruence.
  - apply lookup_ge_None in Hx. lia.
Qed.

(** One turn of the loop of [matchesFilter]. *)
Lemma matchesFrom_head (row : list string) (fieldIndex : Z) (i : nat) (v : string)
      (vs : list string) :
  (fieldPasses row fieldIndex i v
   /\ matchesFrom row fieldIndex i (v :: vs) = matchesFrom row fieldIndex (S i) vs)
  \/ (~ fieldPasses row fieldIndex i v
      /\ (v <> "" /\ (position fieldIndex i < 0)%Z)
      /\ matchesFrom row fieldIndex i (v :: vs) = Panicked)
  \/ (~ fieldPasses row fieldIndex i v
      /\ ~ (v <> "" /\ (position fieldIndex i < 0)%Z)
      /\ matchesFrom row fieldIndex i (v :: vs) = Returned false).
Proof.
  unfold fieldPasses. cbn [matchesFrom].
  destruct (Z.leb_spec (Z.of_nat (length row)) (position fieldIndex i)) as [Hend|Hin].
  { right. right. split; [lia|]. split; [lia | reflexivity]. }
  destruct (isEmpty v) eqn:Hv; cbn [negb].
  { apply isEmpty_true in Hv. left. split; [|reflexivity]. split; [assumption | now left]. }
  apply isEmpty_false in Hv.
  destruct (Z.ltb_spec (position fieldIndex i) 0) as [Hneg|Hpos].
  { right. left. split; [|now split]. intros [_ [Hempty | [Hge _]]]; [contradiction | lia]. }
  assert (Hlen : Z.to_nat (position fieldIndex i) < length row) by lia.
  destruct (String.eqb (nth (Z.to_nat (position fieldIndex i)) row "") v) eqn:Heq; cbn [negb].
  - apply String.eqb_eq, (nth_is_lookup _ _ _ Hlen) in Heq.
    left. split; [|reflexivity]. split; [assumption|]. right. now split.
  - apply String.eqb_neq in Heq. right. right. split; [|split; [lia | reflexivity]].
    intros [_ [Hempty | [_ Hfield]]]; [contradiction|].
    apply (nth_is_lookup _ _ _ Hlen) in Hfield. contradiction.
Qed.

Lemma matchesFrom_true (row : list string) (fieldIndex : Z) (values : list string) (i : nat) :
  matchesFrom row fieldIndex i values = Returned true <->
  (forall (j : nat) (v : string),
      values !! j = Some v -> fieldPasses row fieldIndex (i + j) v).
Proof.
  revert i; induction values as [|v vs IH]; intros i.
  - split; [intros _ j v Hj; discriminate | reflexivity].
  - destruct (matchesFrom_head row fieldIndex i v vs)
      as [[Hpass ->] | [(Hno & _ & ->) | (Hno & _ & ->)]].
    + rewrite IH. split.
      * intros Hrest [|j] w Hj; simpl in Hj.
        -- injection Hj as <-. now rewrite Nat.add_0_r.
        -- rewrite Nat.add_succ_r. now apply Hrest.
      * intros Hall j w Hj. specialize (Hall (S j) w Hj).
        now rewrite Nat.add_succ_r in Hall.
    + split; [discriminate|]. intros Hall. specialize (Hall 0 v eq_refl).
      rewrite Nat.add_0_r in Hall. contradiction.
    + split; [discriminate|]. intros Hall. specialize (Hall 0 v eq_refl).
      rewrite Nat.add_0_r in Hall. contradiction.
Qed.

Lemma matchesFrom_panics (row : list string) (fieldIndex : Z) (values : list string)
      (i : nat) :
  matchesFrom row fieldIndex i values = Panicked <->
  (exists (j : nat) (v : string),
      values !! j = Some v /\ v <> "" /\ (position fieldIndex (i + j) < 0)%Z
      /\ forall (k : nat) (u : string),
          k < j -> values !! k = Some u -> fieldPasses row fieldIndex (i + k) u).
Proof.
  revert i; induction values as [|v vs IH]; intros i.
  - split; [discriminate|]. intros (j & v & Hj & _). discriminate.
  - destruct (matchesFrom_head row fieldIndex i v vs)
      as [[Hpass ->] | [(Hno & [Hv Hneg] & ->) | (Hno & Hnp & ->)]].
    + rewrite IH. split.
      * intros (j & w & Hj & Hw & Hneg & Hbefore). exists (S j), w.
        rewrite Nat.add_succ_r. do 3 (split; [assumption|]).
        intros [|k] u Hk Hu; simpl in Hu.
        -- injection Hu as <-. now rewrite Nat.add_0_r.
        -- rewrite Nat.add_succ_r. apply Hbefore; [lia | assumption].
      * intros ([|j] & w & Hj & Hw & Hneg & Hbefore); simpl in Hj.
        -- injection Hj as <-. rewrite Nat.add_0_r in Hneg.
           destruct Hpass as [_ [Hempty | [Hge _]]]; [contradiction | lia].
        -- exists j, w. rewrite Nat.add_succ_r in Hneg. do 3 (split; [assumption|]).
           intros k u Hk Hu. specialize (Hbefore (S k) u ltac:(lia) Hu).
           now rewrite Nat.add_succ_r in Hbefore.
    + split; [|reflexivity]. intros _. exists 0, v. rewrite Nat.add_0_r.
      split; [reflexivity|]. do 2 (split; [assumption|]). intros k u Hk. lia.
    + split; [discriminate|].
      intros ([|j] & w & Hj & Hw & Hneg & Hbefore); simpl in Hj.
      * injection Hj as <-. rewrite Nat.add_0_r in Hneg. exfalso. apply Hnp. now split.
      * specialize (Hbefore 0 v ltac:(lia) eq_refl). rewrite Nat.add_0_r in Hbefore.
        contradiction.
Qed.

Lemma matchesFilter_in_range (row : list string) (fieldIndex : Z) (values : list string) :
  (0 <= fieldIndex)%Z -> (fieldIndex + Z.of_nat (length values) <= 2 ^ 63)%Z ->
  matchesFilter row fieldIndex values <> Panicked.
Proof.
  intros Hlo Hhi Hpanic. apply matchesFrom_panics in Hpanic as (j & v & Hj & _ & Hneg & _).
  apply lookup_lt_Some in Hj. simpl in Hneg.
  rewrite (position_small fieldIndex j (length values)) in Hneg by assumption. lia.
Qed.

(** X3: [matchesFilter] returns true exactly when every filter value has its
    position [fieldIndex+i] within the row and is empty or equal to the field
    there: empty filter values are wildcards, but they too need the row to
    reach their position.  It panics exactly when a non-empty value stands
    at a negative position and every value before it let the row through.
    An empty filter matches every row; a filter that starts at a
    non-negative index without overflow never panics, and matches nothing
    when it reaches past the end of the row. *)
Theorem matchesFilter_meaning (row : list string) (fieldIndex : Z) (values : list string) :
  (matchesFilter row fieldIndex values = Returned true <->
   (forall (j : nat) (v : string),
       values !! j = Some v -> fieldPasses row fieldIndex j v))
  /\ (matchesFilter row fieldIndex values = Panicked <->
      (exists (j : nat) (v : string),
          values !! j = Some v /\ v <> "" /\ (position fieldIndex j < 0)%Z
          /\ forall (k : nat) (u : string),
              k < j -> values !! k = Some u -> fieldPasses row fieldIndex k u))
  /\ matchesFilter row fieldIndex [] = Returned true
  /\ ((0 <= fieldIndex)%Z -> (fieldIndex + Z.of_nat (length values) <= 2 ^ 63)%Z ->
      matchesFilter row fieldIndex values <> Panicked
      /\ (values <> [] ->
          (Z.of_nat (length row) < fieldIndex + Z.of_nat (length values))%Z ->
          matchesFilter row fieldIndex values = Returned false)).
Proof.
  split; [apply (matchesFrom_true row fieldIndex values 0)|].
  split; [apply (matchesFrom_panics row fieldIndex values 0)|].
  split; [reflexivity|].
  intros Hlo Hhi.
  pose proof (matchesFilter_in_range row fieldIndex values Hlo Hhi) as Hsafe.
  split; [assumption|]. intros Hne Hpast.
  destruct (matchesFilter row fieldIndex values) as [[]|] eqn:E; [|reflexivity|contradiction].
  exfalso. pose proof (proj1 (matchesFrom_true row fieldIndex values 0) E) as Hall.
  destruct (values !! (length values - 1)) as [v|] eqn:Hlast.
  - destruct (Hall _ _ Hlast) as [Hin _]. simpl in Hin.
    assert (Hpos : length values - 1 < length values) by (destruct values; simpl; [contradiction|lia]).
    rewrite (position_small fieldIndex _ (length values)) in Hin by assumption. lia.
  - apply lookup_ge_None in Hlast. destruct values; [contradiction|]. simpl in *. lia.
Qed.

Lemma keepUnmatched_panics (rows : list (list string)) (fieldIndex : Z)
      (values : list string) :
  keepUnmatched rows fieldIndex values = Panicked <->
  exists row : list string, In row rows /\ matchesFilter row fieldIndex values = Panicked.
Proof.
  induction rows as [|row rows IH]; simpl.
  - split; [discriminate|]. intros (row & [] & _).
  - destruct (matchesFilter row fieldIndex values) as [m|] eqn:Hrow.
    + destruct (keepUnmatched rows fieldIndex values) as [kept|] eqn:Hrest.
      * split; [discriminate|]. intros (r & [<- | Hin] & Hr); [congruence|].
        assert (Hp : Returned kept = Panicked) by (apply IH; now exists r).
        discriminate.
      * split; [|reflexivity]. intros _.
        destruct (proj1 IH eq_refl) as (r & Hin & Hr). exists r. split; [now right | assumption].
    + split; [|reflexivity]. intros _. exists row. split; [now left | assumption].
Qed.

Lemma keepUnmatched_returns (rows kept : list (list string)) (fieldIndex : Z)
      (values : list string) :
  keepUnmatched rows fieldIndex values = Returned kept ->
  kept = List.filter (fun row => negb (matched fieldIndex values row)) rows
  /\ keepUnmatched kept fieldIndex values = Returned kept.
Proof.
  revert kept; induction rows as [|row rows IH]; intros kept; simpl.
  - intros Heq. injection Heq as <-. now split.
  - unfold matched at 1.
    destruct (matchesFilter row fieldIndex values) as [m|] eqn:Hrow; [|discriminate].
    destruct (keepUnmatched rows fieldIndex values) as [kept'|] eqn:Hrest; [|discriminate].
    destruct (IH kept' eq_refl) as [Hkept Hagain].
    intros Heq. injection Heq as <-.
    destruct m; simpl.
    + now split.
    + split; [now f_equal|]. now rewrite Hrow, Hagain.
Qed.

(** X4: the in-memory [RemoveFilteredPolicy] panics exactly when
    [matchesFilter] panics on a row of the sequence the section selects ("g"
    selects the role rows, every other section the policy rows), and never
    for a filter that starts at a non-negative index without overflow.  When
    it returns, it returns no error, has left the other sequence alone and
    kept, in their order, exactly the rows the filter does not match; a
    second call with the same filter changes nothing. *)
Theorem mem_RemoveFilteredPolicy_keeps (a : inMemoryAdapter) (sec : string)
        (fieldIndex : Z) (fieldValues : list string) :
  let keep := List.filter (fun row => negb (matched fieldIndex fieldValues row)) in
  (RemoveFilteredPolicy a sec fieldIndex fieldValues = Panicked <->
   exists row : list string,
     In row (if String.eqb sec "g" then roleAssignments a else policies a)
     /\ matchesFilter row fieldIndex fieldValues = Panicked)
  /\ (forall (err : option Error) (a' : inMemoryAdapter),
         RemoveFilteredPolicy a sec fieldIndex fieldValues = Returned (err, a') ->
         err = None
         /\ (if String.eqb sec "g"
             then policies a' = policies a /\ roleAssignments a' = keep (roleAssignments a)
             else policies a' = keep (policies a) /\ roleAssignments a' = roleAssignments a)
         /\ RemoveFilteredPolicy a' sec fieldIndex fieldValues = Returned (None, a'))
  /\ ((0 <= fieldIndex)%Z -> (fieldIndex + Z.of_nat (length fieldValues) <= 2 ^ 63)%Z ->
      RemoveFilteredPolicy a sec fieldIndex fieldValues <> Panicked).
Proof.
  intros keep.
  assert (Hpanic : RemoveFilteredPolicy a sec fieldIndex fieldValues = Panicked <->
                   exists row : list string,
                     In row (if String.eqb sec "g" then roleAssignments a else policies a)
                     /\ matchesFilter row fieldIndex fieldValues = Panicked).
  { unfold RemoveFilteredPolicy. destruct (String.eqb sec "g").
    - rewrite <- keepUnmatched_panics.
      destruct (keepUnmatched (roleAssignments a) fieldIndex fieldValues); split;
        try discriminate; reflexivity.
    - rewrite <- keepUnmatched_panics.
      destruct (keepUnmatched (policies a) fieldIndex fieldValues); split;
        try discriminate; reflexivity. }
  split; [exact Hpanic|]. split.
  - intros err a'. unfold RemoveFilteredPolicy. destruct a as [p r]. simpl.
    destruct (String.eqb sec "g") eqn:Hsec.
    + destruct (keepUnmatched r fieldIndex fieldValues) as [kept|] eqn:Hk; [|discriminate].
      destruct (keepUnmatched_returns _ _ _ _ Hk) as [Hkept Hagain].
      intros Heq. injection Heq as <- <-. simpl. rewrite Hagain. now repeat split.
    + destruct (keepUnmatched p fieldIndex fieldValues) as [kept|] eqn:Hk; [|discriminate].
      destruct (keepUnmatched_returns _ _ _ _ Hk) as [Hkept Hagain].
      intros Heq. injection Heq as <- <-. simpl. rewrite Hagain. now repeat split.
  - intros Hlo Hhi Hp. apply Hpanic in Hp as (row & _ & Hrow).
    now apply (matchesFilter_in_range row fieldIndex fieldValues Hlo Hhi).
Qed.

End MemAdapterFacts.

(** * The relational adapter: facts *)

Section GormAdapterFacts.
Import Gorm GormAdapter.

(** X5: [SavePolicy] of the relational adapter is a delete of everything
    followed by an insert that are not one transaction.  When it succeeds the
    table holds exactly the rows of the model, whatever it held before; when
    it fails the table is either untouched (the delete failed) or empty (the
    delete went through and the insert did not); and the insert is refused,
    leaving the table empty, when two rules of the model fall on the same
    (ptype, v0..v5). *)
Theorem gorm_SavePolicy_replace (a : gormAdapter) (rs : casbin.Rules) (w : World) :
  let err := fst (SavePolicy a rs w) in
  let w' := snd (SavePolicy a rs w) in
  (err = None -> db_rows (w_db w') = rowsOf rs)
  /\ (err <> None -> db_rows (w_db w') = db_rows (w_db w) \/ db_rows (w_db w') = [])
  /\ (db_faults (w_db w) = [] -> uniqueKeys (rowsOf rs) = false ->
      err = Some ErrUniqueIndex /\ db_rows (w_db w') = []).
Proof.
  unfold SavePolicy, dbDeleteAll, dbInsert, rowsOf. mrun.
  destruct w as [[rows faults table] files trace]; simpl.
  set (new := map (lineToRule "p") (casbin.pRules rs)
              ++ map (lineToRule "g") (casbin.gRules rs)).
  clearbody new.
  destruct new as [|r new'].
  - destruct faults as [|[] faults]; simpl;
      repeat split; intros; auto; try discriminate; try contradiction.
  - assert (Hlen : (0 <? length (r :: new'))%nat = true) by reflexivity.
    remember (r :: new') as full eqn:Hfull.
    destruct faults as [|[] [|[] faults]]; cbn -[uniqueKeys Nat.ltb]; rewrite ?Hlen;
      cbn -[uniqueKeys]; try (destruct (uniqueKeys full) eqn:Hu);
      cbn -[uniqueKeys];
      repeat split; intros; auto; try discriminate; try contradiction; try congruence.
Qed.

Lemma sameKey_refl (r : casbinRule) : sameKey r r = true.
Proof. unfold sameKey. now rewrite !String.eqb_refl. Qed.

Lemma uniqueKeys_app_dup (rows : list casbinRule) (r new : casbinRule) :
  In r rows -> sameKey r new = true -> uniqueKeys (rows ++ [new]) = false.
Proof.
  induction rows as [|x rows IH]; simpl; intros Hin Hkey; [contradiction|].
  destruct Hin as [-> | Hin].
  - replace (existsb (sameKey r) (rows ++ [new])) with true; [reflexivity|].
    symmetry. apply existsb_exists. exists new. split; [|assumption].
    apply in_or_app. right. now left.
  - rewrite (IH Hin Hkey). apply andb_false_r.
Qed.

Lemma lineToRule_firstn (ptype : string) (rule : list string) :
  lineToRule ptype rule = lineToRule ptype (firstn 6 rule).
Proof.
  rewrite !lineToRule_fields.
  destruct rule as [|a [|b [|c [|d [|e [|f [|g rest]]]]]]]; reflexivity.
Qed.

(** X6: the adapter's [AddPolicy] stores a rule by its first six fields
    under a unique index: a rule that agrees with a stored rule of the same
    ptype on the first six fields is refused with the index error, and the
    table stays as it was. *)
Theorem gorm_AddPolicy_collides (a : gormAdapter) (sec ptype : string)
        (stored rule : list string) (w : World) :
  answers w ->
  In (lineToRule ptype stored) (db_rows (w_db w)) ->
  firstn 6 stored = firstn 6 rule ->
  fst (AddPolicy a sec ptype rule w) = Some ErrUniqueIndex
  /\ db_rows (w_db (snd (AddPolicy a sec ptype rule w))) = db_rows (w_db w).
Proof.
  unfold answers, AddPolicy, dbInsert. mrun. intros Hans Hin Hsix.
  assert (Hdup : uniqueKeys (db_rows (w_db w) ++ [lineToRule ptype rule]) = false).
  { apply (uniqueKeys_app_dup _ (lineToRule ptype stored)); [assumption|].
    rewrite (lineToRule_firstn ptype stored), Hsix, <- lineToRule_firstn.
    apply sameKey_refl. }
  destruct w as [[rows faults table] files trace]; simpl in *.
  destruct faults as [|[] faults]; simpl in *; try discriminate;
    rewrite Hdup; now split.
Qed.

Lemma gorm_AddPolicy_collides_witness :
  fst (AddPolicy (mkGorm "casbin_rule") "p" "p" ["1"; "2"; "3"; "4"; "5"; "6"; "8"]
         (mkWorld (mkDB [lineToRule "p" ["1"; "2"; "3"; "4"; "5"; "6"; "7"]] [] true) ∅ []))
  = Some ErrUniqueIndex
  /\ db_rows (w_db (snd (AddPolicy (mkGorm "casbin_rule") "p" "p"
                           ["1"; "2"; "3"; "4"; "5"; "6"; "8"]
                           (mkWorld (mkDB [lineToRule "p" ["1"; "2"; "3"; "4"; "5"; "6"; "7"]] []
                                          true) ∅ []))))
    = [lineToRule "p" ["1"; "2"; "3"; "4"; "5"; "6"; "7"]].
Proof.
  apply (gorm_AddPolicy_collides (mkGorm "casbin_rule") "p" "p"
           ["1"; "2"; "3"; "4"; "5"; "6"; "7"] ["1"; "2"; "3"; "4"; "5"; "6"; "8"]).
  - reflexivity.
  - simpl. left. reflexivity.
  - reflexivity.
Defined.

Lemma whereField_same (x : string) : whereField x x = true.
Proof. unfold whereField. rewrite String.eqb_refl. apply orb_true_r. Qed.

Lemma whereMatches_extension (ptype : string) (rule ext : list string) :
  whereMatches (lineToRule ptype rule) (lineToRule ptype (rule ++ ext)) = true.
Proof.
  rewrite !lineToRule_fields. unfold whereMatches. simpl.
  rewrite whereField_same. simpl.
  do 6 (destruct rule as [|? rule]; [reflexivity|]; simpl; rewrite whereField_same; simpl).
  reflexivity.
Qed.

(** X7: the adapter's [RemovePolicy] deletes by a condition on the non-empty
    columns of the rule's row, so it deletes more than the rule: for a
    non-empty ptype and a database that answers, no stored rule of that ptype
    that extends the given rule by further fields is left. *)
Theorem gorm_RemovePolicy_deletes_extensions (a : gormAdapter) (sec ptype : string)
        (rule : list string) (w : World) :
  ptype <> "" ->
  answers w ->
  fst (RemovePolicy a sec ptype rule w) = None
  /\ forall ext : list string,
      ~ In (lineToRule ptype (rule ++ ext))
           (db_rows (w_db (snd (RemovePolicy a sec ptype rule w)))).
Proof.
  unfold answers, RemovePolicy, dbDeleteWhere. intros Hptype Hans.
  assert (Hcond : noCondition (lineToRule ptype rule) = false).
  { unfold noCondition. rewrite lineToRule_fields. cbn [Ptype].
    apply isEmpty_false in Hptype. now rewrite Hptype. }
  rewrite Hcond. mrun.
  destruct w as [[rows faults table] files trace]; simpl in *.
  assert (Hgone : forall ext,
             ~ In (lineToRule ptype (rule ++ ext))
                  (filter (fun row => whereMatches (lineToRule ptype rule) row = false) rows)).
  { intros ext Hin. apply list_elem_of_In, list_elem_of_filter in Hin as [Hno _].
    rewrite whereMatches_extension in Hno. discriminate. }
  destruct faults as [|[] faults]; simpl in *; try discriminate; now split.
Qed.

Lemma gorm_RemovePolicy_deletes_extensions_witness :
  fst (RemovePolicy (mkGorm "casbin_rule") "p" "p" ["alice"]
         (mkWorld (mkDB [lineToRule "p" ["alice"; "/api"; "GET"]] [] true) ∅ [])) = None
  /\ forall ext : list string,
      ~ In (lineToRule "p" (["alice"] ++ ext))
           (db_rows (w_db (snd (RemovePolicy (mkGorm "casbin_rule") "p" "p" ["alice"]
                                  (mkWorld (mkDB [lineToRule "p" ["alice"; "/api"; "GET"]] [] true)
                                           ∅ []))))).
Proof.
  apply (gorm_RemovePolicy_deletes_extensions (mkGorm "casbin_rule") "p" "p" ["alice"]).
  - discriminate.
  - reflexivity.
Defined.

(** X8: [LoadPolicy] of the relational adapter returns an error exactly when
    the query for the rows fails, and then leaves the rule set alone; a stored
    row the line loader refuses is skipped without an error. *)
Theorem gorm_LoadPolicy_error (a : gormAdapter) (rs : casbin.Rules) (w : World) :
  (fst (fst (LoadPolicy a rs w)) <> None <-> hd false (db_faults (w_db w)) = true)
  /\ (fst (fst (LoadPolicy a rs w)) <> None -> snd (fst (LoadPolicy a rs w)) = rs)
  /\ db_rows (w_db (snd (LoadPolicy a rs w))) = db_rows (w_db w).
Proof.
  unfold LoadPolicy, dbFind. mrun.
  destruct w as [[rows faults table] files trace]; simpl.
  destruct faults as [|[] faults]; simpl; repeat split; auto; try discriminate;
    intros Hne; contradiction.
Qed.

End GormAdapterFacts.

(** * Filtered removal in the relational adapter: facts *)

Section GormFilterFacts.
Import Gorm GormFilter.

Lemma conditionsFrom_panic (fieldIndex : Z) (values : list string) (i : nat) :
  conditionsFrom fieldIndex i values = Panicked <->
  exists (j : nat) (v : string),
    values !! j = Some v /\ v <> ""
    /\ ~ (0 <= position fieldIndex (i + j) < 6)%Z.
Proof.
  revert i; induction values as [|v values IH]; intros i; cbn [conditionsFrom].
  - split; [discriminate|]. intros (j & w & Hj & _). discriminate.
  - destruct (isEmpty v) eqn:Hv; cbn [negb].
    + apply isEmpty_true in Hv. rewrite IH. split.
      * intros (j & w & Hj & Hw & Hout). exists (S j), w.
        rewrite Nat.add_succ_r. now repeat split.
      * intros ([|j] & w & Hj & Hw & Hout); simpl in Hj.
        -- injection Hj as <-. contradiction.
        -- exists j, w. rewrite Nat.add_succ_r in Hout. now repeat split.
    + apply isEmpty_false in Hv.
      destruct (Z.ltb_spec (position fieldIndex i) 0) as [Hneg|Hpos]; cbn [orb].
      { split; [|reflexivity]. intros _. exists 0, v. rewrite Nat.add_0_r.
        split; [reflexivity|]. split; [assumption | lia]. }
      destruct (Z.leb_spec 6 (position fieldIndex i)) as [Hsix|Hin].
      { split; [|reflexivity]. intros _. exists 0, v. rewrite Nat.add_0_r.
        split; [reflexivity|]. split; [assumption | lia]. }
      destruct (conditionsFrom fieldIndex (S i) values) as [conds|] eqn:Hrest.
      * split; [discriminate|].
        intros ([|j] & w & Hj & Hw & Hout); simpl in Hj.
        -- rewrite Nat.add_0_r in Hout. lia.
        -- assert (Hp : conditionsFrom fieldIndex (S i) values = Panicked).
           { apply IH. exists j, w. rewrite Nat.add_succ_r in Hout. now repeat split. }
           congruence.
      * split; [|reflexivity]. intros _.
        destruct (proj1 (IH (S i)) Hrest) as (j & w & Hj & Hw & Hout).
        exists (S j), w. rewrite Nat.add_succ_r. now repeat split.
Qed.

Lemma conditionsFrom_hold (fieldIndex : Z) (values : list string)
      (conds : list (nat * string)) (row : casbinRule) (i : nat) :
  conditionsFrom fieldIndex i values = Returned conds ->
  (forallb (fun cond => String.eqb (column (fst cond) row) (snd cond)) conds = true
   <-> forall (j : nat) (v : string),
       values !! j = Some v -> v <> "" ->
       column (Z.to_nat (position fieldIndex (i + j))) row = v).
Proof.
  revert i conds; induction values as [|v values IH]; intros i conds; cbn [conditionsFrom].
  - intros Heq. injection Heq as <-. simpl. split; [intros _ j v Hj; discriminate | reflexivity].
  - destruct (isEmpty v) eqn:Hv; cbn [negb].
    + apply isEmpty_true in Hv. intros Hrest. rewrite (IH _ _ Hrest). split.
      * intros Hall [|j] w Hj Hw; simpl in Hj.
        -- injection Hj as <-. contradiction.
        -- rewrite Nat.add_succ_r. now apply Hall.
      * intros Hall j w Hj Hw. specialize (Hall (S j) w Hj Hw).
        now rewrite Nat.add_succ_r in Hall.
    + apply isEmpty_false in Hv.
      destruct ((position fieldIndex i <? 0)%Z || (6 <=? position fieldIndex i)%Z);
        [discriminate|].
      destruct (conditionsFrom fieldIndex (S i) values) as [rest|] eqn:Hrest; [|discriminate].
      intros Heq. injection Heq as <-. cbn [forallb fst snd].
      rewrite andb_true_iff, (IH _ _ Hrest), String.eqb_eq. split.
      * intros [Hhead Hall] [|j] w Hj Hw; simpl in Hj.
        -- injection Hj as <-. now rewrite Nat.add_0_r.
        -- rewrite Nat.add_succ_r. now apply Hall.
      * intros Hall. split.
        -- specialize (Hall 0 v eq_refl Hv). now rewrite Nat.add_0_r in Hall.
        -- intros j w Hj Hw. specialize (Hall (S j) w Hj Hw).
           now rewrite Nat.add_succ_r in Hall.
Qed.

Lemma conditions_in_range (fieldIndex : Z) (values : list string) :
  (0 <= fieldIndex)%Z -> (fieldIndex + Z.of_nat (length values) <= 6)%Z ->
  conditions fieldIndex values <> Panicked.
Proof.
  intros Hlo Hhi Hp. apply conditionsFrom_panic in Hp as (j & v & Hj & _ & Hout).
  apply lookup_lt_Some in Hj. simpl in Hout.
  rewrite (position_small fieldIndex j (length values)) in Hout by lia. lia.
Qed.

(** X9: the relational [RemoveFilteredPolicy] panics exactly when a
    non-empty filter value stands at a position [fieldIndex+i] outside the
    six value columns, before the first or past the last; it then has sent
    nothing to the database.  A filter that starts at a non-negative index
    and ends within the six columns never panics. *)
Theorem gorm_RemoveFilteredPolicy_panics (a : GormAdapter.gormAdapter) (sec ptype : string)
        (fieldIndex : Z) (fieldValues : list string) (w : World) :
  (fst (RemoveFilteredPolicy a sec ptype fieldIndex fieldValues w) = Panicked
   <-> exists (j : nat) (v : string),
       fieldValues !! j = Some v /\ v <> "" /\ ~ (0 <= position fieldIndex j < 6)%Z)
  /\ (fst (RemoveFilteredPolicy a sec ptype fieldIndex fieldValues w) = Panicked ->
      snd (RemoveFilteredPolicy a sec ptype fieldIndex fieldValues w) = w)
  /\ ((0 <= fieldIndex)%Z -> (fieldIndex + Z.of_nat (length fieldValues) <= 6)%Z ->
      fst (RemoveFilteredPolicy a sec ptype fieldIndex fieldValues w) <> Panicked).
Proof.
  assert (Hiff : fst (RemoveFilteredPolicy a sec ptype fieldIndex fieldValues w) = Panicked
                 <-> conditions fieldIndex fieldValues = Panicked).
  { unfold RemoveFilteredPolicy.
    destruct (conditions fieldIndex fieldValues) as [conds|]; [|now split].
    mrun. destruct (db_faults (w_db w)) as [|[] faults]; simpl; split; discriminate. }
  split; [|split].
  - rewrite Hiff. apply (conditionsFrom_panic fieldIndex fieldValues 0).
  - rewrite Hiff. unfold RemoveFilteredPolicy. now intros ->.
  - intros Hlo Hhi. rewrite Hiff. now apply conditions_in_range.
Qed.

(** X10: when the database answers and the filter starts at a non-negative
    index and ends within the six columns, the relational
    [RemoveFilteredPolicy] deletes exactly the rows of the given ptype whose
    value columns equal every non-empty filter value at its position; all
    other rows stay. *)
Theorem gorm_RemoveFilteredPolicy_deletes (a : GormAdapter.gormAdapter) (sec ptype : string)
        (fieldIndex : Z) (fieldValues : list string) (w : World) :
  answers w ->
  (0 <= fieldIndex)%Z ->
  (fieldIndex + Z.of_nat (length fieldValues) <= 6)%Z ->
  fst (RemoveFilteredPolicy a sec ptype fieldIndex fieldValues w) = Returned None
  /\ forall row : casbinRule,
      In row (db_rows (w_db (snd (RemoveFilteredPolicy a sec ptype fieldIndex fieldValues w))))
      <-> (In row (db_rows (w_db w))
           /\ ~ (Ptype row = ptype
                 /\ forall (j : nat) (v : string),
                     fieldValues !! j = Some v -> v <> "" ->
                     column (Z.to_nat fieldIndex + j) row = v)).
Proof.
  unfold answers. intros Hans Hlo Hhi.
  destruct (conditions fieldIndex fieldValues) as [conds|] eqn:Hconds.
  2:{ now destruct (conditions_in_range fieldIndex fieldValues Hlo Hhi). }
  unfold RemoveFilteredPolicy. rewrite Hconds. mrun.
  destruct w as [[rows faults table] files trace]; simpl in *.
  assert (Hcols : (forall (j : nat) (v : string),
                      fieldValues !! j = Some v -> v <> "" ->
                      forall row, column (Z.to_nat (position fieldIndex (0 + j))) row
                                  = column (Z.to_nat fieldIndex + j) row)).
  { intros j v Hj _ row. apply lookup_lt_Some in Hj. simpl.
    rewrite (position_small fieldIndex j (length fieldValues)) by lia.
    f_equal. lia. }
  assert (Hrows : forall row,
             In row (List.filter (fun row => negb (selects ptype conds row)) rows)
             <-> (In row rows
                  /\ ~ (Ptype row = ptype
                        /\ forall (j : nat) (v : string),
                            fieldValues !! j = Some v -> v <> "" ->
                            column (Z.to_nat fieldIndex + j) row = v))).
  { intros row. rewrite List.filter_In, negb_true_iff. unfold selects.
    rewrite <- not_true_iff_false, andb_true_iff, String.eqb_eq,
      (conditionsFrom_hold _ _ _ row 0 Hconds).
    split; intros [Hin Hnot]; (split; [assumption|]); intros [Hp Hall]; apply Hnot;
      (split; [assumption|]); intros j v Hj Hv.
    - rewrite (Hcols j v Hj Hv). now apply Hall.
    - rewrite <- (Hcols j v Hj Hv). now apply Hall. }
  destruct faults as [|[] faults]; simpl in *; try discriminate; now split.
Qed.

Lemma gorm_RemoveFilteredPolicy_deletes_witness :
  fst (RemoveFilteredPolicy (GormAdapter.mkGorm "casbin_rule") "p" "p" 1 [""; "GET"]
         (mkWorld (mkDB [lineToRule "p" ["alice"; "/api"; "GET"];
                         lineToRule "p" ["bob"; "/api"; "POST"]] [] true) ∅ []))
  = Returned None
  /\ forall row : casbinRule,
      In row (db_rows (w_db (snd (RemoveFilteredPolicy (GormAdapter.mkGorm "casbin_rule")
                                     "p" "p" 1 [""; "GET"]
                                     (mkWorld (mkDB [lineToRule "p" ["alice"; "/api"; "GET"];
                                                     lineToRule "p" ["bob"; "/api"; "POST"]] [] true)
                                              ∅ [])))))
      <-> (In row [lineToRule "p" ["alice"; "/api"; "GET"];
                   lineToRule "p" ["bob"; "/api"; "POST"]]
           /\ ~ (Ptype row = "p"
                 /\ forall (j : nat) (v : string),
                     [""; "GET"] !! j = Some v -> v <> "" ->
                     column (Z.to_nat 1 + j) row = v)).
Proof.
  apply (gorm_RemoveFilteredPolicy_deletes (GormAdapter.mkGorm "casbin_rule") "p" "p" 1
           [""; "GET"]).
  - reflexivity.
  - lia.
  - simpl. lia.
Defined.

End GormFilterFacts.

(** * Reading configuration values: facts *)

Section ConfigFacts.

Lemma stringsOf_Ok (items : list any) (i : nat) (l : list string) :
  stringsOf i items = Ok l <-> items = map AStr l.
Proof.
  revert i l; induction items as [|x items IH]; intros i l; simpl.
  - split.
    + intros Heq. injection Heq as <-. reflexivity.
    + destruct l; [reflexivity | discriminate].
  - destruct x; try (split; [discriminate | destruct l; discriminate]).
    destruct (stringsOf (S i) items) as [s0|err] eqn:Hrest.
    + apply IH in Hrest. subst items. split.
      * intros Heq. injection Heq as <-. reflexivity.
      * destruct l as [|y l]; [discriminate|]. simpl. intros Heq.
        injection Heq as -> Hmap. f_equal. f_equal.
        clear -Hmap. revert l Hmap. induction s0 as [|a s0 IHs]; intros [|b l] Hmap;
          try discriminate; [reflexivity|].
        simpl in Hmap. injection Hmap as -> Hmap. f_equal. now apply IHs.
    + split; [discriminate|]. destruct l as [|y l]; [discriminate|]. simpl.
      intros Heq. injection Heq as -> ->.
      assert (Hok : stringsOf (S i) (map AStr l) = Ok l) by (now apply IH).
      congruence.
Qed.

Lemma stringsOf_Fail (items : list any) (i : nat) (err : Error) :
  stringsOf i items = Fail err <->
  exists k : nat,
    err = ErrElementNotString (i + k)
    /\ (exists x : any, items !! k = Some x /\ forall s : string, x <> AStr s)
    /\ forall j : nat, j < k -> exists s : string, items !! j = Some (AStr s).
Proof.
  revert i err; induction items as [|x items IH]; intros i err; simpl.
  - split; [discriminate|]. intros (k & _ & (x & Hx & _) & _). discriminate.
  - assert (Hbad : (forall s, x <> AStr s) ->
              (@Fail (list string) (ErrElementNotString i) = Fail err <->
               exists k : nat,
                 err = ErrElementNotString (i + k)
                 /\ (exists y : any, (x :: items) !! k = Some y /\ forall s : string, y <> AStr s)
                 /\ forall j : nat, j < k -> exists s : string, (x :: items) !! j = Some (AStr s))).
    { intros Hx. split.
      - intros Heq. injection Heq as <-. exists 0. rewrite Nat.add_0_r.
        repeat split; [|intros j Hj; lia]. exists x. now split.
      - intros (k & -> & _ & Hbefore). destruct k as [|k].
        + now rewrite Nat.add_0_r.
        + destruct (Hbefore 0 ltac:(lia)) as (s & Hs). simpl in Hs.
          injection Hs as ->. now destruct (Hx s). }
    destruct x; try (apply Hbad; intros s0; discriminate).
    clear Hbad.
    destruct (stringsOf (S i) items) as [l|e] eqn:Hrest.
    + split; [discriminate|].
      intros (k & -> & (y & Hy & Hnot) & Hbefore). destruct k as [|k]; simpl in Hy.
      * injection Hy as <-. now destruct (Hnot s).
      * assert (Hf : stringsOf (S i) items = Fail (ErrElementNotString (S i + k))).
        { apply IH. exists k. repeat split; [now exists y|].
          intros j Hj. apply (Hbefore (S j)). lia. }
        congruence.
    + apply IH in Hrest as (k & -> & (y & Hy & Hnot) & Hbefore). split.
      * intros Heq. injection Heq as <-. exists (S k).
        repeat split; [f_equal; lia | now exists y |].
        intros [|j] Hj; [now exists s | apply Hbefore; lia].
      * intros (k' & -> & (y' & Hy' & Hnot') & Hbefore'). do 2 f_equal.
        destruct k' as [|k']; simpl in Hy'; [injection Hy' as <-; now destruct (Hnot' s)|].
        assert (k = k'); [|lia].
        destruct (Nat.lt_trichotomy k k') as [Hlt|[Heq|Hgt]]; [|assumption|].
        -- destruct (Hbefore' (S k) ltac:(lia)) as (s1 & Hs1). simpl in Hs1.
           rewrite Hy in Hs1. injection Hs1 as ->. now destruct (Hnot s1).
        -- destruct (Hbefore k' Hgt) as (s1 & Hs1).
           rewrite Hy' in Hs1. injection Hs1 as ->. now destruct (Hnot' s1).
Qed.

(** X11: [toStringSlice] succeeds on exactly two shapes of value, a typed
    string slice and an untyped slice whose elements are all strings, and
    returns the strings in order. *)
Theorem toStringSlice_succeeds_iff (v : any) (l : list string) :
  toStringSlice v = Ok l <-> (v = AStrSlice l \/ v = ASlice (map AStr l)).
Proof.
  destruct v; simpl; try (split; [discriminate | intros [Heq|Heq]; discriminate]).
  - split.
    + intros Heq. injection Heq as ->. now left.
    + intros [Heq|Heq]; [injection Heq as ->; reflexivity | discriminate].
  - rewrite stringsOf_Ok. split.
    + intros ->. now right.
    + intros [Heq|Heq]; [discriminate | now injection Heq].
Qed.

(** X12: on an untyped slice [toStringSlice] fails exactly at the first
    element that is not a string, and the error names that position. *)
Theorem toStringSlice_first_offender (items : list any) (err : Error) :
  toStringSlice (ASlice items) = Fail err <->
  exists k : nat,
    err = ErrElementNotString k
    /\ (exists x : any, items !! k = Some x /\ forall s : string, x <> AStr s)
    /\ forall j : nat, j < k -> exists s : string, items !! j = Some (AStr s).
Proof.
  simpl. apply (stringsOf_Fail items 0 err).
Qed.

Lemma parseRows_inr (field : string) (minLen i : nat) (items : list any)
      (rows : list (list string)) :
  Config.parseRows field minLen i items = inr rows <->
  Forall2 (fun item row => toStringSlice item = Ok row /\ minLen <= length row) items rows.
Proof.
  revert i rows; induction items as [|p items IH]; intros i rows; cbn -[Nat.ltb toStringSlice].
  - split.
    + intros Heq. injection Heq as <-. constructor.
    + intros Hall. inversion Hall. reflexivity.
  - destruct (toStringSlice p) as [row|err] eqn:Hp.
    2:{ split; [discriminate|]. intros Hall. inversion Hall as [|? ? ? ? [Hrow _]]. congruence. }
    destruct (length row <? minLen)%nat eqn:Hlen.
    + apply Nat.ltb_lt in Hlen. split; [discriminate|].
      intros Hall. inversion Hall as [|? r ? ? [Hrow Hle]]. subst.
      assert (r = row) by congruence. subst. lia.
    + apply Nat.ltb_ge in Hlen.
      destruct (Config.parseRows field minLen (S i) items) as [e|more] eqn:Hrest.
      * split; [discriminate|].
        intros Hall. inversion Hall as [|? r ? rs [Hrow Hle] Hmore]. subst.
        apply (IH (S i)) in Hmore. congruence.
      * split.
        -- intros Heq. injection Heq as <-. apply IH in Hrest.
           constructor; [now split | assumption].
        -- intros Hall. inversion Hall as [|? r ? rs [Hrow Hle] Hmore]. subst.
           assert (r = row) by congruence. subst.
           apply (IH (S i)) in Hmore. congruence.
Qed.

Lemma rowsAt_lengths (raw : gmap string any) (key : string) (minLen : nat)
      (rows : list (list string)) :
  Config.rowsAt raw key minLen = inr rows ->
  Forall (fun row => minLen <= length row) rows.
Proof.
  unfold Config.rowsAt.
  assert (Hnil : @inr Config.ConfigError _ (@nil (list string)) = inr rows ->
                 Forall (fun row => minLen <= length row) rows).
  { intros Heq. injection Heq as <-. constructor. }
  destruct (raw !! key) as [[]|]; try exact Hnil.
  intros Hrows. apply parseRows_inr in Hrows.
  clear Hnil. induction Hrows as [|? ? ? ? [_ Hle] _ IH]; constructor; assumption.
Qed.

Context `{ConfigLibs}.

(** X13: a configuration that [parseCasbinConfig] accepts has a non-empty
    model, which is the trimmed [model] string of the raw map, policy rows
    of at least three fields and role rows of at least two. *)
Theorem parseCasbinConfig_accepts (raw : gmap string any) (cfg : Authz.casbinConfig)
        (watcher : Config.watcherConfig) :
  Config.parseCasbinConfig raw = inr (cfg, watcher) ->
  Authz.Model cfg <> ""
  /\ Authz.Model cfg = TrimSpace (stringAt raw "model")
  /\ Forall (fun row => 3 <= length row) (Authz.Policies cfg)
  /\ Forall (fun row => 2 <= length row) (Authz.RoleAssignments cfg).
Proof.
  unfold Config.parseCasbinConfig.
  destruct (isEmpty (TrimSpace (stringAt raw "model"))) eqn:Hmodel; [discriminate|].
  apply isEmpty_false in Hmodel.
  destruct (Config.rowsAt raw "policies" 3) as [e|policies] eqn:Hp; [discriminate|].
  destruct (Config.rowsAt raw "roleAssignments" 2) as [e|roles] eqn:Hr; [discriminate|].
  intros Heq. injection Heq as <- _. simpl.
  repeat split; auto.
  - now apply (rowsAt_lengths raw "policies").
  - now apply (rowsAt_lengths raw "roleAssignments").
Qed.

(** X14: a [policies] value that is not an untyped slice is not an error:
    it is skipped, and the configuration is the one of the map without the
    key. *)
Theorem parseCasbinConfig_skips_typed_policies (raw : gmap string any) :
  (forall items : list any, raw !! "policies" <> Some (ASlice items)) ->
  Config.parseCasbinConfig raw = Config.parseCasbinConfig (delete "policies" raw).
Proof.
  intros Hnot. unfold Config.parseCasbinConfig, Config.rowsAt, Config.mapAt, stringAt.
  rewrite lookup_delete_eq.
  rewrite !lookup_delete_ne by discriminate.
  destruct (raw !! "policies") as [[| | | | |items| |]|] eqn:Hp; try reflexivity.
  now destruct (Hnot items).
Qed.

End ConfigFacts.

Lemma parseCasbinConfig_accepts_witness :
  Authz.Model (memoryConfig [["admin"; "/api"; "GET"]] [["alice"; "admin"]]) <> ""
  /\ Authz.Model (memoryConfig [["admin"; "/api"; "GET"]] [["alice"; "admin"]])
     = @TrimSpace exampleConfigLibs (stringAt adminRawConfig "model")
  /\ Forall (fun row => 3 <= length row)
            (Authz.Policies (memoryConfig [["admin"; "/api"; "GET"]] [["alice"; "admin"]]))
  /\ Forall (fun row => 2 <= length row)
            (Authz.RoleAssignments (memoryConfig [["admin"; "/api"; "GET"]] [["alice"; "admin"]])).
Proof.
  apply (@parseCasbinConfig_accepts exampleConfigLibs adminRawConfig _ (Config.mkWatcher "" 0%Z)).
  vm_compute. reflexivity.
Defined.

Lemma parseCasbinConfig_skips_typed_policies_witness :
  @Config.parseCasbinConfig exampleConfigLibs typedPoliciesConfig
  = @Config.parseCasbinConfig exampleConfigLibs (delete "policies" typedPoliciesConfig).
Proof.
  apply (@parseCasbinConfig_skips_typed_policies exampleConfigLibs typedPoliciesConfig).
  intros items. vm_compute. discriminate.
Defined.

(** * The module outside its happy path: facts *)

Section ModuleFacts.
Context `{GoLibs}.

Lemma adapterLoadPolicy_sameStore (ad : persistAdapter) (rs : casbin.Rules) (w : World) :
  sameStore w (snd (adapterLoadPolicy ad rs w)).
Proof.
  unfold adapterLoadPolicy, sameStore. mrun.
  destruct ad as [a|path|a]; simpl.
  - now split.
  - unfold FileAdapter.LoadPolicy. mrun.
    destruct (w_files w !! path); simpl; now split.
  - unfold GormAdapter.LoadPolicy, GormAdapter.dbFind. mrun.
    destruct (db_faults (w_db w)) as [|[] faults]; simpl; now split.
Qed.

Lemma buildAdapter_sameStore (m : Authz.CasbinModule) (w : World) :
  sameStore w (snd (Authz.buildAdapter m w)).
Proof.
  unfold Authz.buildAdapter, sameStore.
  destruct (_ || _); [now split|].
  destruct (String.eqb _ "file"); [destruct (isEmpty _); now split|].
  destruct (String.eqb _ "gorm"); [|now split].
  unfold Authz.buildGORMAdapter.
  destruct (isEmpty _); [now split|].
  destruct (_ || _); [|now split].
  unfold Authz.gormOpen, GormAdapter.newGORMAdapter, GormAdapter.AutoMigrate. mrun.
  destruct w as [[rows faults table] files trace].
  destruct (Authz.dialectorOf _), table, faults as [|[] [|[] faults]]; simpl; now split.
Qed.

(** X15: an [Init] that fails leaves the module as it was, with the
    enforcer it had before, and no [Init] changes a stored row or a file. *)
Theorem Init_failure_changes_nothing (m : Authz.CasbinModule) (w : World) (err : Error) :
  fst (fst (Authz.Init m w)) = Some err ->
  snd (fst (Authz.Init m w)) = m /\ sameStore w (snd (Authz.Init m w)).
Proof.
  unfold Authz.Init.
  destruct (NewModelFromString _) as [md|]; [|intros _; split; [reflexivity | now split]].
  unfold bind.
  pose proof (buildAdapter_sameStore m w) as Hbuild.
  destruct (Authz.buildAdapter m w) as [[ad|e] wa]; simpl in Hbuild; [|now intros _].
  unfold enforcer.NewEnforcer, bind.
  pose proof (adapterLoadPolicy_sameStore ad casbin.noRules wa) as Hload.
  destruct (adapterLoadPolicy ad casbin.noRules wa) as [[[e|] rs] wb]; simpl in *.
  - intros _. split; [reflexivity|].
    destruct Hbuild, Hload. split; congruence.
  - discriminate.
Qed.

Context `{ConfigLibs}.

(** X16: the module [newCasbinModule] returns carries the given name and no
    enforcer: until [Init] has run, [Enforce] and the four mutation methods
    answer "enforcer not initialized" and change neither the module nor the
    world. *)
Theorem newCasbinModule_not_initialized (name : string) (raw : gmap string any)
        (m : Authz.CasbinModule) :
  Config.newCasbinModule name raw = inr m ->
  Authz.name m = name
  /\ (forall (sub obj act : string) (w : World),
         Authz.Enforce m sub obj act w = ((false, Some (ErrNotInitialized name)), w))
  /\ (forall (k : Mutation) (rule : list string) (w : World),
         moduleMutation k m rule w = (((false, Some (ErrNotInitialized name)), m), w)).
Proof.
  unfold Config.newCasbinModule.
  destruct (Config.parseCasbinConfig raw) as [e|[cfg watcher]]; [discriminate|].
  intros Heq. injection Heq as <-. split; [reflexivity|]. split.
  - reflexivity.
  - intros [] rule w; reflexivity.
Qed.

End ModuleFacts.

Lemma Init_failure_changes_nothing_witness :
  snd (fst (@Authz.Init exampleLibs brokenModule emptyWorld)) = brokenModule
  /\ sameStore emptyWorld (snd (@Authz.Init exampleLibs brokenModule emptyWorld)).
Proof.
  apply (@Init_failure_changes_nothing exampleLibs brokenModule emptyWorld
           (ErrWrap "parse model" ErrParseModel)).
  reflexivity.
Defined.

Lemma newCasbinModule_not_initialized_witness :
  Authz.name adminModule0 = "authz"
  /\ (forall (sub obj act : string) (w : World),
         Authz.Enforce adminModule0 sub obj act w
         = ((false, Some (ErrNotInitialized "authz")), w))
  /\ (forall (k : Mutation) (rule : list string) (w : World),
         moduleMutation k adminModule0 rule w
         = (((false, Some (ErrNotInitialized "authz")), adminModule0), w)).
Proof.
  apply (@newCasbinModule_not_initialized exampleConfigLibs "authz" adminRawConfig adminModule0).
  vm_compute. reflexivity.
Defined.

Section MemoryModuleFacts.

(** X17: after a mutation that reports a change, a module with the
    in-memory adapter holds in its adapter exactly the rows of its rule
    set, whatever the adapter held before; no stored row or file is
    touched. *)
Theorem memory_store_mirrors_rules (k : Mutation) (m m' : Authz.CasbinModule)
        (rule : list string) (w w' : World) :
  inMemory m ->
  moduleMutation k m rule w = (((true, None), m'), w') ->
  mirrors m' /\ sameStore w w'.
Proof.
  intros (e & a & He & Ha).
  destruct m as [n cfg en]; simpl in He; subst en.
  destruct e as [md rs ad]; simpl in Ha; subst ad.
  unfold mirrors, sameStore.
  destruct k; simpl;
    unfold Authz.AddPolicy, Authz.RemovePolicy, Authz.AddGroupingPolicy,
      Authz.RemoveGroupingPolicy, Authz.mutate,
      enforcer.AddPolicy, enforcer.RemovePolicy, enforcer.AddGroupingPolicy,
      enforcer.RemoveGroupingPolicy, enforcer.addPolicy, enforcer.removePolicy,
      enforcer.SavePolicy, adapterAddPolicy, adapterRemovePolicy, adapterSavePolicy;
    mrun;
    destruct (casbin.modelHasPolicy _ rule rs); mrun;
    try destruct (enforcer.roleLinksError _ rule); mrun;
    intros Heq; inversion Heq; subst; simpl;
    (split; [eexists; split; [reflexivity | reflexivity] | now split]).
Qed.

Lemma memory_store_mirrors_rules_witness :
  mirrors (snd (fst (Authz.AddPolicy adminModule ["bob"; "/api"; "GET"] emptyWorld)))
  /\ sameStore emptyWorld (snd (Authz.AddPolicy adminModule ["bob"; "/api"; "GET"] emptyWorld)).
Proof.
  apply (memory_store_mirrors_rules MAddPolicy adminModule _ ["bob"; "/api"; "GET"] emptyWorld).
  - exists adminEnforcer, (MemAdapter.mkMem [["admin"; "/api"; "GET"]] [["alice"; "admin"]]).
    split; reflexivity.
  - reflexivity.
Defined.

End MemoryModuleFacts.

(** * The plugin and its registry: facts *)

Section PluginFacts.
Context `{ConfigLibs} `{GoLibs}.

(** X18: [CreateModule] changes the registry only when it succeeds; it then
    returns a module of the given name without enforcer, which the registry
    finds under that name, replacing any module registered there before;
    every other name resolves as before. *)
Theorem CreateModule_registers (r : Plugin.defaultRegistry) (typeName name : string)
        (config : gmap string any) :
  match Plugin.CreateModule r typeName name config with
  | (inl _, r') => r' = r
  | (inr m, r') =>
      typeName = "authz.casbin"
      /\ Authz.name m = name
      /\ Authz.enforcer_ m = None
      /\ Plugin.GetEnforcer r' name = Some m
      /\ forall other : string, other <> name ->
           Plugin.GetEnforcer r' other = Plugin.GetEnforcer r other
  end.
Proof.
  unfold Plugin.CreateModule, Config.newCasbinModule.
  destruct (String.eqb typeName "authz.casbin") eqn:Hty; [|reflexivity].
  apply String.eqb_eq in Hty.
  destruct (Config.parseCasbinConfig config) as [e|[cfg watcher]]; [reflexivity|].
  unfold Plugin.RegisterModule, Plugin.set, Plugin.GetEnforcer. simpl.
  repeat split; auto.
  - apply lookup_insert_eq.
  - intros other Hother. now apply lookup_insert_ne.
Qed.

Lemma CreateModule_registers_aux (r : Plugin.defaultRegistry) (name : string)
      (config : gmap string any) (m : Authz.CasbinModule) (r' : Plugin.defaultRegistry) :
  Plugin.CreateModule r "authz.casbin" name config = (inr m, r') ->
  Authz.name m = name /\ Authz.enforcer_ m = None /\ Plugin.GetEnforcer r' name = Some m.
Proof.
  unfold Plugin.CreateModule, Config.newCasbinModule. simpl.
  destruct (Config.parseCasbinConfig config) as [e|[cfg watcher]]; [discriminate|].
  intros Heq. injection Heq as <- <-.
  unfold Plugin.RegisterModule, Plugin.set, Plugin.GetEnforcer. simpl.
  repeat split. apply lookup_insert_eq.
Qed.

(** X19: a check step made by [CreateStep] for a module made by
    [CreateModule] finds it in the registry, and until the module's [Init]
    has run its [Execute] is a Go error, never a 403 outcome: the request is
    neither allowed nor refused. *)
Theorem CreateStep_before_Init (r : Plugin.defaultRegistry) (name stepName : string)
        (config stepConfig : gmap string any) (m : Authz.CasbinModule)
        (r' : Plugin.defaultRegistry) (s : CheckStep.authzCheckStep)
        (triggerData current : gmap string any)
        (stepOutputs : list (string * gmap string any)) (w : World) :
  Plugin.CreateModule r "authz.casbin" name config = (inr m, r') ->
  Plugin.CreateStep r' "step.authz_check" stepName stepConfig = inr s ->
  CheckStep.moduleName s = name ->
  CheckStep.resolveSubject (CheckStep.subjectKey s) stepOutputs current triggerData <> "" ->
  CheckStep.objectTmpl s = None ->
  CheckStep.actionTmpl s = None ->
  fst (CheckStep.Execute s triggerData stepOutputs current w)
  = Fail (ErrWrap "enforce" (ErrNotInitialized name)).
Proof.
  intros Hmod Hstep Hname Hsubject Hobj Hact.
  pose proof (CreateModule_registers_aux r name config m r' Hmod) as (Hn & Hnone & Hfind).
  unfold Plugin.CreateStep in Hstep. simpl in Hstep.
  destruct (CheckStep.newAuthzCheckStep (Plugin.GetEnforcer r') stepName stepConfig)
    as [s0|e] eqn:Hnew; [|discriminate].
  injection Hstep as ->.
  assert (Hreg : CheckStep.registry s = Plugin.GetEnforcer r').
  { unfold CheckStep.newAuthzCheckStep in Hnew.
    repeat match type of Hnew with
           | (if ?b then _ else _) = _ => destruct b; [discriminate|]
           | match ?c with Ok _ => _ | Fail _ => _ end = _ =>
               destruct c as [[? ?]|?]; [|discriminate]
           end.
    injection Hnew as <-. reflexivity. }
  unfold CheckStep.Execute.
  apply isEmpty_false in Hsubject. rewrite Hsubject, Hobj, Hact. simpl.
  mrun. rewrite Hreg, Hname, Hfind.
  unfold Authz.Enforce. rewrite Hnone, Hn. reflexivity.
Qed.

End PluginFacts.

Lemma CreateStep_before_Init_witness :
  fst (@CheckStep.Execute exampleLibs createdStep carolContext [] ∅ emptyWorld)
  = Fail (ErrWrap "enforce" (ErrNotInitialized "authz")).
Proof.
  apply (@CreateStep_before_Init exampleConfigLibs exampleLibs (Plugin.mkRegistry ∅)
           "authz" "check" adminRawConfig deleteApiConfig adminModule0 createdRegistry
           createdStep carolContext ∅ [] emptyWorld).
  - vm_compute. reflexivity.
  - vm_compute. reflexivity.
  - reflexivity.
  - vm_compute. discriminate.
  - reflexivity.
  - reflexivity.
Defined.

(** * The polling watcher's interval: facts *)

Section WatcherFacts.
Context `{ConfigLibs} `{GoLibs}.

(** X20: [Start] launches the polling loop exactly for a watcher type that
    lower-cases to "polling".  The loop then runs at the configured
    interval when the [interval] entry is a non-empty string that parses to
    a positive duration, and at thirty seconds when the entry is absent,
    not a string, empty, does not parse or is not positive; so the interval
    is always positive. *)
Theorem Start_interval (raw : gmap string any) :
  (Config.Start (Config.parseWatcherConfig raw) = None
   <-> ToLower (stringAt raw "type") <> "polling")
  /\ (ToLower (stringAt raw "type") = "polling" ->
      (forall iv : Z,
          stringAt raw "interval" <> "" ->
          ParseDuration (stringAt raw "interval") = Some iv -> (0 < iv)%Z ->
          Config.Start (Config.parseWatcherConfig raw) = Some iv)
      /\ (stringAt raw "interval" = ""
          \/ ParseDuration (stringAt raw "interval") = None
          \/ (exists iv : Z, ParseDuration (stringAt raw "interval") = Some iv /\ (iv <= 0)%Z) ->
          Config.Start (Config.parseWatcherConfig raw) = Some 30000000000%Z))
  /\ (forall d : Z, Config.Start (Config.parseWatcherConfig raw) = Some d -> (0 < d)%Z).
Proof.
  unfold Config.Start, Config.parseWatcherConfig. cbn [Config.Type_ Config.Interval].
  destruct (String.eqb (ToLower (stringAt raw "type")) "polling") eqn:Hty; cbn [negb].
  - apply String.eqb_eq in Hty. split; [split; [discriminate | contradiction]|].
    destruct (isEmpty (stringAt raw "interval")) eqn:Hiv; cbn [negb].
    + apply isEmpty_true in Hiv. split.
      * intros _. split; [intros iv Hne; contradiction | reflexivity].
      * intros d Heq. injection Heq as <-. lia.
    + apply isEmpty_false in Hiv.
      destruct (ParseDuration (stringAt raw "interval")) as [iv|].
      * destruct (Z.leb_spec iv 0) as [Hle|Hgt]; split.
        -- intros _. split; [|reflexivity].
           intros iv' _ Heq Hpos. injection Heq as <-. lia.
        -- intros d Heq. injection Heq as <-. lia.
        -- intros _. split.
           ++ intros iv' _ Heq _. now injection Heq as <-.
           ++ intros [Hempty | [Hnone | (iv' & Heq & Hle)]];
                [contradiction | discriminate | injection Heq as <-; lia].
        -- intros d Heq. injection Heq as <-. assumption.
      * split.
        -- intros _. split; [intros iv _ Heq; discriminate | reflexivity].
        -- intros d Heq. injection Heq as <-. lia.
  - apply String.eqb_neq in Hty. split; [split; [intros _; assumption | reflexivity]|].
    split; [intros Heq; contradiction | intros d Heq; discriminate].
Qed.

End WatcherFacts.

(** A watcher that asks for polling every five seconds gets a loop at five
    seconds; one whose interval does not parse gets the default. *)
Example Start_interval_configured :
  @Config.Start exampleLibs (@Config.parseWatcherConfig exampleConfigLibs fiveSecondsConfig)
  = Some 5000000000%Z.
Proof. vm_compute. reflexivity. Qed.

Example Start_interval_default :
  @Config.Start exampleLibs (@Config.parseWatcherConfig exampleConfigLibs pollingConfig)
  = Some 30000000000%Z.
Proof. vm_compute. reflexivity. Qed.

(** * The context of a step: facts *)

Section ContextFacts.
Import CheckStep.

Lemma firstSubject_silent (key : string) (outs : list (string * gmap string any)) :
  firstSubject key outs = "" <-> silent key outs.
Proof.
  unfold silent. induction outs as [|[n out] outs IH]; simpl.
  - split; [constructor | reflexivity].
  - destruct (isEmpty (stringAt out key)) eqn:Hout; simpl.
    + apply isEmpty_true in Hout. rewrite IH. split.
      * intros Hall. now constructor.
      * intros Hall. now inversion Hall.
    + apply isEmpty_false in Hout. split; [contradiction|].
      intros Hall. inversion Hall. contradiction.
Qed.

Lemma firstSubject_found (key : string) (before after : list (string * gmap string any))
      (n : string) (out : gmap string any) :
  silent key before -> stringAt out key <> "" ->
  firstSubject key (before ++ (n, out) :: after) = stringAt out key.
Proof.
  unfold silent. intros Hbefore Hout.
  induction before as [|[n0 out0] before IH]; simpl.
  - apply isEmpty_false in Hout. now rewrite Hout.
  - inversion Hbefore as [|? ? Hzero Hrest]; subst. simpl in Hzero.
    rewrite Hzero. simpl. now apply IH.
Qed.

Lemma resolveSubject_cases (key : string) (outs : list (string * gmap string any))
      (current triggerData : gmap string any) :
  (firstSubject key outs <> ""
   /\ resolveSubject key outs current triggerData = firstSubject key outs)
  \/ (firstSubject key outs = "" /\ stringAt current key <> ""
      /\ resolveSubject key outs current triggerData = stringAt current key)
  \/ (firstSubject key outs = "" /\ stringAt current key = ""
      /\ resolveSubject key outs current triggerData = stringAt triggerData key).
Proof.
  unfold resolveSubject.
  destruct (isEmpty (firstSubject key outs)) eqn:Hf; simpl.
  - apply isEmpty_true in Hf. right.
    destruct (isEmpty (stringAt current key)) eqn:Hc; simpl.
    + apply isEmpty_true in Hc. right. repeat split; auto.
      destruct (isEmpty (stringAt triggerData key)) eqn:Ht; simpl; [|reflexivity].
      apply isEmpty_true in Ht. now rewrite Ht.
    + apply isEmpty_false in Hc. left. now repeat split.
  - apply isEmpty_false in Hf. left. now split.
Qed.

(** X21: [resolveSubject] returns the non-empty string of the first step
    output, in visiting order, that has one under the key; failing that the
    one of [current]; failing that the one of [triggerData]; and the empty
    string exactly when none of them has one. *)
Theorem resolveSubject_order (key : string) (outs : list (string * gmap string any))
        (current triggerData : gmap string any) :
  (resolveSubject key outs current triggerData = ""
   <-> silent key outs /\ stringAt current key = "" /\ stringAt triggerData key = "")
  /\ (forall before after n out,
         outs = before ++ (n, out) :: after ->
         silent key before -> stringAt out key <> "" ->
         resolveSubject key outs current triggerData = stringAt out key)
  /\ (silent key outs -> stringAt current key <> "" ->
      resolveSubject key outs current triggerData = stringAt current key)
  /\ (silent key outs -> stringAt current key = "" ->
      resolveSubject key outs current triggerData = stringAt triggerData key).
Proof.
  pose proof (resolveSubject_cases key outs current triggerData) as Hcases.
  pose proof (firstSubject_silent key outs) as Hsilent.
  split; [|split; [|split]].
  - split.
    + intros Heq. destruct Hcases as [[Hf Hr]|[(Hf & Hc & Hr)|(Hf & Hc & Hr)]].
      * congruence.
      * congruence.
      * repeat split; [now apply Hsilent | assumption | congruence].
    + intros (Hs & Hc & Ht). apply Hsilent in Hs.
      destruct Hcases as [[Hf Hr]|[(Hf & Hc' & Hr)|(Hf & Hc' & Hr)]]; congruence.
  - intros before after n out -> Hbefore Hout.
    pose proof (firstSubject_found key before after n out Hbefore Hout) as Hfound.
    destruct Hcases as [[Hf Hr]|[(Hf & Hc & Hr)|(Hf & Hc & Hr)]]; congruence.
  - intros Hs Hc. apply Hsilent in Hs.
    destruct Hcases as [[Hf Hr]|[(Hf & Hc' & Hr)|(Hf & Hc' & Hr)]]; congruence.
  - intros Hs Hc. apply Hsilent in Hs.
    destruct Hcases as [[Hf Hr]|[(Hf & Hc' & Hr)|(Hf & Hc' & Hr)]]; congruence.
Qed.

Lemma merged_outputs_lookup (key : string) (outs : list (string * gmap string any))
      (triggerData : gmap string any) :
  fold_left (fun data out => snd out ∪ data) outs triggerData !! key
  = match lastOutput key outs with
    | Some v => Some v
    | None => triggerData !! key
    end.
Proof.
  revert triggerData; induction outs as [|out outs IH]; intros triggerData; simpl.
  - reflexivity.
  - rewrite IH. destruct (lastOutput key outs) as [v|]; [reflexivity|].
    destruct (snd out !! key) as [v|] eqn:Hout.
    + now apply lookup_union_Some_l.
    + now apply lookup_union_r.
Qed.

(** X22: in the template data a key has the value of [current] when
    [current] has the key; otherwise the value of the last step output, in
    visiting order, that has it; otherwise the value of [triggerData]. *)
Theorem buildTemplateData_lookup (triggerData current : gmap string any)
        (outs : list (string * gmap string any)) (key : string) :
  buildTemplateData triggerData outs current !! key
  = match current !! key with
    | Some v => Some v
    | None => match lastOutput key outs with
              | Some v => Some v
              | None => triggerData !! key
              end
    end.
Proof.
  unfold buildTemplateData.
  destruct (current !! key) as [v|] eqn:Hc.
  - now apply lookup_union_Some_l.
  - rewrite lookup_union_r by assumption. apply merged_outputs_lookup.
Qed.

(** X23: the subject that is enforced and the subject a template sees can
    differ: when a step output and [current] both carry a non-empty string
    under the subject key, [resolveSubject] takes the step output's and the
    template data holds the one of [current]. *)
Theorem subject_precedence_is_reversed (key : string)
        (outs : list (string * gmap string any)) (current triggerData : gmap string any) :
  firstSubject key outs <> "" ->
  stringAt current key <> "" ->
  resolveSubject key outs current triggerData = firstSubject key outs
  /\ stringAt (buildTemplateData triggerData outs current) key = stringAt current key.
Proof.
  intros Hf Hc. split.
  - unfold resolveSubject. apply isEmpty_false in Hf. now rewrite Hf.
  - unfold stringAt in *.
    destruct (current !! key) as [v|] eqn:Hcur; [|contradiction].
    unfold buildTemplateData. now rewrite (lookup_union_Some_l _ _ _ _ Hcur).
Qed.

End ContextFacts.

Lemma subject_precedence_is_reversed_witness :
  CheckStep.resolveSubject "auth_user_id" [("auth", aliceContext)] carolContext ∅
  = CheckStep.firstSubject "auth_user_id" [("auth", aliceContext)]
  /\ stringAt (buildTemplateData ∅ [("auth", aliceContext)] carolContext) "auth_user_id"
     = stringAt carolContext "auth_user_id".
Proof.
  apply (subject_precedence_is_reversed "auth_user_id" [("auth", aliceContext)] carolContext ∅).
  - vm_compute. discriminate.
  - vm_compute. discriminate.
Defined.

(** * The check step, every outcome: facts *)

Section CheckStepOutcomes.
Import CheckStep.
Context `{GoLibs}.

Lemma compileField_inv (label value st : string) (t : option Template) :
  compileField label value = Ok (st, t) ->
  match t with
  | None => st = value
  | Some tm => st = "" /\ isTemplate value = true /\ ParseTemplate value = Some tm
  end.
Proof.
  unfold compileField. destruct (isTemplate value) eqn:Hit.
  - destruct (ParseTemplate value) as [tm|] eqn:Hp; [|discriminate].
    intros Heq. injection Heq as <- <-. auto.
  - intros Heq. injection Heq as <- <-. reflexivity.
Qed.

(** X24: a check step that [newAuthzCheckStep] returns has a non-empty
    module name and subject key, and for object and for action exactly one
    of the static string and the template: without template the static
    string is the configured one, which is not empty; with a template, the
    parsed configured string, the static string is empty. *)
Theorem newAuthzCheckStep_invariant (reg : moduleRegistry) (stepName : string)
        (config : gmap string any) (s : authzCheckStep) :
  newAuthzCheckStep reg stepName config = Ok s ->
  name s = stepName
  /\ moduleName s <> "" /\ subjectKey s <> ""
  /\ match objectTmpl s with
     | None => object s = stringAt config "object" /\ object s <> ""
     | Some tm => object s = "" /\ ParseTemplate (stringAt config "object") = Some tm
     end
  /\ match actionTmpl s with
     | None => action s = stringAt config "action" /\ action s <> ""
     | Some tm => action s = "" /\ ParseTemplate (stringAt config "action") = Some tm
     end.
Proof.
  unfold newAuthzCheckStep.
  destruct (isEmpty (stringAt config "object")) eqn:Hobj; [discriminate|].
  destruct (isEmpty (stringAt config "action")) eqn:Hact; [discriminate|].
  apply isEmpty_false in Hobj, Hact.
  destruct (compileField "parse object template" (stringAt config "object"))
    as [[obj objT]|e] eqn:Ho; [|discriminate].
  destruct (compileField "parse action template" (stringAt config "action"))
    as [[act actT]|e] eqn:Ha; [|discriminate].
  apply compileField_inv in Ho, Ha.
  intros Heq. injection Heq as <-. simpl.
  split; [reflexivity|]. split; [|split; [|split]].
  - destruct (isEmpty (stringAt config "module")) eqn:Hm; [discriminate|].
    now apply isEmpty_false.
  - destruct (isEmpty (stringAt config "subject_key")) eqn:Hk; [discriminate|].
    now apply isEmpty_false.
  - destruct objT as [tm|]; [tauto|]. subst obj. now split.
  - destruct actT as [tm|]; [tauto|]. subst act. now split.
Qed.

(** X25: [Execute] of the check step only reads: it leaves the database,
    its pending faults and every file as they are, and adds at most two
    events, the registry look-up and the enforcement. *)
Theorem Execute_reads_only (s : authzCheckStep) (triggerData current : gmap string any)
        (stepOutputs : list (string * gmap string any)) (w : World) :
  w_db (snd (Execute s triggerData stepOutputs current w)) = w_db w
  /\ w_files (snd (Execute s triggerData stepOutputs current w)) = w_files w
  /\ exists evs : list Event,
      w_trace (snd (Execute s triggerData stepOutputs current w)) = w_trace w ++ evs
      /\ length evs <= 2.
Proof.
  unfold Execute.
  destruct (isEmpty _); [repeat split; exists []; rewrite app_nil_r; auto|].
  destruct (resolve (object s) _ _) as [obj|e];
    [|repeat split; exists []; rewrite app_nil_r; auto].
  destruct (resolve (action s) _ _) as [act|e];
    [|repeat split; exists []; rewrite app_nil_r; auto].
  mrun.
  destruct (registry s (moduleName s)) as [mod_|]; simpl.
  - unfold Authz.Enforce. destruct (Authz.enforcer_ mod_) as [e|]; mrun.
    + destruct (enforcer.Enforce e _) as [[] [err|]]; simpl;
        repeat split; eexists; (split; [rewrite <- app_assoc; reflexivity | simpl; lia]).
    + repeat split. eexists; split; [reflexivity | simpl; lia].
  - repeat split. eexists; split; [reflexivity | simpl; lia].
Qed.

(** X26: whenever [Execute] of the check step returns a result, its
    [authz_allowed] output is a boolean and the pipeline is stopped exactly
    when that boolean is false. *)
Theorem Execute_stops_iff_denied (s : authzCheckStep) (triggerData current : gmap string any)
        (stepOutputs : list (string * gmap string any)) (w : World) (r : StepResult) :
  fst (Execute s triggerData stepOutputs current w) = Ok r ->
  Output r !! "authz_allowed" = Some (ABool (negb (StopPipeline r))).
Proof.
  unfold Execute.
  destruct (isEmpty _).
  { intros Heq. injection Heq as <-. reflexivity. }
  destruct (resolve (object s) _ _) as [obj|e]; [|discriminate].
  destruct (resolve (action s) _ _) as [act|e]; [|discriminate].
  mrun.
  destruct (registry s (moduleName s)) as [mod_|]; simpl; [|discriminate].
  unfold Authz.Enforce. destruct (Authz.enforcer_ mod_) as [e|]; mrun; [|discriminate].
  destruct (enforcer.Enforce e _) as [[] [err|]]; simpl; try discriminate;
    intros Heq; injection Heq as <-; reflexivity.
Qed.

End CheckStepOutcomes.

Lemma newAuthzCheckStep_invariant_witness :
  CheckStep.name deleteApiStep = "check"
  /\ CheckStep.moduleName deleteApiStep <> "" /\ CheckStep.subjectKey deleteApiStep <> ""
  /\ match CheckStep.objectTmpl deleteApiStep with
     | None => CheckStep.object deleteApiStep = stringAt deleteApiConfig "object"
               /\ CheckStep.object deleteApiStep <> ""
     | Some tm => CheckStep.object deleteApiStep = ""
                  /\ @ParseTemplate exampleLibs (stringAt deleteApiConfig "object") = Some tm
     end
  /\ match CheckStep.actionTmpl deleteApiStep with
     | None => CheckStep.action deleteApiStep = stringAt deleteApiConfig "action"
               /\ CheckStep.action deleteApiStep <> ""
     | Some tm => CheckStep.action deleteApiStep = ""
                  /\ @ParseTemplate exampleLibs (stringAt deleteApiConfig "action") = Some tm
     end.
Proof.
  apply (@newAuthzCheckStep_invariant exampleLibs adminRegistry "check" deleteApiConfig
           deleteApiStep).
  vm_compute. reflexivity.
Defined.

Lemma Execute_stops_iff_denied_witness :
  Output (@CheckStep.forbiddenResult exampleLibs
            (CheckStep.forbiddenMessage "carol" "DELETE" "/api")) !! "authz_allowed"
  = Some (ABool (negb (StopPipeline
                         (@CheckStep.forbiddenResult exampleLibs
                            (CheckStep.forbiddenMessage "carol" "DELETE" "/api"))))).
Proof.
  apply (@Execute_stops_iff_denied exampleLibs deleteApiStep carolContext ∅ [] emptyWorld).
  vm_compute. reflexivity.
Defined.

(** * The policy steps: facts *)

Section PolicyStepFacts.
Context `{GoLibs}.

(** X27: [parseRuleConfig] accepts exactly a [rule] entry that is a
    non-empty typed string slice or a non-empty untyped slice of strings,
    and returns its strings in order. *)
Theorem parseRuleConfig_accepts_iff (config : gmap string any) (rule : list string) :
  parseRuleConfig config = inr rule <->
  rule <> []
  /\ (config !! "rule" = Some (AStrSlice rule)
      \/ config !! "rule" = Some (ASlice (map AStr rule))).
Proof.
  unfold parseRuleConfig.
  destruct (config !! "rule") as [v|]; [|split; [discriminate | intros [_ [?|?]]; discriminate]].
  destruct v as [| | | |l|items| |]; simpl;
    try (split; [discriminate | intros [_ [?|?]]; discriminate]).
  - destruct l as [|x l].
    + split; [discriminate|]. intros [Hne [Heq|Heq]]; [|discriminate].
      injection Heq as <-. contradiction.
    + split.
      * intros Heq. injection Heq as <-. split; [discriminate | now left].
      * intros [_ [Heq|Heq]]; [|discriminate]. now injection Heq as <-.
  - destruct (stringsOf 0 items) as [l|e] eqn:Hitems.
    + apply stringsOf_Ok in Hitems. subst items.
      assert (Hinj : forall l', map AStr l = map AStr l' -> l = l').
      { clear. induction l as [|a l IH]; intros [|b l'] Heq; try discriminate; [reflexivity|].
        simpl in Heq. injection Heq as -> Heq. f_equal. now apply IH. }
      destruct l as [|x l].
      * split; [discriminate|]. intros [Hne [Heq|Heq]]; [discriminate|].
        injection Heq as Heq. destruct rule; [contradiction | discriminate].
      * split.
        -- intros Heq. injection Heq as <-. split; [discriminate | now right].
        -- intros [_ [Heq|Heq]]; [discriminate|]. injection Heq as Heq.
           apply Hinj in Heq. now subst.
    + split; [discriminate|]. intros [_ [Heq|Heq]]; [discriminate|].
      injection Heq as ->.
      assert (Hok : stringsOf 0 (map AStr rule) = Ok rule) by (now apply stringsOf_Ok).
      congruence.
Qed.

Lemma compileRuleTemplates_cons (elem : string) (rest : list string) :
  compileRuleTemplates (elem :: rest)
  = match (if isTemplate elem then ParseTemplate elem else None) with
    | Some t => ("" :: fst (compileRuleTemplates rest), Some t :: snd (compileRuleTemplates rest))
    | None => (elem :: fst (compileRuleTemplates rest), None :: snd (compileRuleTemplates rest))
    end.
Proof.
  simpl. destruct (compileRuleTemplates rest) as [static tmpls]. simpl.
  destruct (isTemplate elem); [destruct (ParseTemplate elem)|]; reflexivity.
Qed.

Lemma resolveRule_static (rule : list string) (data : gmap string any) :
  Forall staysStatic rule ->
  resolveRule (fst (compileRuleTemplates rule)) (snd (compileRuleTemplates rule)) data
  = Returned (Ok rule).
Proof.
  induction 1 as [|elem rest Hs _ IH]; [reflexivity|].
  rewrite compileRuleTemplates_cons.
  assert (Hnone : (if isTemplate elem then ParseTemplate elem else None) = None).
  { destruct Hs as [-> | Hp]; [reflexivity|]. rewrite Hp. now destruct (isTemplate elem). }
  rewrite Hnone. cbn [fst snd resolveRule]. now rewrite IH.
Qed.

(** X28: on the two slices [compileRuleTemplates] makes of a rule,
    [resolveRule] never indexes out of range; a rule it resolves has the
    length of the configured one and, at every position whose element stayed
    a static string, that element; a rule whose elements all stayed static
    resolves to itself. *)
Theorem resolveRule_of_compiled (rule : list string) (data : gmap string any) :
  resolveRule (fst (compileRuleTemplates rule)) (snd (compileRuleTemplates rule)) data
  <> Panicked
  /\ (forall out : list string,
         resolveRule (fst (compileRuleTemplates rule)) (snd (compileRuleTemplates rule)) data
         = Returned (Ok out) ->
         length out = length rule
         /\ forall (i : nat) (elem : string),
             rule !! i = Some elem -> staysStatic elem -> out !! i = Some elem)
  /\ (Forall staysStatic rule ->
      resolveRule (fst (compileRuleTemplates rule)) (snd (compileRuleTemplates rule)) data
      = Returned (Ok rule)).
Proof.
  induction rule as [|elem rest (IHp & IHout & IHall)].
  - simpl. split; [discriminate|]. split; [|reflexivity].
    intros out Heq. injection Heq as <-. split; [reflexivity|]. intros i elem Hi. discriminate.
  - rewrite compileRuleTemplates_cons.
    set (static := fst (compileRuleTemplates rest)) in *.
    set (tmpls := snd (compileRuleTemplates rest)) in *.
    destruct (isTemplate elem) eqn:Hit; [destruct (ParseTemplate elem) as [t|] eqn:Hp|];
      cbn [fst snd resolveRule].
    + (* a compiled template *)
      destruct (t data) as [v|e]; [|split; [discriminate|]; split; [discriminate|]].
      * destruct (resolveRule static tmpls data) as [[out'|e]|] eqn:Hrest;
          [|split; [discriminate|]; split; [discriminate|] | contradiction].
        -- split; [discriminate|]. split.
           ++ intros out Heq. injection Heq as <-.
              destruct (IHout out' eq_refl) as [Hlen Hstat]. split; [simpl; lia|].
              intros [|i] el Hi Hs; simpl in *.
              ** injection Hi as <-. destruct Hs; congruence.
              ** now apply Hstat.
           ++ intros Hall. inversion Hall as [|? ? Hs _]. destruct Hs; congruence.
        -- intros Hall. inversion Hall as [|? ? Hs _]. destruct Hs; congruence.
      * intros Hall. inversion Hall as [|? ? Hs _]. destruct Hs; congruence.
    + (* template syntax that does not parse *)
      destruct (resolveRule static tmpls data) as [[out'|e]|] eqn:Hrest;
        [| |contradiction].
      * split; [discriminate|]. split.
        -- intros out Heq. injection Heq as <-.
           destruct (IHout out' eq_refl) as [Hlen Hstat]. split; [simpl; lia|].
           intros [|i] el Hi Hs; simpl in *; [congruence | now apply Hstat].
        -- intros Hall. inversion Hall as [|? ? _ Hrest']. subst.
           specialize (IHall Hrest'). congruence.
      * split; [discriminate|]. split; [discriminate|].
        intros Hall. inversion Hall as [|? ? _ Hrest']. subst.
        specialize (IHall Hrest'). congruence.
    + (* a plain string *)
      destruct (resolveRule static tmpls data) as [[out'|e]|] eqn:Hrest;
        [| |contradiction].
      * split; [discriminate|]. split.
        -- intros out Heq. injection Heq as <-.
           destruct (IHout out' eq_refl) as [Hlen Hstat]. split; [simpl; lia|].
           intros [|i] el Hi Hs; simpl in *; [congruence | now apply Hstat].
        -- intros Hall. inversion Hall as [|? ? _ Hrest']. subst.
           specialize (IHall Hrest'). congruence.
      * split; [discriminate|]. split; [discriminate|].
        intros Hall. inversion Hall as [|? ? _ Hrest']. subst.
        specialize (IHall Hrest'). congruence.
Qed.

Lemma execute_static (method : Authz.CasbinModule -> list string -> M (BoolErr * Authz.CasbinModule))
      (flagKey errContext : string) (reg : moduleRegistry) (stepName : string)
      (config : gmap string any) (s : PolicyStep.authzPolicyStep) (rule : list string)
      (mod_ : Authz.CasbinModule) (triggerData current : gmap string any)
      (stepOutputs : list (string * gmap string any)) (w : World) :
  PolicyStep.newAuthzPolicyStep reg stepName config = inr s ->
  parseRuleConfig config = inr rule ->
  Forall staysStatic rule ->
  reg (PolicyStep.moduleName s) = Some mod_ ->
  PolicyStep.execute method flagKey errContext s triggerData stepOutputs current w
  = (let '((res, mod'), w') :=
       method mod_ rule (snd (emit (EvGetEnforcer (PolicyStep.moduleName s)) w)) in
     ((policyOutcome flagKey errContext rule res, Some mod'), w')).
Proof.
  intros Hnew Hrule Hstatic Hreg.
  unfold PolicyStep.newAuthzPolicyStep in Hnew. rewrite Hrule in Hnew.
  pose proof (resolveRule_static rule (buildTemplateData triggerData stepOutputs current)
                Hstatic) as Hres.
  destruct (compileRuleTemplates rule) as [static tmpls]. simpl in Hres.
  injection Hnew as <-. simpl in Hreg.
  unfold PolicyStep.execute. cbn [PolicyStep.ruleStatic PolicyStep.ruleTmpls
                                   PolicyStep.moduleName PolicyStep.registry PolicyStep.name].
  rewrite Hres. unfold bind, emit. simpl. rewrite Hreg.
  destruct (method mod_ rule _) as [[[flag [err|]] mod'] w']; reflexivity.
Qed.

(** X29: a policy step made by its constructor from a rule whose elements
    all stay static strings runs the module method on exactly the
    configured rule: [Execute] of the add step is [AddPolicy] and [Execute]
    of the remove step is [RemovePolicy] of the module the registry finds,
    with the method's flag and the rule in the output, or the method's error
    wrapped. *)
Theorem policy_steps_run_the_configured_rule (reg : moduleRegistry) (stepName : string)
        (config : gmap string any) (s : PolicyStep.authzPolicyStep) (rule : list string)
        (mod_ : Authz.CasbinModule) (triggerData current : gmap string any)
        (stepOutputs : list (string * gmap string any)) (w : World) :
  PolicyStep.newAuthzPolicyStep reg stepName config = inr s ->
  parseRuleConfig config = inr rule ->
  Forall staysStatic rule ->
  reg (PolicyStep.moduleName s) = Some mod_ ->
  PolicyStep.ExecuteAdd s triggerData stepOutputs current w
  = (let '((res, mod'), w') :=
       Authz.AddPolicy mod_ rule (snd (emit (EvGetEnforcer (PolicyStep.moduleName s)) w)) in
     ((policyOutcome "authz_policy_added" "add policy" rule res, Some mod'), w'))
  /\ PolicyStep.ExecuteRemove s triggerData stepOutputs current w
     = (let '((res, mod'), w') :=
          Authz.RemovePolicy mod_ rule (snd (emit (EvGetEnforcer (PolicyStep.moduleName s)) w)) in
        ((policyOutcome "authz_policy_removed" "remove policy" rule res, Some mod'), w')).
Proof.
  intros Hnew Hrule Hstatic Hreg. split.
  - apply (execute_static _ _ _ reg stepName config); assumption.
  - apply (execute_static _ _ _ reg stepName config); assumption.
Qed.

End PolicyStepFacts.

Lemma policy_steps_run_the_configured_rule_witness :
  PolicyStep.ExecuteAdd bobRuleStep ∅ [] ∅ emptyWorld
  = (let '((res, mod'), w') :=
       Authz.AddPolicy adminModule ["bob"; "/api"; "GET"]
         (snd (emit (EvGetEnforcer (PolicyStep.moduleName bobRuleStep)) emptyWorld)) in
     ((policyOutcome "authz_policy_added" "add policy" ["bob"; "/api"; "GET"] res, Some mod'),
      w'))
  /\ PolicyStep.ExecuteRemove bobRuleStep ∅ [] ∅ emptyWorld
     = (let '((res, mod'), w') :=
          Authz.RemovePolicy adminModule ["bob"; "/api"; "GET"]
            (snd (emit (EvGetEnforcer (PolicyStep.moduleName bobRuleStep)) emptyWorld)) in
        ((policyOutcome "authz_policy_removed" "remove policy" ["bob"; "/api"; "GET"] res,
          Some mod'), w')).
Proof.
  apply (@policy_steps_run_the_configured_rule exampleLibs adminRegistry "grant" bobRuleConfig
           bobRuleStep ["bob"; "/api"; "GET"] adminModule ∅ ∅ [] emptyWorld).
  - vm_compute. reflexivity.
  - vm_compute. reflexivity.
  - repeat constructor.
  - reflexivity.
Defined.

(** * The role-assignment step at run time: facts *)

Section RoleAssignExecFacts.
Import RoleAssignStep RoleAssignExec.

(** X30: the loop of the role-assignment step has no rollback: running it
    over two lists in a row is running it over the first and, when that
    succeeded, over the second from the module and the world the first left;
    a failure in the second part keeps every assignment the first part
    applied. *)
Theorem applyAssignments_app (action : string) (first second : list roleAssignment)
        (data : gmap string any) (mod_ : Authz.CasbinModule) (w : World) :
  applyAssignments action (first ++ second) data mod_ w
  = (let '((r1, m1), w1) := applyAssignments action first data mod_ w in
     match r1 with
     | Returned (Ok done) =>
         let '((r2, m2), w2) := applyAssignments action second data m1 w1 in
         ((match r2 with
           | Returned (Ok more) => Returned (Ok (done ++ more))
           | other => other
           end, m2), w2)
     | other => ((other, m1), w1)
     end).
Proof.
  revert mod_ w; induction first as [|a first IH]; intros mod_ w.
  - simpl. unfold ret.
    destruct (applyAssignments action second data mod_ w) as [[[[more|e]|] m2] w2];
      reflexivity.
  - cbn [app applyAssignments].
    destruct (resolveRule (static a) (tmpls a) data) as [[rule|e]|]; try reflexivity.
    unfold bind at 1 3.
    destruct (applyAction action mod_ rule w) as [[[err|] m0] w0]; [reflexivity|].
    unfold bind. rewrite IH.
    destruct (applyAssignments action first data m0 w0) as [[[[done|e]|] m1] w1];
      try reflexivity.
    unfold ret. cbv beta iota.
    destruct (applyAssignments action second data m1 w1) as [[[[more|e]|] m2] w2];
      reflexivity.
Qed.

End RoleAssignExecFacts.
